(** * Multi-source documentation ingester: a shallow embedding

    The development follows [data_ingestion.py]: the [Document] record, the
    two frontier crawlers ([ReadTheDocsIngester], [WebsiteIngester]), the
    repository fetcher ([GitHubIngester]) and [save_documents].

    Python values are embedded as follows.
    - [str] is a sequence of Unicode code points ([list N]); [len] is
      [length].
    - An [int] is a [Z].
    - A [set] of strings is a [gset]; a [list] is a [list]; a [dict] whose
      insertion order is observable is an association list.
    - Calls that touch the outside world (HTTP requests, the clock) run in a
      state-and-exception monad over the trace of requests issued so far. *)

From Stdlib Require Import ZArith NArith Ascii String.
From Stdlib Require Import DecimalFacts DecimalPos DecimalZ.
From stdpp Require Import gmap list.
From Equations Require Import Equations.

Open Scope N_scope.
Open Scope list_scope.

(** ** Strings *)

Abbreviation str := (list N).

(** [lit "abc"] is the Python literal ['abc']. *)
Definition lit (s : string) : str :=
  map N_of_ascii (list_ascii_of_string s).

Definition NL : N := 10.
Definition QUOTE : N := 34.
Definition BACKSLASH : N := 92.

(** [x in s] for strings: [x] occurs as a contiguous block of [s]. *)
Fixpoint startswith (s p : str) {struct p} : bool :=
  match p, s with
  | [], _ => true
  | _ :: _, [] => false
  | a :: p', b :: s' => (a =? b) && startswith s' p'
  end.

Fixpoint str_contains (x s : str) : bool :=
  startswith s x ||
  match s with
  | [] => false
  | _ :: s' => str_contains x s'
  end.

Definition endswith (s p : str) : bool :=
  startswith (rev s) (rev p).

(** [str.isspace] for one code point (the Unicode white-space set that
    [str.strip()] removes). *)
Definition isspace (c : N) : bool :=
  ((9 <=? c) && (c <=? 13)) || ((28 <=? c) && (c <=? 32)) ||
  (c =? 133) || (c =? 160) || (c =? 5760) ||
  ((8192 <=? c) && (c <=? 8202)) || (c =? 8232) || (c =? 8233) ||
  (c =? 8239) || (c =? 8287) || (c =? 12288).

Fixpoint lstrip (s : str) : str :=
  match s with
  | c :: s' => if isspace c then lstrip s' else s
  | [] => []
  end.

Definition strip (s : str) : str := rev (lstrip (rev (lstrip s))).

(** [s.rstrip('/')] *)
Fixpoint lstrip_slash (s : str) : str :=
  match s with
  | c :: s' => if c =? 47 then lstrip_slash s' else s
  | [] => []
  end.

Definition rstrip_slash (s : str) : str := rev (lstrip_slash (rev s)).

(** [sep.join(parts)] *)
Fixpoint join (sep : str) (parts : list str) : str :=
  match parts with
  | [] => []
  | [p] => p
  | p :: ps => p ++ sep ++ join sep ps
  end.

(** [s.split('/')[-1]]: the text after the last ['/'] (all of [s] when it
    has none). *)
Fixpoint last_segment_aux (acc s : str) : str :=
  match s with
  | [] => rev acc
  | c :: s' => if c =? 47 then last_segment_aux [] s'
               else last_segment_aux (c :: acc) s'
  end.

Definition last_segment (s : str) : str := last_segment_aux [] s.

(** ** [re.sub(r'\n{3,}', '\n\n', content)]

    The regular expression engine scans left to right.  At each position it
    tries [\n{3,}], which is greedy: it takes the whole run of newlines
    starting there.  A run of three or more is replaced by two newlines and
    scanning resumes after the run; otherwise the character is copied and
    scanning resumes at the next position. *)

Fixpoint count_nl (s : str) : nat :=
  match s with
  | c :: s' => if c =? NL then S (count_nl s') else O
  | [] => O
  end.

Fixpoint drop_nl (s : str) : str :=
  match s with
  | c :: s' => if c =? NL then drop_nl s' else s
  | [] => []
  end.

Equations? re_sub_nl3 (s : str) : str by wf (length s) lt :=
  re_sub_nl3 [] := [];
  re_sub_nl3 (c :: r) :=
    if (3 <=? count_nl (c :: r))%nat
    then NL :: NL :: re_sub_nl3 (drop_nl r)
    else c :: re_sub_nl3 r.
Proof.
  all: simpl; try lia.
  assert (Hlen : forall t : str, (length (drop_nl t) <= length t)%nat).
  { induction t as [|a t IH]; simpl; [lia|].
    destruct (a =? NL); simpl; lia. }
  specialize (Hlen r). lia.
Qed.

(** [re.compile('k1|k2|...').search(s)]: an alternation of literals is found
    in [s] when one of them occurs in it.  The match is case-sensitive (the
    patterns are compiled without flags). *)
Definition re_search_any (keywords : list str) (s : str) : bool :=
  existsb (fun k => str_contains k s) keywords.

(** The maximal blocks of non-white-space characters ([\S+]). *)
Fixpoint split_ws_aux (cur : str) (s : str) : list str :=
  match s with
  | [] => match cur with [] => [] | _ => [rev cur] end
  | c :: s' =>
      if isspace c
      then match cur with
           | [] => split_ws_aux [] s'
           | _ => rev cur :: split_ws_aux [] s'
           end
      else split_ws_aux (c :: cur) s'
  end.

Definition split_ws (s : str) : list str := split_ws_aux [] s.

(** ** Parsed markup (the tree the markup parser returns)

    A document is the list of its top-level nodes.  Tag and attribute names
    are as the parser delivers them (lower case); attribute values are the
    raw strings. *)

Unset Elimination Schemes.
Inductive node :=
| Text (s : str)
| Tag (name : str) (attrs : list (str * str)) (children : list node).
Set Elimination Schemes.

Abbreviation soup := (list node).

Fixpoint dict_get {V} (k : str) (l : list (str * V)) : option V :=
  match l with
  | [] => None
  | (k', v) :: l' => if bool_decide (k' = k) then Some v else dict_get k l'
  end.

(** The descendants of a node in document order (the node itself excluded). *)
Fixpoint descendants (n : node) : list node :=
  match n with
  | Text _ => []
  | Tag _ _ cs => flat_map (fun c => c :: descendants c) cs
  end.

Definition soup_descendants (s : soup) : list node :=
  flat_map (fun c => c :: descendants c) s.

Definition tag_named (nm : str) (n : node) : bool :=
  match n with
  | Tag nm' _ _ => bool_decide (nm' = nm)
  | Text _ => false
  end.

Definition tag_in (names : list str) (n : node) : bool :=
  existsb (fun nm => tag_named nm n) names.

Definition attr_is (k v : str) (n : node) : bool :=
  match n with
  | Tag _ attrs _ => bool_decide (dict_get k attrs = Some v)
  | Text _ => false
  end.

Definition has_attr (k : str) (n : node) : bool :=
  match n with
  | Tag _ attrs _ => bool_decide (is_Some (dict_get k attrs))
  | Text _ => false
  end.

(** [class_=re.compile(...)]: the class attribute is a list of tokens; the
    pattern is searched in each token and then in the tokens joined by a
    space.  A tag without a class attribute does not match. *)
Definition class_matches (keywords : list str) (n : node) : bool :=
  match n with
  | Tag _ attrs _ =>
      match dict_get (lit "class") attrs with
      | Some v =>
          let tokens := split_ws v in
          existsb (re_search_any keywords) tokens ||
          re_search_any keywords (join (lit " ") tokens)
      | None => false
      end
  | Text _ => false
  end.

(** [soup.find_all(...)] and [soup.find(...)]: the matching descendants in
    document order, and the first of them. *)
Definition find_all (P : node -> bool) (s : soup) : list node :=
  filter (fun n => P n = true) (soup_descendants s).

Definition find (P : node -> bool) (s : soup) : option node :=
  head (find_all P s).

(** [for element in soup.find_all(names): element.decompose()]: every
    element with one of the names is removed together with its subtree. *)
Fixpoint prune (names : list str) (n : node) : node :=
  match n with
  | Text s => Text s
  | Tag nm attrs cs =>
      Tag nm attrs
        ((fix go (l : list node) : list node :=
            match l with
            | [] => []
            | c :: l' => if tag_in names c then go l'
                         else prune names c :: go l'
            end) cs)
  end.

Fixpoint decompose_all (names : list str) (s : soup) : soup :=
  match s with
  | [] => []
  | c :: s' => if tag_in names c then decompose_all names s'
               else prune names c :: decompose_all names s'
  end.

(** [tag.get_text(separator, strip=True)]: the strings below the tag, each
    stripped, the empty ones dropped, joined by the separator. *)
Definition stripped_strings (n : node) : list str :=
  omap (fun d => match d with
                 | Text s => match strip s with [] => None | t => Some t end
                 | Tag _ _ _ => None
                 end) (descendants n).

Definition get_text (separator : str) (n : node) : str :=
  join separator (stripped_strings n).

(** ** Documents *)

(** The values the ingesters store in [metadata]: strings and integers. *)
Inductive meta_value :=
| MStr (s : str)
| MInt (z : Z).

(** The [Document] dataclass; the fields are in declaration order. *)
Record Document := {
  source : str;
  url : str;
  title : str;
  content : str;
  metadata : list (str * meta_value)
}.

(** ** The outside world *)

Abbreviation bytes := (list N).

(** The place in the program that issues an HTTP request. *)
Inductive call_site :=
| ScrapePage       (* _scrape_page: page content *)
| FindLinks        (* _find_doc_links / _find_links: link discovery *)
| ReadmeMeta       (* _get_readme: readme metadata *)
| ReadmeDownload   (* _get_readme: readme download *)
| DirListing       (* _get_docs_directory: directory listing *)
| FileDownload.    (* _get_docs_directory: docs file download *)

(** The arguments of [requests.get(url, headers=..., timeout=...)]; an
    omitted [timeout] is [None]. *)
Record Request := {
  req_url : str;
  req_headers : list (str * str);
  req_timeout : option Z
}.

Record Response := {
  status_code : Z;
  body : bytes
}.

Inductive event :=
| EvGet (site : call_site) (rq : Request)
| EvSleep (milliseconds : Z).

(** The trace of the run so far, most recent event first. *)
Abbreviation World := (list event).

Inductive exn :=
| RequestException   (* connection failure or timeout *)
| HTTPError          (* raise_for_status *)
| AttributeError
| JSONDecodeError
| RecursionError
| IndexError
| UnicodeEncodeError.

(** The outcome of a computation: a value, an exception, or [OutOfFuel] when
    the iterations or the recursion depth granted to the model are used up
    (which says nothing about the program). *)
Inductive result (A : Type) :=
| Ok (a : A)
| Raise (e : exn)
| OutOfFuel.
Arguments Ok {A} a.
Arguments Raise {A} e.
Arguments OutOfFuel {A}.

(** What the readme endpoint and a directory listing carry once decoded. *)
Record ReadmeInfo := {
  readme_download_url : str;
  readme_html_url : str
}.

Record Entry := {
  entry_type : str;
  entry_name : str;
  entry_path : str;
  entry_download_url : str;
  entry_html_url : str
}.

(** The collaborators of the program.  Each may answer differently as the
    run proceeds: the network and the clock read the trace so far. *)
Class Env := {
  (** the transport: [None] is a connection failure or a timeout *)
  http_get : World -> Request -> option Response;
  (** [time.strftime('%Y-%m-%d %H:%M:%S')] *)
  clock : World -> str;
  (** [BeautifulSoup(response.content, 'html.parser')] *)
  html_parser : bytes -> soup;
  (** [response.text] *)
  response_text : bytes -> str;
  (** [response.json()] of the readme endpoint and of a directory listing;
      [None] when the body does not decode *)
  json_readme : bytes -> option ReadmeInfo;
  json_listing : bytes -> option (list Entry);
  (** [urllib.parse.urljoin] and [urllib.parse.urlparse(...).netloc] *)
  urljoin : str -> str -> str;
  netloc : str -> str;
  (** [list(set(links))]: the order a set is iterated in *)
  set_to_list : list str -> list str
}.

(** ** Effects: state (the trace) and exceptions *)

Definition M (A : Type) : Type := World -> result A * World.

#[global] Instance M_ret : MRet M := fun A a w => (Ok a, w).

#[global] Instance M_bind : MBind M := fun A B k m w =>
  match m w with
  | (Ok a, w') => k a w'
  | (Raise e, w') => (Raise e, w')
  | (OutOfFuel, w') => (OutOfFuel, w')
  end.

Definition raise {A} (e : exn) : M A := fun w => (Raise e, w).

(** [try: m except: h] *)
Definition try_catch {A} (m : M A) (h : exn -> M A) : M A := fun w =>
  match m w with
  | (Ok a, w') => (Ok a, w')
  | (Raise e, w') => h e w'
  | (OutOfFuel, w') => (OutOfFuel, w')
  end.

(** [while cond: body], run for at most [fuel] iterations. *)
Fixpoint while_ {S} (cond : S -> bool) (body : S -> M S) (fuel : nat) (s : S)
    : M S :=
  if cond s then
    match fuel with
    | O => fun w => (OutOfFuel, w)
    | S fuel' => s' ← body s; while_ cond body fuel' s'
    end
  else mret s.

(** The states a loop passes through at the head of its iterations. *)
Inductive loop_reaches {S} (cond : S -> bool) (body : S -> M S)
    : S * World -> S * World -> Prop :=
| loop_reaches_here sw : loop_reaches cond body sw sw
| loop_reaches_step s w s' w' sw'' :
    cond s = true ->
    body s w = (Ok s', w') ->
    loop_reaches cond body (s', w') sw'' ->
    loop_reaches cond body (s, w) sw''.

Section Effects.
Context `{Env}.

(** [requests.get(url, headers=headers, timeout=timeout)] *)
Definition requests_get (site : call_site) (u : str)
(headers : list (str * str)) (timeout : option Z) : M Response :=
fun w =>
let rq := {| req_url := u; req_headers := headers;
req_timeout := timeout |} in
match http_get w rq with
| Some r => (Ok r, EvGet site rq :: w)
| None => (Raise RequestException, EvGet site rq :: w)
end.

(** [response.raise_for_status()] *)
Definition raise_for_status (r : Response) : M unit :=
if ((400 <=? status_code r) && (status_code r <? 600))%Z
then raise HTTPError else mret tt.

Definition strftime : M str := fun w => (Ok (clock w), w).

(** [time.sleep(0.5)] *)
Definition sleep (ms : Z) : M unit := fun w => (Ok tt, EvSleep ms :: w).
End Effects.

(** ** Content extraction shared by both crawlers *)

(** [a or b] on optional tags (a tag object is always true). *)
Definition or_else {A} (a b : option A) : option A :=
  match a with
  | Some x => Some x
  | None => b
  end.

(** [soup.body], [soup.title]: the first tag of that name. *)
Definition soup_body (s : soup) : option node := find (tag_named (lit "body")) s.
Definition soup_title (s : soup) : option node := find (tag_named (lit "title")) s.

(** The title: first [h1], else the [title] tag, else the last path segment. *)
Definition extract_title (s : soup) (u : str) : str :=
  match find (tag_named (lit "h1")) s with
  | Some h1 => get_text [] h1
  | None =>
      match soup_title s with
      | Some t => get_text [] t
      | None => last_segment u
      end
  end.

Definition div_with (P : node -> bool) (n : node) : bool :=
  tag_named (lit "div") n && P n.

(** [link['href'] for link in soup.find_all('a', href=True)] *)
Definition anchors (s : soup) : list str :=
  omap (fun n => match n with
                 | Tag _ attrs _ => dict_get (lit "href") attrs
                 | Text _ => None
                 end)
       (find_all (fun n => tag_named (lit "a") n && has_attr (lit "href") n) s).

Module ReadTheDocsIngester.

Record t := {
base_url : str;
max_pages : Z;
visited_urls : gset str
}.

Definition __init__ (base_url : str) (max_pages : Z) : t :=
{| base_url := rstrip_slash base_url;
max_pages := max_pages;
visited_urls := ∅ |}.

Definition removed_tags : list str :=
[lit "nav"; lit "footer"; lit "script"; lit "style"; lit "aside"].

Definition content_keywords : list str :=
[lit "content"; lit "document"; lit "body"].

(** The main content area of a page whose chrome has been removed. *)
Definition main_content (s : soup) : option node :=
let found :=
or_else (find (div_with (attr_is (lit "role") (lit "main"))) s)
(or_else (find (tag_named (lit "main")) s)
(or_else (find (tag_named (lit "article")) s)
(find (div_with (class_matches content_keywords)) s))) in
match found with
| Some n => Some n
| None => soup_body s
end.

Definition deny_list : list str :=
[lit "search"; lit "genindex"; lit "_static"].

Section WithEnv.
Context `{Env}.

Definition _scrape_page (u : str) : M Document :=
response ← requests_get ScrapePage u [] (Some 10%Z);
_ ← raise_for_status response;
let s := decompose_all removed_tags (html_parser (body response)) in
let main := main_content s in
let title := extract_title s u in
text ← match main with
| Some n => mret (get_text [NL] n)
| None => raise AttributeError
end;
let content := re_sub_nl3 text in
now ← strftime;
mret {| source := lit "readthedocs";
url := u;
title := title;
content := content;
metadata :=
[(lit "scraped_at", MStr now);
(lit "content_length", MInt (Z.of_nat (length content)))] |}.

Definition keep_link (self : t) (full_url : str) : bool :=
bool_decide (netloc full_url = netloc (base_url self)) &&
negb (str_contains (lit "#") full_url) &&
negb (existsb (fun x => str_contains x full_url) deny_list).

Definition _find_doc_links (self : t) (current_url : str) : M (list str) :=
try_catch
(response ← requests_get FindLinks current_url [] (Some 10%Z);
let s := html_parser (body response) in
let links :=
filter (fun full_url => keep_link self full_url = true)
(map (urljoin current_url) (anchors s)) in
mret (set_to_list links))
(fun _ => mret []).

(** The variables of [get_all_docs] that the loop updates; the visited
set lives in [self]. *)
Record frame := {
documents : list Document;
to_visit : list str;
inst : t
}.

Definition loop_cond (f : frame) : bool :=
match to_visit f with
| [] => false
| _ :: _ => (Z.of_nat (length (documents f)) <? max_pages (inst f))%Z
end.

Definition mark_visited (self : t) (u : str) : t :=
{| base_url := base_url self;
max_pages := max_pages self;
visited_urls := {[u]} ∪ visited_urls self |}.

(** One iteration of the [while] loop.  Only [_scrape_page] can raise
inside the [try], and it does so before [documents] or [to_visit]
is changed. *)
Definition loop_body (f : frame) : M frame :=
match to_visit f with
| [] => raise IndexError
| u :: rest =>
if decide (u ∈ visited_urls (inst f))
then mret {| documents := documents f; to_visit := rest;
inst := inst f |}
else
let self' := mark_visited (inst f) u in
try_catch
(doc ← _scrape_page u;
let documents' := documents f ++ [doc] in
new_urls ← _find_doc_links self' u;
let to_visit' :=
rest ++ filter (fun v => v ∉ visited_urls self') new_urls in
_ ← sleep 500;
mret {| documents := documents'; to_visit := to_visit';
inst := self' |})
(fun _ => mret {| documents := documents f; to_visit := rest;
inst := self' |})
end.

Definition initial_frame (self : t) : frame :=
{| documents := []; to_visit := [base_url self]; inst := self |}.

(** [get_all_docs]: the returned documents, together with the ingester
as the call leaves it. *)
Definition get_all_docs (fuel : nat) (self : t)
: M (list Document * t) :=
f ← while_ loop_cond loop_body fuel (initial_frame self);
mret (documents f, inst f).
End WithEnv.
End ReadTheDocsIngester.

Module WebsiteIngester.

Record t := {
start_url : str;
allowed_domains : list str;
max_pages : Z;
visited_urls : gset str
}.

Definition removed_tags : list str :=
[lit "nav"; lit "footer"; lit "script"; lit "style"; lit "aside";
lit "header"].

Definition content_keywords : list str :=
[lit "content"; lit "main"; lit "article"; lit "body"].

(** The main content area of a page whose chrome has been removed. *)
Definition main_content (s : soup) : option node :=
let found :=
or_else (find (tag_named (lit "main")) s)
(or_else (find (tag_named (lit "article")) s)
(find (div_with (class_matches content_keywords)) s)) in
match found with
| Some n => Some n
| None => soup_body s
end.

Section WithEnv.
Context `{Env}.

(** [allowed_domains or [urlparse(start_url).netloc]]: [None] and the
empty list both give the default. *)
Definition __init__ (start_url : str)
(allowed_domains : option (list str)) (max_pages : Z) : t :=
{| start_url := start_url;
allowed_domains :=
match allowed_domains with
| Some (d :: ds) => d :: ds
| Some [] | None => [netloc start_url]
end;
max_pages := max_pages;
visited_urls := ∅ |}.

Definition _scrape_page (u : str) : M Document :=
response ← requests_get ScrapePage u [] (Some 10%Z);
_ ← raise_for_status response;
let s := decompose_all removed_tags (html_parser (body response)) in
let main := main_content s in
let title := extract_title s u in
let text := match main with
| Some n => get_text [NL] n
| None => []
end in
let content := re_sub_nl3 text in
now ← strftime;
mret {| source := lit "website";
url := u;
title := title;
content := content;
metadata :=
[(lit "scraped_at", MStr now);
(lit "content_length", MInt (Z.of_nat (length content)))] |}.

Definition domain_allowed (self : t) (u : str) : bool :=
bool_decide (netloc u ∈ allowed_domains self).

Definition keep_link (self : t) (full_url : str) : bool :=
domain_allowed self full_url && negb (str_contains (lit "#") full_url).

Definition _find_links (self : t) (current_url : str) : M (list str) :=
try_catch
(response ← requests_get FindLinks current_url [] (Some 10%Z);
let s := html_parser (body response) in
let links :=
filter (fun full_url => keep_link self full_url = true)
(map (urljoin current_url)
(anchors s)) in
mret (set_to_list links))
(fun _ => mret []).

(** The variables of [get_all_docs] that the loop updates; the visited
set lives in [self]. *)
Record frame := {
documents : list Document;
to_visit : list str;
inst : t
}.

Definition loop_cond (f : frame) : bool :=
match to_visit f with
| [] => false
| _ :: _ => (Z.of_nat (length (documents f)) <? max_pages (inst f))%Z
end.

Definition mark_visited (self : t) (u : str) : t :=
{| start_url := start_url self;
allowed_domains := allowed_domains self;
max_pages := max_pages self;
visited_urls := {[u]} ∪ visited_urls self |}.

(** One iteration of the [while] loop.  Only [_scrape_page] can raise
inside the [try], and it does so before [documents] or [to_visit]
is changed. *)
Definition loop_body (f : frame) : M frame :=
match to_visit f with
| [] => raise IndexError
| u :: rest =>
if decide (u ∈ visited_urls (inst f))
then mret {| documents := documents f; to_visit := rest;
inst := inst f |}
else if negb (domain_allowed (inst f) u)
then mret {| documents := documents f; to_visit := rest;
inst := inst f |}
else
let self' := mark_visited (inst f) u in
try_catch
(doc ← _scrape_page u;
let documents' := documents f ++ [doc] in
new_urls ← _find_links self' u;
let to_visit' :=
rest ++ filter (fun v => v ∉ visited_urls self') new_urls in
_ ← sleep 500;
mret {| documents := documents'; to_visit := to_visit';
inst := self' |})
(fun _ => mret {| documents := documents f; to_visit := rest;
inst := self' |})
end.

Definition initial_frame (self : t) : frame :=
{| documents := []; to_visit := [start_url self]; inst := self |}.

(** [get_all_docs]: the returned documents, together with the ingester
as the call leaves it. *)
Definition get_all_docs (fuel : nat) (self : t)
: M (list Document * t) :=
f ← while_ loop_cond loop_body fuel (initial_frame self);
mret (documents f, inst f).
End WithEnv.
End WebsiteIngester.

Module GitHubIngester.

Record t := {
repo_owner : str;
repo_name : str;
api_base : str;
headers : list (str * str)
}.

(** [github_token] is used when it is given and not the empty string. *)
Definition __init__ (repo_owner repo_name : str)
(github_token : option str) : t :=
{| repo_owner := repo_owner;
repo_name := repo_name;
api_base := lit "https://api.github.com/repos/" ++ repo_owner
++ lit "/" ++ repo_name;
headers :=
match github_token with
| Some (c :: tok) =>
[(lit "Authorization", lit "token " ++ c :: tok)]
| Some [] | None => []
end |}.

Definition doc_suffixes : list str :=
[lit ".md"; lit ".markdown"; lit ".rst"].

(** A step inside a [try] whose handler returns [documents]: when [m]
raises, the function returns what it has collected so far. *)
Definition or_return {A B} (documents : B) (m : M A) (k : A -> M B) : M B :=
fun w =>
match m w with
| (Ok a, w') => k a w'
| (Raise _, w') => (Ok documents, w')
| (OutOfFuel, w') => (OutOfFuel, w')
end.

Section WithEnv.
Context `{Env}.

Definition repo_slug (self : t) : str :=
repo_owner self ++ lit "/" ++ repo_name self.

Definition _get_readme (self : t) : M (option Document) :=
try_catch
(let u := api_base self ++ lit "/readme" in
response ← requests_get ReadmeMeta u (headers self) (Some 10%Z);
_ ← raise_for_status response;
data ← match json_readme (body response) with
| Some d => mret d
| None => raise JSONDecodeError
end;
download ← requests_get ReadmeDownload (readme_download_url data)
[] None;
let content := response_text (body download) in
now ← strftime;
mret (Some {| source := lit "github";
url := readme_html_url data;
title := repo_name self ++ lit " - README";
content := content;
metadata :=
[(lit "type", MStr (lit "readme"));
(lit "repo", MStr (repo_slug self));
(lit "scraped_at", MStr now)] |}))
(fun _ => mret None).

(** Wiki cloning is skipped: the list stays empty. *)
Definition _get_wiki_pages (self : t) : M (list Document) := mret [].

Definition is_docs_file (item : Entry) : bool :=
bool_decide (entry_type item = lit "file") &&
existsb (endswith (entry_name item)) doc_suffixes.

(** The [for item in items] loop of [_get_docs_directory]; [recurse] is
the recursive call. *)
Fixpoint for_items (recurse : str -> M (list Document)) (self : t)
(items : list Entry) (documents : list Document)
: M (list Document) :=
match items with
| [] => mret documents
| item :: rest =>
if is_docs_file item then
or_return documents
(download ← requests_get FileDownload
(entry_download_url item) [] None;
let content := response_text (body download) in
now ← strftime;
mret {| source := lit "github";
url := entry_html_url item;
title := entry_name item;
content := content;
metadata :=
[(lit "type", MStr (lit "docs_file"));
(lit "repo", MStr (repo_slug self));
(lit "path", MStr (entry_path item));
(lit "scraped_at", MStr now)] |})
(fun doc => for_items recurse self rest (documents ++ [doc]))
else if bool_decide (entry_type item = lit "dir") then
or_return documents
(recurse (entry_path item))
(fun sub => for_items recurse self rest (documents ++ sub))
else for_items recurse self rest documents
end.

(** [_get_docs_directory(path)] with at most [fuel] nested calls. *)
Fixpoint _get_docs_directory (fuel : nat) (self : t) (path : str)
: M (list Document) :=
match fuel with
| O => fun w => (OutOfFuel, w)
| S fuel' =>
let u := api_base self ++ lit "/contents/" ++ path in
or_return []
(requests_get DirListing u (headers self) (Some 10%Z))
(fun response =>
if bool_decide (status_code response = 404%Z) then mret []
else
or_return [] (raise_for_status response) (fun _ =>
or_return []
match json_listing (body response) with
| Some items => mret items
| None => raise JSONDecodeError
end
(fun items =>
for_items (_get_docs_directory fuel' self) self
items [])))
end.

Definition optional_to_list {A} (o : option A) : list A :=
match o with
| Some a => [a]
| None => []
end.

Definition get_all_docs (fuel : nat) (self : t) : M (list Document) :=
readme ← _get_readme self;
let documents := optional_to_list readme in
wiki_pages ← _get_wiki_pages self;
let documents := documents ++ wiki_pages in
docs_files ← _get_docs_directory fuel self (lit "docs");
let documents := documents ++ docs_files in
mret documents.
End WithEnv.
End GitHubIngester.

(** ** Persistence: [json.dump(..., indent=2, ensure_ascii=False)] *)

(** The values the encoder is given and the values a decoder returns.  An
    object keeps its members in order. *)
Unset Elimination Schemes.
Inductive json :=
| JNull
| JBool (b : bool)
| JInt (z : Z)
| JStr (s : str)
| JArr (items : list json)
| JObj (members : list (str * json)).
Set Elimination Schemes.

Definition meta_to_json (v : meta_value) : json :=
  match v with
  | MStr s => JStr s
  | MInt z => JInt z
  end.

(** [doc.to_dict()], that is [asdict(doc)]: the fields in declaration order. *)
Definition to_dict (d : Document) : json :=
  JObj [(lit "source", JStr (source d));
        (lit "url", JStr (url d));
        (lit "title", JStr (title d));
        (lit "content", JStr (content d));
        (lit "metadata",
         JObj (map (fun kv => (fst kv, meta_to_json (snd kv))) (metadata d)))].

Definition hex_digit (n : N) : N :=
  if n <? 10 then 48 + n else 87 + n.

(** The encoder's escape table with [ensure_ascii=False]: the quote, the
    backslash and the control characters are escaped, every other character
    is written as it is. *)
Definition escape_char (c : N) : str :=
  if c =? QUOTE then [BACKSLASH; QUOTE]
  else if c =? BACKSLASH then [BACKSLASH; BACKSLASH]
  else if c =? 10 then [BACKSLASH; 110]
  else if c =? 13 then [BACKSLASH; 114]
  else if c =? 9 then [BACKSLASH; 116]
  else if c =? 8 then [BACKSLASH; 98]
  else if c =? 12 then [BACKSLASH; 102]
  else if c <? 32 then
    [BACKSLASH; 117; 48; 48; hex_digit (c / 16); hex_digit (c mod 16)]
  else [c].

Definition encode_basestring (s : str) : str :=
  QUOTE :: flat_map escape_char s ++ [QUOTE].

Fixpoint uint_chars (d : Decimal.uint) : str :=
  match d with
  | Decimal.Nil => []
  | Decimal.D0 d => 48 :: uint_chars d
  | Decimal.D1 d => 49 :: uint_chars d
  | Decimal.D2 d => 50 :: uint_chars d
  | Decimal.D3 d => 51 :: uint_chars d
  | Decimal.D4 d => 52 :: uint_chars d
  | Decimal.D5 d => 53 :: uint_chars d
  | Decimal.D6 d => 54 :: uint_chars d
  | Decimal.D7 d => 55 :: uint_chars d
  | Decimal.D8 d => 56 :: uint_chars d
  | Decimal.D9 d => 57 :: uint_chars d
  end.

(** [int.__repr__] *)
Definition int_repr (z : Z) : str :=
  match Z.to_int z with
  | Decimal.Pos d => uint_chars d
  | Decimal.Neg d => 45 :: uint_chars d
  end.

(** A newline followed by the indentation of the given nesting level. *)
Definition newline_indent (level : nat) : str :=
  NL :: repeat 32 (2 * level).

Definition item_separator (level : nat) : str := 44 :: newline_indent level.
Definition key_separator : str := [58; 32].

Fixpoint encode (level : nat) (v : json) : str :=
  match v with
  | JNull => lit "null"
  | JBool true => lit "true"
  | JBool false => lit "false"
  | JInt z => int_repr z
  | JStr s => encode_basestring s
  | JArr [] => lit "[]"
  | JArr (x :: xs) =>
      [91] ++ newline_indent (S level) ++ encode (S level) x ++
      (fix rest (l : list json) : str :=
         match l with
         | [] => []
         | y :: l' => item_separator (S level) ++ encode (S level) y ++ rest l'
         end) xs ++
      newline_indent level ++ [93]
  | JObj [] => lit "{}"
  | JObj ((k, x) :: xs) =>
      [123] ++ newline_indent (S level) ++
      encode_basestring k ++ key_separator ++ encode (S level) x ++
      (fix rest (l : list (str * json)) : str :=
         match l with
         | [] => []
         | (k', y) :: l' =>
             item_separator (S level) ++ encode_basestring k' ++
             key_separator ++ encode (S level) y ++ rest l'
         end) xs ++
      newline_indent level ++ [125]
  end.

Definition json_dumps (v : json) : str := encode 0 v.

(** *** Reading the artifact back: a JSON decoder *)

Definition json_ws (c : N) : bool :=
  (c =? 32) || (c =? 9) || (c =? 10) || (c =? 13).

Fixpoint skip_ws (s : str) : str :=
  match s with
  | c :: s' => if json_ws c then skip_ws s' else s
  | [] => []
  end.

Definition hex_value (c : N) : option N :=
  if (48 <=? c) && (c <=? 57) then Some (c - 48)
  else if (97 <=? c) && (c <=? 102) then Some (c - 87)
  else if (65 <=? c) && (c <=? 70) then Some (c - 55)
  else None.

(** Four hexadecimal digits. *)
Definition decode_uXXXX (s : str) : option (N * str) :=
  match s with
  | a :: b :: c :: d :: s' =>
      match hex_value a, hex_value b, hex_value c, hex_value d with
      | Some a, Some b, Some c, Some d =>
          Some (((a * 16 + b) * 16 + c) * 16 + d, s')
      | _, _, _, _ => None
      end
  | _ => None
  end.

Definition simple_escape (e : N) : option N :=
  if e =? QUOTE then Some QUOTE
  else if e =? BACKSLASH then Some BACKSLASH
  else if e =? 47 then Some 47
  else if e =? 98 then Some 8
  else if e =? 102 then Some 12
  else if e =? 110 then Some 10
  else if e =? 114 then Some 13
  else if e =? 116 then Some 9
  else None.

(** The characters of a string up to its closing quote (the opening quote
    has been read).  [fuel] bounds the characters read. *)
Fixpoint scanstring (fuel : nat) (s : str) : option (str * str) :=
  match fuel with
  | O => None
  | S fuel' =>
      match s with
      | [] => None
      | c :: r =>
          if c =? QUOTE then Some ([], r)
          else if c =? BACKSLASH then
            match r with
            | [] => None
            | e :: r' =>
                if e =? 117 then
                  match decode_uXXXX r' with
                  | None => None
                  | Some (uni, r'') =>
                      let paired :=
                        if (55296 <=? uni) && (uni <=? 56319) then
                          match r'' with
                          | 92 :: 117 :: r3 =>
                              match decode_uXXXX r3 with
                              | Some (uni2, r4) =>
                                  if (56320 <=? uni2) && (uni2 <=? 57343)
                                  then Some (65536 + ((uni - 55296) * 1024
                                                      + (uni2 - 56320)), r4)
                                  else None
                              | None => None
                              end
                          | _ => None
                          end
                        else None in
                      let '(ch, after) :=
                        match paired with
                        | Some p => p
                        | None => (uni, r'')
                        end in
                      match scanstring fuel' after with
                      | Some (t, rest) => Some (ch :: t, rest)
                      | None => None
                      end
                  end
                else
                  match simple_escape e with
                  | Some ch =>
                      match scanstring fuel' r' with
                      | Some (t, rest) => Some (ch :: t, rest)
                      | None => None
                      end
                  | None => None
                  end
            end
          else if c <? 32 then None
          else
            match scanstring fuel' r with
            | Some (t, rest) => Some (c :: t, rest)
            | None => None
            end
      end
  end.

Definition digit_of (c : N) : option (Decimal.uint -> Decimal.uint) :=
  if c =? 48 then Some Decimal.D0
  else if c =? 49 then Some Decimal.D1
  else if c =? 50 then Some Decimal.D2
  else if c =? 51 then Some Decimal.D3
  else if c =? 52 then Some Decimal.D4
  else if c =? 53 then Some Decimal.D5
  else if c =? 54 then Some Decimal.D6
  else if c =? 55 then Some Decimal.D7
  else if c =? 56 then Some Decimal.D8
  else if c =? 57 then Some Decimal.D9
  else None.

(** The longest prefix of decimal digits. *)
Fixpoint scan_digits (s : str) : Decimal.uint * str :=
  match s with
  | [] => (Decimal.Nil, [])
  | c :: r =>
      match digit_of c with
      | Some d => let '(u, rest) := scan_digits r in (d u, rest)
      | None => (Decimal.Nil, s)
      end
  end.

(** The integer part of a number: [0] or a non-zero digit followed by
    digits. *)
Definition scan_natural (s : str) : option (Decimal.uint * str) :=
  match s with
  | [] => None
  | c :: r =>
      if c =? 48 then Some (Decimal.D0 Decimal.Nil, r)
      else match scan_digits s with
           | (Decimal.Nil, _) => None
           | (u, rest) => Some (u, rest)
           end
  end.

(** A number; one with a fraction or an exponent is not an integer and is
    outside [json]. *)
Definition scan_int (s : str) : option (Z * str) :=
  let '(negative, s') :=
    match s with
    | 45 :: r => (true, r)
    | _ => (false, s)
    end in
  match scan_natural s' with
  | None => None
  | Some (u, rest) =>
      match rest with
      | c :: _ =>
          if (c =? 46) || (c =? 101) || (c =? 69) then None
          else Some (Z.of_int (if negative then Decimal.Neg u
                               else Decimal.Pos u), rest)
      | [] => Some (Z.of_int (if negative then Decimal.Neg u
                              else Decimal.Pos u), rest)
      end
  end.

(** One value, then the continuation of an array and of an object; [fuel]
    bounds the nesting and the number of items. *)
Fixpoint scan_value (fuel : nat) (s : str) : option (json * str) :=
  match fuel with
  | O => None
  | S fuel' =>
      match s with
      | [] => None
      | c :: r =>
          if c =? QUOTE then
            match scanstring (length r) r with
            | Some (t, rest) => Some (JStr t, rest)
            | None => None
            end
          else if c =? 123 then
            match skip_ws r with
            | [] => None
            | c' :: rest =>
                if c' =? 125 then Some (JObj [], rest)
                else
                  match scan_members fuel' (c' :: rest) with
                  | Some (ms, rest') => Some (JObj ms, rest')
                  | None => None
                  end
            end
          else if c =? 91 then
            match skip_ws r with
            | [] => None
            | c' :: rest =>
                if c' =? 93 then Some (JArr [], rest)
                else
                  match scan_items fuel' (c' :: rest) with
                  | Some (xs, rest') => Some (JArr xs, rest')
                  | None => None
                  end
            end
          else if startswith s (lit "null") then Some (JNull, drop 4 s)
          else if startswith s (lit "true") then Some (JBool true, drop 4 s)
          else if startswith s (lit "false") then Some (JBool false, drop 5 s)
          else
            match scan_int s with
            | Some (z, rest) => Some (JInt z, rest)
            | None => None
            end
      end
  end
with scan_items (fuel : nat) (s : str) : option (list json * str) :=
  match fuel with
  | O => None
  | S fuel' =>
      match scan_value fuel' s with
      | None => None
      | Some (x, rest) =>
          match skip_ws rest with
          | [] => None
          | c :: rest' =>
              if c =? 44 then
                match scan_items fuel' (skip_ws rest') with
                | Some (xs, rest'') => Some (x :: xs, rest'')
                | None => None
                end
              else if c =? 93 then Some ([x], rest')
              else None
          end
      end
  end
with scan_members (fuel : nat) (s : str) : option (list (str * json) * str) :=
  match fuel with
  | O => None
  | S fuel' =>
      match s with
      | [] => None
      | q :: r =>
          if q =? QUOTE then
            match scanstring (length r) r with
            | None => None
            | Some (k, rest) =>
                match skip_ws rest with
                | [] => None
                | c :: rest' =>
                    if c =? 58 then
                      match scan_value fuel' (skip_ws rest') with
                      | None => None
                      | Some (x, rest'') =>
                          match skip_ws rest'' with
                          | [] => None
                          | c' :: r3 =>
                              if c' =? 44 then
                                match scan_members fuel' (skip_ws r3) with
                                | Some (ms, r4) => Some ((k, x) :: ms, r4)
                                | None => None
                                end
                              else if c' =? 125 then Some ([(k, x)], r3)
                              else None
                          end
                      end
                    else None
                end
            end
          else None
      end
  end.

(** [json.loads(text)]: one value between optional white space. *)
Definition json_loads (text : str) : option json :=
  match scan_value (S (length text)) (skip_ws text) with
  | Some (v, rest) =>
      match skip_ws rest with
      | [] => Some v
      | _ :: _ => None
      end
  | None => None
  end.

(** *** The file *)

(** A text file opened with [encoding='utf-8'] takes every code point
    except the surrogates. *)
Definition utf8_encodable (c : N) : bool :=
  (c <? 55296) || ((57343 <? c) && (c <=? 1114111)).

(** The files, by path, with the text each holds. *)
Abbreviation filesystem := (gmap str str).

(** [save_documents(documents, output_file)]: the file is opened for
    writing, which replaces what it held, and the dump is written to it. *)
Definition save_documents (documents : list Document) (output_file : str)
    (fs : filesystem) : result filesystem :=
  let text := json_dumps (JArr (map to_dict documents)) in
  if forallb utf8_encodable text
  then Ok (<[output_file := text]> fs)
  else Raise UnicodeEncodeError.

(** ** Vocabulary of the properties *)

(** A string without three consecutive newlines. *)
Definition no_triple_newline (s : str) : Prop :=
  forall a b, s <> a ++ NL :: NL :: NL :: b.

(** A string that does not end with a newline. *)
Definition no_final_newline (s : str) : Prop := last s <> Some NL.

(** The request both crawlers send for a page. *)
Definition page_request (u : str) : Request :=
  {| req_url := u; req_headers := []; req_timeout := Some 10%Z |}.

Definition site_eqb (a b : call_site) : bool :=
  match a, b with
  | ScrapePage, ScrapePage | FindLinks, FindLinks
  | ReadmeMeta, ReadmeMeta | ReadmeDownload, ReadmeDownload
  | DirListing, DirListing | FileDownload, FileDownload => true
  | _, _ => false
  end.

(** The requests of a trace, and those a given call site sent to a url. *)
Definition is_get_to (u : str) (e : event) : bool :=
  match e with
  | EvGet _ rq => bool_decide (req_url rq = u)
  | EvSleep _ => false
  end.

Definition is_get_from (site : call_site) (u : str) (e : event) : bool :=
  match e with
  | EvGet site' rq => site_eqb site' site && bool_decide (req_url rq = u)
  | EvSleep _ => false
  end.

Fixpoint count_events (P : event -> bool) (w : World) : nat :=
  match w with
  | [] => O
  | e :: w' => ((if P e then 1 else 0) + count_events P w')%nat
  end.

(** How often a url was requested, by any call site and by one of them. *)
Definition gets_to (u : str) (w : World) : nat := count_events (is_get_to u) w.
Definition gets_from (site : call_site) (u : str) (w : World) : nat :=
  count_events (is_get_from site u) w.

(** The metadata both crawlers attach to a page. *)
Definition page_metadata (d : Document) : Prop :=
  dict_get (lit "content_length") (metadata d)
    = Some (MInt (Z.of_nat (length (content d)))) /\
  exists now, dict_get (lit "scraped_at") (metadata d) = Some (MStr now).

(** ** The frontier as a transition system

    Both crawlers run the same loop.  [Frontier.step] lists what one
    iteration can do to the documents, the queue, the visited set and the
    trace; the crawlers differ in the urls they admit ([allowed]). *)
Module Frontier.

Record state := {
docs : list Document;
queue : list str;
visited : gset str;
trace : World
}.

Section Machine.
Context (max_pages : Z) (allowed : str -> bool).

Definition enqueue (seen : gset str) (rest new_urls : list str)
: list str :=
rest ++ filter (fun v => v ∉ seen) new_urls.

Inductive step : state -> state -> Prop :=
| step_seen s u rest :
queue s = u :: rest ->
(Z.of_nat (length (docs s)) < max_pages)%Z ->
u ∈ visited s ->
step s {| docs := docs s; queue := rest; visited := visited s;
trace := trace s |}
| step_outside s u rest :
queue s = u :: rest ->
(Z.of_nat (length (docs s)) < max_pages)%Z ->
u ∉ visited s ->
allowed u = false ->
step s {| docs := docs s; queue := rest; visited := visited s;
trace := trace s |}
| step_failed s u rest :
queue s = u :: rest ->
(Z.of_nat (length (docs s)) < max_pages)%Z ->
u ∉ visited s ->
allowed u = true ->
step s {| docs := docs s; queue := rest;
visited := {[u]} ∪ visited s;
trace := EvGet ScrapePage (page_request u) :: trace s |}
| step_scraped s u rest d new_urls :
queue s = u :: rest ->
(Z.of_nat (length (docs s)) < max_pages)%Z ->
u ∉ visited s ->
allowed u = true ->
url d = u ->
no_triple_newline (content d) ->
page_metadata d ->
step s {| docs := docs s ++ [d];
queue := enqueue ({[u]} ∪ visited s) rest new_urls;
visited := {[u]} ∪ visited s;
trace := EvSleep 500
:: EvGet FindLinks (page_request u)
:: EvGet ScrapePage (page_request u)
:: trace s |}.

(** Any number of iterations. *)
Inductive steps : state -> state -> Prop :=
| steps_refl s : steps s s
| steps_step s1 s2 s3 : step s1 s2 -> steps s2 s3 -> steps s1 s3.
End Machine.
End Frontier.

(** The frontier each crawler holds in a frame of its loop. *)
Definition rtd_view (f : ReadTheDocsIngester.frame) (w : World)
    : Frontier.state :=
  {| Frontier.docs := ReadTheDocsIngester.documents f;
     Frontier.queue := ReadTheDocsIngester.to_visit f;
     Frontier.visited :=
       ReadTheDocsIngester.visited_urls (ReadTheDocsIngester.inst f);
     Frontier.trace := w |}.

Definition web_view (f : WebsiteIngester.frame) (w : World)
    : Frontier.state :=
  {| Frontier.docs := WebsiteIngester.documents f;
     Frontier.queue := WebsiteIngester.to_visit f;
     Frontier.visited :=
       WebsiteIngester.visited_urls (WebsiteIngester.inst f);
     Frontier.trace := w |}.

(** What a frontier crawl leaves in the trace: page requests, sent by the
    content fetch or by link discovery to an admitted url, and the
    politeness delay. *)
Definition crawl_event (allowed : str -> bool) (e : event) : Prop :=
  match e with
  | EvGet site rq =>
      rq = page_request (req_url rq) /\
      (site = ScrapePage \/ site = FindLinks) /\
      allowed (req_url rq) = true
  | EvSleep ms => ms = 500%Z
  end.

(** The documents of a frontier: one per url, each for a visited and
    admitted url, each as the extractor leaves it. *)
Definition docs_inv (allowed : str -> bool) (s : Frontier.state) : Prop :=
  NoDup (map url (Frontier.docs s)) /\
  Forall (fun d => url d ∈ Frontier.visited s /\
                   allowed (url d) = true /\
                   page_metadata d /\
                   no_triple_newline (content d)) (Frontier.docs s).

(** The trace of a frontier that started with the visited set [seen0] and
    the trace [w0]: the events added since are crawl events, no url was sent
    a content fetch twice or a link-discovery fetch twice, and nothing was
    sent to a url that is not visited or that was visited from the start. *)
Definition trace_inv (allowed : str -> bool) (seen0 : gset str) (w0 : World)
    (s : Frontier.state) : Prop :=
  seen0 ⊆ Frontier.visited s /\
  exists new,
    Frontier.trace s = new ++ w0 /\
    Forall (crawl_event allowed) new /\
    forall u,
      (gets_from ScrapePage u new <= 1)%nat /\
      (gets_from FindLinks u new <= 1)%nat /\
      (u ∉ Frontier.visited s \/ u ∈ seen0 -> gets_to u new = O).

(** ** A small world to run the ingesters in

    One site, [http://d], whose home page links to two of its own pages and
    to a page of another site, and one repository, [o/r], with a docs
    directory.  The status every url answers with is a parameter. *)
Module Fixture.

Fixpoint after_slashes (s : str) : str :=
match s with
| 47 :: 47 :: r => r
| _ :: r => after_slashes r
| [] => []
end.

Fixpoint until_slash (s : str) : str :=
match s with
| [] => []
| c :: r => if c =? 47 then [] else c :: until_slash r
end.

(** The text between [//] and the next [/]. *)
Definition netloc_of (u : str) : str := until_slash (after_slashes u).

Definition link (href : string) : node :=
Tag (lit "a") [(lit "href", lit href)] [Text (lit "link")].

Definition home_page : soup :=
[Tag (lit "html") []
[Tag (lit "head") [] [Tag (lit "title") [] [Text (lit "Home")]];
Tag (lit "body") []
[Tag (lit "nav") [] [Text (lit "menu")];
Tag (lit "h1") [] [Text (lit "Intro")];
Tag (lit "main") []
[Text (lit "Hello" ++ [NL; NL; NL; NL] ++ lit "World")];
link "http://d/a"; link "http://d/b"; link "http://x/o"]]].

Definition leaf_page : soup :=
[Tag (lit "html") []
[Tag (lit "body") []
[Tag (lit "div") [(lit "class", lit "page content")]
[Text (lit " leaf ")]]]].

Definition readme_info : ReadmeInfo :=
{| readme_download_url := lit "https://raw/o/r/README.md";
readme_html_url := lit "https://github.com/o/r/blob/main/README.md" |}.

Definition docs_listing : list Entry :=
[{| entry_type := lit "file"; entry_name := lit "guide.md";
entry_path := lit "docs/guide.md";
entry_download_url := lit "https://raw/o/r/docs/guide.md";
entry_html_url := lit "https://github.com/o/r/blob/main/docs/guide.md" |};
{| entry_type := lit "dir"; entry_name := lit "sub";
entry_path := lit "docs/sub";
entry_download_url := [];
entry_html_url := lit "https://github.com/o/r/tree/main/docs/sub" |};
{| entry_type := lit "file"; entry_name := lit "logo.png";
entry_path := lit "docs/logo.png";
entry_download_url := lit "https://raw/o/r/docs/logo.png";
entry_html_url := lit "https://github.com/o/r/blob/main/docs/logo.png" |};
{| entry_type := lit "file"; entry_name := lit "api.rst";
entry_path := lit "docs/api.rst";
entry_download_url := lit "https://raw/o/r/docs/api.rst";
entry_html_url := lit "https://github.com/o/r/blob/main/docs/api.rst" |}].

Definition sub_listing : list Entry :=
[{| entry_type := lit "file"; entry_name := lit "deep.markdown";
entry_path := lit "docs/sub/deep.markdown";
entry_download_url := lit "https://raw/o/r/docs/sub/deep.markdown";
entry_html_url :=
lit "https://github.com/o/r/blob/main/docs/sub/deep.markdown" |}].

Definition docs_url : str := lit "https://api.github.com/repos/o/r/contents/docs".
Definition sub_url : str := lit "https://api.github.com/repos/o/r/contents/docs/sub".
Definition readme_url : str := lit "https://api.github.com/repos/o/r/readme".

(** Every request is answered; the body of the answer is the url asked
for, which the decoders below turn into the page or listing. *)
Definition env (status_of : str -> Z) : Env :=
{| http_get := fun _ rq =>
Some {| status_code := status_of (req_url rq); body := req_url rq |};
clock := fun _ => lit "2024-01-01 00:00:00";
html_parser := fun b =>
if bool_decide (b = lit "http://d") then home_page else leaf_page;
response_text := fun b => lit "text of " ++ b;
json_readme := fun b =>
if bool_decide (b = readme_url) then Some readme_info else None;
json_listing := fun b =>
if bool_decide (b = docs_url) then Some docs_listing
else if bool_decide (b = sub_url) then Some sub_listing
else None;
urljoin := fun _ href => href;
netloc := netloc_of;
set_to_list := remove_dups |}.

(** Everything answers 200. *)
Definition all_ok : Env := env (fun _ => 200%Z).

(** The readme endpoint answers 500. *)
Definition readme_down : Env :=
env (fun u => if bool_decide (u = readme_url) then 500%Z else 200%Z).

(** The repository has no docs directory: its listing answers 404. *)
Definition no_docs : Env :=
env (fun u => if bool_decide (u = docs_url) then 404%Z else 200%Z).

(** The listing of the subdirectory answers 500. *)
Definition sub_down : Env :=
env (fun u => if bool_decide (u = sub_url) then 500%Z else 200%Z).

Definition repo : GitHubIngester.t :=
GitHubIngester.__init__ (lit "o") (lit "r") None.

(** Every page is empty: the parser finds no tag at all. *)
Definition blank_pages : Env :=
{| http_get := fun _ rq => Some {| status_code := 200; body := [] |};
clock := fun _ => lit "2024-01-01 00:00:00";
html_parser := fun _ => [];
response_text := fun b => b;
json_readme := fun _ => None;
json_listing := fun _ => None;
urljoin := fun _ href => href;
netloc := netloc_of;
set_to_list := remove_dups |}.

(** Two documents with accents, an emoji, quotes and a newline in their
text, and one whose content is a lone surrogate. *)
Definition cafe_doc : Document :=
{| source := lit "website";
 url := lit "http://d/caf" ++ [233];
 title := lit "Caf" ++ [233; 32; QUOTE] ++ lit "bar" ++ [QUOTE];
 content := lit "Hello" ++ [NL; NL] ++ lit "World " ++ [128512; 9; 92];
 metadata := [(lit "scraped_at", MStr (lit "2024-01-01 00:00:00"));
              (lit "content_length", MInt 17)] |}.

Definition plain_doc : Document :=
{| source := lit "github";
 url := lit "https://github.com/o/r/blob/main/docs/guide.md";
 title := lit "guide.md";
 content := lit "text";
 metadata := [(lit "type", MStr (lit "docs_file"));
              (lit "repo", MStr (lit "o/r"));
              (lit "path", MStr (lit "docs/guide.md"));
              (lit "scraped_at", MStr (lit "2024-01-01 00:00:00"))] |}.

Definition surrogate_doc : Document :=
{| source := lit "website";
 url := lit "http://d";
 title := lit "t";
 content := [55296];
 metadata := [] |}.

(** A page whose only block has the class [Content], with a capital. *)
Definition capital_class_page : soup :=
[Tag (lit "body") []
[Tag (lit "div") [(lit "class", lit "Content")] [Text (lit "text")]]].

(** A page whose only block has the main role. *)
Definition main_role_page : soup :=
[Tag (lit "body") []
[Tag (lit "div") [(lit "role", lit "main")] [Text (lit "text")]]].

(** A page whose content is in a [section] with the class [content]. *)
Definition section_page : soup :=
[Tag (lit "body") []
[Tag (lit "section") [(lit "class", lit "content")]
[Text (lit "text")]]].

(** A world without a network: every request fails. *)
Definition offline : Env :=
{| http_get := fun _ _ => None;
clock := fun _ => lit "2024-01-01 00:00:00";
html_parser := fun _ => [];
response_text := fun b => b;
json_readme := fun _ => None;
json_listing := fun _ => None;
urljoin := fun _ href => href;
netloc := netloc_of;
set_to_list := remove_dups |}.
End Fixture.

(** The configuration of an ingester, which a crawl leaves as it is. *)
Definition rtd_config_kept (self : ReadTheDocsIngester.t)
    (f : ReadTheDocsIngester.frame) : Prop :=
  ReadTheDocsIngester.max_pages (ReadTheDocsIngester.inst f)
  = ReadTheDocsIngester.max_pages self /\
  ReadTheDocsIngester.base_url (ReadTheDocsIngester.inst f)
  = ReadTheDocsIngester.base_url self.

Definition web_config_kept (self : WebsiteIngester.t)
    (f : WebsiteIngester.frame) : Prop :=
  WebsiteIngester.max_pages (WebsiteIngester.inst f)
  = WebsiteIngester.max_pages self /\
  WebsiteIngester.allowed_domains (WebsiteIngester.inst f)
  = WebsiteIngester.allowed_domains self.

(** The requests of the repository fetcher to the API. *)
Definition readme_request (self : GitHubIngester.t) : Request :=
  {| req_url := GitHubIngester.api_base self ++ lit "/readme";
     req_headers := GitHubIngester.headers self;
     req_timeout := Some 10%Z |}.

Definition listing_request (self : GitHubIngester.t) (path : str) : Request :=
  {| req_url := GitHubIngester.api_base self ++ lit "/contents/" ++ path;
     req_headers := GitHubIngester.headers self;
     req_timeout := Some 10%Z |}.

(** The statuses for which [raise_for_status] raises (those for which
    [response.ok] is false): client and server errors. *)
Definition error_status (status : Z) : Prop := (400 <= status < 600)%Z.

(** An API call fails: the transport fails or the answer has an error
    status. *)
Definition call_fails `{Env} (w : World) (rq : Request) : Prop :=
  match http_get w rq with
  | None => True
  | Some r => error_status (status_code r)
  end.

(** A computation that never raises. *)
Definition never_raises {A} (m : M A) : Prop :=
  forall w e w', m w <> (Raise e, w').

(** The timeout each call site passes to [requests.get]: the two download
    calls pass none, every other call passes 10. *)
Definition timeout_of_site (site : call_site) : option Z :=
  match site with
  | ReadmeDownload | FileDownload => None
  | ScrapePage | FindLinks | ReadmeMeta | DirListing => Some 10%Z
  end.

Definition timeout_as_sited (e : event) : Prop :=
  match e with
  | EvGet site rq => req_timeout rq = timeout_of_site site
  | EvSleep _ => True
  end.

(** A computation that only adds events of a given kind to the trace. *)
Definition adds_only {A} (P : event -> Prop) (m : M A) : Prop :=
  forall w, exists later, snd (m w) = later ++ w /\ Forall P later.

(** ** The content root, as a specification *)

(** [n] is the first node of the document, in document order, that
    satisfies [P]; and no node of the document satisfies [P]. *)
Definition first_match (P : node -> bool) (s : soup) (n : node) : Prop :=
  exists before after,
    soup_descendants s = before ++ n :: after /\
    P n = true /\
    Forall (fun m => P m = false) before.

Definition no_match (P : node -> bool) (s : soup) : Prop :=
  Forall (fun m => P m = false) (soup_descendants s).

(** [n] is the first match of the first of the tests, in the order given,
    that any node satisfies. *)
Fixpoint by_priority (tests : list (node -> bool)) (s : soup) (n : node)
    : Prop :=
  match tests with
  | [] => False
  | P :: tests' => first_match P s n \/ (no_match P s /\ by_priority tests' s n)
  end.

(** [k] occurs in [s], code point for code point. *)
Definition occurs_in (k s : str) : Prop := exists a b, s = a ++ k ++ b.

(** The tests of the doc-site extractor and of the website extractor, in
    order of priority. *)
Definition rtd_tests : list (node -> bool) :=
  [div_with (attr_is (lit "role") (lit "main"));
   tag_named (lit "main");
   tag_named (lit "article");
   div_with (class_matches ReadTheDocsIngester.content_keywords);
   tag_named (lit "body")].

Definition web_tests : list (node -> bool) :=
  [tag_named (lit "main");
   tag_named (lit "article");
   div_with (class_matches WebsiteIngester.content_keywords);
   tag_named (lit "body")].

(** *** The selection as the specification words it

    A main-role container, then [main], then [article], then the first
    element, of any name, whose class attribute holds one of the keywords
    in any letter case, then the body; the same in both variants. *)
Definition lower (c : N) : N :=
  if (65 <=? c) && (c <=? 90) then c + 32 else c.

Definition class_matches_any_case (keywords : list str) (n : node) : bool :=
  match n with
  | Tag _ attrs _ =>
      match dict_get (lit "class") attrs with
      | Some v => re_search_any keywords (map lower v)
      | None => false
      end
  | Text _ => false
  end.

Definition claimed_main_content (keywords : list str) (s : soup)
    : option node :=
  or_else (find (attr_is (lit "role") (lit "main")) s)
 (or_else (find (tag_named (lit "main")) s)
 (or_else (find (tag_named (lit "article")) s)
 (or_else (find (class_matches_any_case keywords) s)
          (soup_body s)))).

(** [find(P1) or find(P2) or ...]: the tests tried one after the other. *)
Fixpoint find_first_of (tests : list (node -> bool)) (s : soup)
    : option node :=
  match tests with
  | [] => None
  | P :: tests' => or_else (find P s) (find_first_of tests' s)
  end.

(** ** Vocabulary of the round trip *)

(** What may follow a value in the encoder's output: nothing, a comma or a
    newline. *)
Definition ends_value (rest : str) : Prop :=
  match rest with
  | [] => True
  | c :: _ => c = 44 \/ c = NL
  end.

(** The items after the first of an array, and the members after the first
    of an object, as the encoder writes them. *)
Fixpoint encode_more_items (level : nat) (l : list json) : str :=
  match l with
  | [] => []
  | y :: l' =>
      item_separator level ++ encode level y ++ encode_more_items level l'
  end.

Fixpoint encode_more_members (level : nat) (l : list (str * json)) : str :=
  match l with
  | [] => []
  | (k, y) :: l' =>
      item_separator level ++ encode_basestring k ++ key_separator ++
      encode level y ++ encode_more_members level l'
  end.

(** The fuel that reading a value back takes. *)
Fixpoint json_size (v : json) : nat :=
  match v with
  | JArr xs =>
      S ((fix go (l : list json) : nat :=
            match l with
            | [] => O
            | x :: l' => S (json_size x + go l')
            end) xs)
  | JObj ms =>
      S ((fix go (l : list (str * json)) : nat :=
            match l with
            | [] => O
            | (_, x) :: l' => S (json_size x + go l')
            end) ms)
  | _ => 1%nat
  end.

Fixpoint items_size (l : list json) : nat :=
  match l with
  | [] => O
  | x :: l' => S (json_size x + items_size l')
  end.

Fixpoint members_size (l : list (str * json)) : nat :=
  match l with
  | [] => O
  | (_, x) :: l' => S (json_size x + members_size l')
  end.

(** Text that a UTF-8 file takes: no surrogate code point. *)
Definition str_encodable (s : str) : Prop :=
  Forall (fun c => utf8_encodable c = true) s.

Fixpoint json_encodable (v : json) : Prop :=
  match v with
  | JStr s => str_encodable s
  | JArr xs =>
      (fix go (l : list json) : Prop :=
         match l with
         | [] => True
         | x :: l' => json_encodable x /\ go l'
         end) xs
  | JObj ms =>
      (fix go (l : list (str * json)) : Prop :=
         match l with
         | [] => True
         | (k, x) :: l' => str_encodable k /\ json_encodable x /\ go l'
         end) ms
  | _ => True
  end.

Definition meta_encodable (kv : str * meta_value) : Prop :=
  str_encodable (fst kv) /\
  match snd kv with
  | MStr s => str_encodable s
  | MInt _ => True
  end.

Definition document_encodable (d : Document) : Prop :=
  str_encodable (source d) /\ str_encodable (url d) /\
  str_encodable (title d) /\ str_encodable (content d) /\
  Forall meta_encodable (metadata d).

(** The object read back for a document: its five keys in order. *)
Definition is_record_of (d : Document) (v : json) : Prop :=
  exists meta,
    v = JObj [(lit "source", JStr (source d));
              (lit "url", JStr (url d));
              (lit "title", JStr (title d));
              (lit "content", JStr (content d));
              (lit "metadata", JObj meta)].

(** Reading back what the encoder writes for a value, at any nesting level
    and before any text that may follow a value, gives the value. *)
Definition reads_back (v : json) : Prop :=
  forall level fuel rest,
    (json_size v <= fuel)%nat -> ends_value rest ->
    scan_value fuel (encode level v ++ rest) = Some (v, rest).

(** ** Vocabulary of the further properties *)

(** None of the nodes is an element with one of the names. *)
Definition free_of (names : list str) (l : list node) : Prop :=
  Forall (fun d => tag_in names d = false) l.



(** [list(set(links))] lists the members of the set, each once, in some
    order. *)
Definition set_order_law `{Env} : Prop :=
  forall l : list str, set_to_list l ≡ₚ remove_dups l.

(** The links found on a page: the [href] of its anchors, joined to the url
    of the page. *)
Definition page_links `{Env} (current_url : str) (r : Response) : list str :=
  map (urljoin current_url) (anchors (html_parser (body r))).

(** A url the doc-site crawler follows: same domain as the base url, no
    fragment, and none of the words of the deny list. *)
Definition rtd_followed `{Env} (self : ReadTheDocsIngester.t) (v : str)
    : Prop :=
  netloc v = netloc (ReadTheDocsIngester.base_url self) /\
  ~ occurs_in (lit "#") v /\
  Forall (fun x => ~ occurs_in x v) ReadTheDocsIngester.deny_list.

(** A url the website crawler follows: a domain of the allow-list and no
    fragment. *)
Definition web_followed `{Env} (self : WebsiteIngester.t) (v : str) : Prop :=
  netloc v ∈ WebsiteIngester.allowed_domains self /\
  ~ occurs_in (lit "#") v.

(** The events of a crawl whose requests all go to urls with a property. *)
Definition requests_to (P : str -> Prop) (e : event) : Prop :=
  match e with
  | EvGet _ rq => P (req_url rq)
  | EvSleep _ => True
  end.

(** The urls a crawl may request: the start url and the urls it follows. *)
Definition rtd_on_site `{Env} (self : ReadTheDocsIngester.t) (u : str)
    : Prop :=
  u = ReadTheDocsIngester.base_url self \/ rtd_followed self u.

Definition web_on_site `{Env} (self : WebsiteIngester.t) (u : str) : Prop :=
  u = WebsiteIngester.start_url self \/ web_followed self u.

(** A frame of a crawl that started from [self] with the trace [w]: the
    queue, the documents, the urls visited since and the requests sent
    since are all on the site. *)
Definition rtd_on_site_inv `{Env} (self : ReadTheDocsIngester.t) (w : World)
    (fw : ReadTheDocsIngester.frame * World) : Prop :=
  ReadTheDocsIngester.base_url (ReadTheDocsIngester.inst (fst fw))
  = ReadTheDocsIngester.base_url self /\
  Forall (rtd_on_site self) (ReadTheDocsIngester.to_visit (fst fw)) /\
  Forall (fun d => rtd_on_site self (url d))
         (ReadTheDocsIngester.documents (fst fw)) /\
  (forall u,
     u ∈ ReadTheDocsIngester.visited_urls
           (ReadTheDocsIngester.inst (fst fw)) ->
     u ∈ ReadTheDocsIngester.visited_urls self \/ rtd_on_site self u) /\
  exists new, snd fw = new ++ w /\
              Forall (requests_to (rtd_on_site self)) new.

Definition web_on_site_inv `{Env} (self : WebsiteIngester.t) (w : World)
    (fw : WebsiteIngester.frame * World) : Prop :=
  WebsiteIngester.start_url (WebsiteIngester.inst (fst fw))
  = WebsiteIngester.start_url self /\
  WebsiteIngester.allowed_domains (WebsiteIngester.inst (fst fw))
  = WebsiteIngester.allowed_domains self /\
  Forall (web_on_site self) (WebsiteIngester.to_visit (fst fw)) /\
  Forall (fun d => web_on_site self (url d))
         (WebsiteIngester.documents (fst fw)) /\
  (forall u,
     u ∈ WebsiteIngester.visited_urls (WebsiteIngester.inst (fst fw)) ->
     u ∈ WebsiteIngester.visited_urls self \/ web_on_site self u) /\
  exists new, snd fw = new ++ w /\
              Forall (requests_to (web_on_site self)) new.

(** What the repository fetcher sends: the two kinds of API request, with
    the headers of the ingester, and the two kinds of download, with no
    header; it sends no page request and never sleeps. *)
Definition github_event (self : GitHubIngester.t) (e : event) : Prop :=
  match e with
  | EvGet ReadmeMeta rq => rq = readme_request self
  | EvGet DirListing rq => exists path, rq = listing_request self path
  | EvGet ReadmeDownload rq | EvGet FileDownload rq => req_headers rq = []
  | EvGet ScrapePage _ | EvGet FindLinks _ | EvSleep _ => False
  end.

(** The download request of the fetcher for a url. *)
Definition download_request (u : str) : Request :=
  {| req_url := u; req_headers := []; req_timeout := None |}.

(** The document of a readme and the document of a docs file, as the
    fetcher of the repository [self] makes them. *)
Definition readme_document (self : GitHubIngester.t) (d : Document) : Prop :=
  source d = lit "github" /\
  title d = GitHubIngester.repo_name self ++ lit " - README" /\
  dict_get (lit "type") (metadata d) = Some (MStr (lit "readme")) /\
  dict_get (lit "repo") (metadata d)
  = Some (MStr (GitHubIngester.repo_owner self ++ lit "/"
                ++ GitHubIngester.repo_name self)).

Definition docs_file_document (self : GitHubIngester.t) (d : Document)
    : Prop :=
  source d = lit "github" /\
  (exists stem suffix,
     suffix ∈ GitHubIngester.doc_suffixes /\ title d = stem ++ suffix) /\
  dict_get (lit "type") (metadata d) = Some (MStr (lit "docs_file")) /\
  dict_get (lit "repo") (metadata d)
  = Some (MStr (GitHubIngester.repo_owner self ++ lit "/"
                ++ GitHubIngester.repo_name self)) /\
  exists path, dict_get (lit "path") (metadata d) = Some (MStr path).

(** The document the fetcher makes of a docs file whose download gave the
    body [b] at the time [now]. *)
Definition docs_file_of `{Env} (self : GitHubIngester.t) (item : Entry)
    (b : bytes) (now : str) : Document :=
  {| source := lit "github";
     url := entry_html_url item;
     title := entry_name item;
     content := response_text b;
     metadata :=
       [(lit "type", MStr (lit "docs_file"));
        (lit "repo", MStr (GitHubIngester.repo_owner self ++ lit "/"
                           ++ GitHubIngester.repo_name self));
        (lit "path", MStr (entry_path item));
        (lit "scraped_at", MStr now)] |}.

(** The world of the fixture with every download answering 404. *)
Definition downloads_missing : Env :=
  Fixture.env (fun u => if startswith u (lit "https://raw/")
                        then 404%Z else 200%Z).

(** ** [example_usage.py]: the tally of [example_3_multiple_sources]

    [by_source = {}] and, for each document in turn,
    [by_source[doc.source] = by_source.get(doc.source, 0) + 1].  The tally
    is only printed; the order of its keys is not modelled. *)
Definition by_source (all_docs : list Document) : gmap str Z :=
  foldl (fun by_source doc =>
           <[source doc := (default 0 (by_source !! source doc) + 1)%Z]>
             by_source)
        ∅ all_docs.

(** The sum of the counts of a tally. *)
Definition tally_total (m : gmap str Z) : Z :=
  map_fold (fun _ n acc => (n + acc)%Z) 0%Z m.

(** The documents of a list that have a given source. *)
Definition from_source (s : str) (all_docs : list Document) : list Document :=
  filter (fun d => source d = s) all_docs.

(** ** The pipelines

    [main] of [data_ingestion.py] and [example_3_multiple_sources] of
    [example_usage.py] run ingesters one after the other, join what they
    return and save it.  What they print is not modelled; the tally of the
    example, which is only printed, is returned with its documents. *)

(** A step that cannot touch the trace. *)
Definition lift_result {A} (r : result A) : M A := fun w => (r, w).

Section Pipelines.
Context `{Env}.

Definition main (fuel : nat) (fs : filesystem) : M filesystem :=
  let rtd_ingester :=
    ReadTheDocsIngester.__init__ (lit "https://fastapi.tiangolo.com") 30 in
  rtd ← ReadTheDocsIngester.get_all_docs fuel rtd_ingester;
  let rtd_docs := fst rtd in
  let github_ingester :=
    GitHubIngester.__init__ (lit "tiangolo") (lit "fastapi") None in
  github_docs ← GitHubIngester.get_all_docs fuel github_ingester;
  let website_ingester :=
    WebsiteIngester.__init__
      (lit "https://docs.python.org/3/tutorial/index.html")
      (Some [lit "docs.python.org"]) 10 in
  website ← WebsiteIngester.get_all_docs fuel website_ingester;
  let website_docs := fst website in
  let all_documents := rtd_docs ++ github_docs ++ website_docs in
  lift_result (save_documents all_documents (lit "documents.json") fs).

Definition example_3_multiple_sources (fuel : nat) (fs : filesystem)
    : M (list Document * gmap str Z * filesystem) :=
  let fastapi_ingester :=
    ReadTheDocsIngester.__init__ (lit "https://fastapi.tiangolo.com") 10 in
  fastapi ← ReadTheDocsIngester.get_all_docs fuel fastapi_ingester;
  let requests_ingester :=
    ReadTheDocsIngester.__init__ (lit "https://requests.readthedocs.io") 10 in
  requests ← ReadTheDocsIngester.get_all_docs fuel requests_ingester;
  let github_ingester :=
    GitHubIngester.__init__ (lit "tiangolo") (lit "fastapi") None in
  github ← GitHubIngester.get_all_docs fuel github_ingester;
  let all_docs := fst fastapi ++ fst requests ++ github in
  fs' ← lift_result
          (save_documents all_docs (lit "example3_multi_source.json") fs);
  mret (all_docs, by_source all_docs, fs').
End Pipelines.

(** A computation ended with a value. *)
Definition returned {A} (r : result A) : bool :=
  match r with
  | Ok _ => true
  | Raise _ | OutOfFuel => false
  end.



(** A string that neither starts nor ends with white space. *)
Definition trimmed (t : str) : Prop :=
  (forall c, head t = Some c -> isspace c = false) /\
  (forall c, last t = Some c -> isspace c = false).

(** The world of the fixture with the download of [guide.md] failing at
    the transport. *)
Definition guide_unreachable : Env :=
  {| http_get := fun w rq =>
       if bool_decide (req_url rq = lit "https://raw/o/r/docs/guide.md")
       then None
       else @http_get Fixture.all_ok w rq;
     clock := @clock Fixture.all_ok;
     html_parser := @html_parser Fixture.all_ok;
     response_text := @response_text Fixture.all_ok;
     json_readme := @json_readme Fixture.all_ok;
     json_listing := @json_listing Fixture.all_ok;
     urljoin := @urljoin Fixture.all_ok;
     netloc := @netloc Fixture.all_ok;
     set_to_list := @set_to_list Fixture.all_ok |}.

(** What [_get_docs_directory] sees of a directory: the entries of its
    listing, or nothing when the request fails, is answered with 404 or
    with another error status, or does not decode. *)
Definition listing_seen `{Env} (self : GitHubIngester.t) (w : World)
    (path : str) : option (list Entry) :=
  match http_get w (listing_request self path) with
  | None => None
  | Some r =>
      if bool_decide (status_code r = 404%Z) then None
      else if ((400 <=? status_code r) && (status_code r <? 600))%Z then None
      else json_listing (body r)
  end.

(** The docs files of a directory tree, to a given depth, in the order of
    the listings, the files of a subdirectory in the place of its entry. *)
Fixpoint docs_files (listing : str -> option (list Entry)) (depth : nat)
    (path : str) : list Entry :=
  match depth with
  | O => []
  | S depth' =>
      match listing path with
      | None => []
      | Some items =>
          flat_map (fun item =>
                      if GitHubIngester.is_docs_file item then [item]
                      else if bool_decide (entry_type item = lit "dir")
                           then docs_files listing depth' (entry_path item)
                           else [])
                   items
      end
  end.

(** The directory tree under [path] is less than [depth] directories deep:
    the walk of [docs_files] to that depth reaches every listing. *)
Fixpoint within_depth (listing : str -> option (list Entry)) (depth : nat)
    (path : str) : bool :=
  match depth with
  | O => false
  | S depth' =>
      match listing path with
      | None => true
      | Some items =>
          forallb (fun item =>
                     if GitHubIngester.is_docs_file item then true
                     else if bool_decide (entry_type item = lit "dir")
                          then within_depth listing depth' (entry_path item)
                          else true)
                  items
      end
  end.

(** A document made of a docs file whose download is answered with
    [download]: the entry and the answer fix all of it but the time
    stamp. *)
Definition document_of_entry `{Env} (self : GitHubIngester.t)
    (download : str -> Response) (d : Document) (item : Entry) : Prop :=
  exists now,
    d = docs_file_of self item (body (download (entry_download_url item)))
          now.

(** * Properties *)

(** ** Collapsing newlines *)

Lemma re_sub_nl3_cons c r :
  re_sub_nl3 (c :: r) =
  if (3 <=? count_nl (c :: r))%nat
  then NL :: NL :: re_sub_nl3 (drop_nl r)
  else c :: re_sub_nl3 r.
Proof. now simp re_sub_nl3. Qed.

Lemma drop_nl_length s : (length (drop_nl s) <= length s)%nat.
Proof.
  induction s as [|c s IH]; simpl; [lia|].
  destruct (c =? NL); simpl; lia.
Qed.

Lemma count_nl_drop_nl s : count_nl (drop_nl s) = O.
Proof.
  induction s as [|c s IH]; simpl; [done|].
  destruct (c =? NL) eqn:E; [done|]. simpl. by rewrite E.
Qed.

Lemma count_nl_repeat k b :
  count_nl b = O -> count_nl (repeat NL k ++ b) = k.
Proof. intros Hb. induction k as [|k IH]; simpl; [done|]. by rewrite IH. Qed.

Lemma drop_nl_repeat k b :
  count_nl b = O -> drop_nl (repeat NL k ++ b) = b.
Proof.
  intros Hb. induction k as [|k IH]; simpl; [|done].
  destruct b as [|c b]; [done|]. simpl in *. by destruct (c =? NL).
Qed.

(** Induction on the length of a string. *)
Lemma str_length_ind (P : str -> Prop) :
  (forall s, (forall t, (length t < length s)%nat -> P t) -> P s) ->
  forall s, P s.
Proof.
  intros Hstep s. remember (length s) as n eqn:Hn. revert s Hn.
  induction n as [n IH] using lt_wf_ind. intros s ->.
  apply Hstep. intros t Ht. by apply (IH (length t)).
Qed.

(** The output starts with as many newlines as the input, but at most two. *)
Lemma count_nl_re_sub s :
  count_nl (re_sub_nl3 s) = Nat.min (count_nl s) 2.
Proof.
  induction s as [s IH] using str_length_ind.
  destruct s as [|c r]; [done|].
  rewrite re_sub_nl3_cons.
  destruct (3 <=? count_nl (c :: r))%nat eqn:E.
  - apply Nat.leb_le in E.
    change (count_nl (NL :: NL :: re_sub_nl3 (drop_nl r)))
      with (S (S (count_nl (re_sub_nl3 (drop_nl r))))).
    rewrite IH by (pose proof (drop_nl_length r); simpl; lia).
    rewrite count_nl_drop_nl. lia.
  - apply Nat.leb_gt in E. simpl in *.
    destruct (c =? NL); [|done].
    rewrite IH by (simpl; lia). lia.
Qed.

Lemma no_triple_newline_cons c s :
  no_triple_newline s -> (count_nl (c :: s) <= 2)%nat ->
  no_triple_newline (c :: s).
Proof.
  intros Hs Hc a b Heq. destruct a as [|x a]; simpl in Heq.
  - rewrite Heq in Hc. simpl in Hc. lia.
  - injection Heq as _ Heq. by apply (Hs a b).
Qed.

Lemma re_sub_nl3_no_triple s : no_triple_newline (re_sub_nl3 s).
Proof.
  induction s as [s IH] using str_length_ind.
  destruct s as [|c r].
  - simp re_sub_nl3. intros [|x a] b; discriminate.
  - rewrite re_sub_nl3_cons.
    destruct (3 <=? count_nl (c :: r))%nat eqn:E.
    + assert (Hd : (length (drop_nl r) < length (c :: r))%nat)
        by (pose proof (drop_nl_length r); simpl; lia).
      pose proof (count_nl_re_sub (drop_nl r)) as Hc.
      rewrite count_nl_drop_nl in Hc.
      apply no_triple_newline_cons; [apply no_triple_newline_cons|].
      * by apply IH.
      * simpl in *. rewrite Hc. lia.
      * simpl in *. rewrite Hc. lia.
    + apply Nat.leb_gt in E.
      apply no_triple_newline_cons; [apply IH; simpl; lia|].
      pose proof (count_nl_re_sub r) as Hc. simpl in *.
      destruct (c =? NL); lia.
Qed.

Lemma count_nl_app s b :
  drop_nl s <> [] ->
  count_nl (s ++ b) = count_nl s /\ drop_nl (s ++ b) = drop_nl s ++ b.
Proof.
  induction s as [|c s IH]; simpl; [done|].
  destruct (c =? NL); [|done]. intros Hs. destruct (IH Hs) as [-> ->]. done.
Qed.

Lemma no_final_newline_drop s :
  no_final_newline s -> s <> [] ->
  drop_nl s <> [] /\ no_final_newline (drop_nl s).
Proof.
  unfold no_final_newline.
  induction s as [|c s IH]; [done|]. intros Hl _. simpl.
  destruct (c =? NL) eqn:E; [|done].
  apply N.eqb_eq in E. subst c.
  destruct s as [|d s]; [done|].
  apply IH; [|done]. by rewrite last_cons_cons in Hl.
Qed.

(** Collapsing works on each side of a place where no run of newlines
    crosses. *)
Lemma re_sub_nl3_app a b :
  no_final_newline a -> re_sub_nl3 (a ++ b) = re_sub_nl3 a ++ re_sub_nl3 b.
Proof.
  induction a as [a IH] using str_length_ind. intros Ha.
  destruct a as [|c r]; [by simp re_sub_nl3|].
  destruct (no_final_newline_drop (c :: r) Ha) as [Hne Hfin]; [done|].
  destruct (count_nl_app (c :: r) b Hne) as [Hcount Hdrop].
  change ((c :: r) ++ b) with (c :: (r ++ b)) in *.
  rewrite !re_sub_nl3_cons, Hcount.
  destruct (3 <=? count_nl (c :: r))%nat eqn:E.
  - apply Nat.leb_le in E. simpl in *.
    destruct (c =? NL); [|lia].
    rewrite Hdrop. simpl. do 2 f_equal.
    apply IH; [|done]. pose proof (drop_nl_length r). simpl. lia.
  - simpl. f_equal.
    destruct r as [|d r]; [by simp re_sub_nl3|].
    apply IH; [simpl; lia|].
    unfold no_final_newline in *. by rewrite last_cons_cons in Ha.
Qed.

(** A run of three or more newlines, taken whole, becomes two newlines. *)
Lemma re_sub_nl3_run a k b :
  no_final_newline a -> count_nl b = O -> (3 <= k)%nat ->
  re_sub_nl3 (a ++ repeat NL k ++ b) = re_sub_nl3 a ++ NL :: NL :: re_sub_nl3 b.
Proof.
  intros Ha Hb Hk. rewrite re_sub_nl3_app by done. f_equal.
  destruct k as [|k]; [lia|].
  change (repeat NL (S k) ++ b) with (NL :: (repeat NL k ++ b)).
  rewrite re_sub_nl3_cons.
  change (count_nl (NL :: repeat NL k ++ b))
    with (S (count_nl (repeat NL k ++ b))).
  rewrite count_nl_repeat, drop_nl_repeat by done.
  destruct (3 <=? S k)%nat eqn:E; [done|]. apply Nat.leb_gt in E. lia.
Qed.

(** ** The effects *)

Ltac unfold_monad :=
  unfold mbind, M_bind, mret, M_ret, raise, try_catch in *.

Section EffectFacts.
Context `{Env}.

Lemma requests_get_trace site u hs t w :
snd (requests_get site u hs t w)
= EvGet site {| req_url := u; req_headers := hs; req_timeout := t |} :: w.
Proof. unfold requests_get. by destruct (http_get _ _). Qed.

Lemma requests_get_cases site u hs t w :
let rq := {| req_url := u; req_headers := hs; req_timeout := t |} in
(exists r, http_get w rq = Some r /\
requests_get site u hs t w = (Ok r, EvGet site rq :: w)) \/
(http_get w rq = None /\
requests_get site u hs t w = (Raise RequestException, EvGet site rq :: w)).
Proof.
intros rq. unfold requests_get. fold rq.
destruct (http_get w rq) as [r|]; [left; eauto | right; eauto].
Qed.

(** What [_scrape_page] of the doc-site crawler can do. *)
Lemma rtd_scrape_page_cases u w :
(exists d, ReadTheDocsIngester._scrape_page u w
= (Ok d, EvGet ScrapePage (page_request u) :: w) /\
url d = u /\ no_triple_newline (content d) /\
page_metadata d) \/
(exists e, ReadTheDocsIngester._scrape_page u w
= (Raise e, EvGet ScrapePage (page_request u) :: w)).
Proof.
unfold ReadTheDocsIngester._scrape_page. unfold_monad.
destruct (requests_get_cases ScrapePage u [] (Some 10%Z) w)
as [(r & _ & ->) | (_ & ->)]; [|right; eauto].
fold (page_request u). unfold raise_for_status.
destruct (_ && _); unfold_monad; [right; eauto|].
destruct (ReadTheDocsIngester.main_content _); [|right; eauto].
unfold strftime. left. eexists. split; [reflexivity|]. simpl.
split; [reflexivity|]. split; [apply re_sub_nl3_no_triple|].
split; [reflexivity|eauto].
Qed.

Lemma web_scrape_page_cases u w :
(exists d, WebsiteIngester._scrape_page u w
= (Ok d, EvGet ScrapePage (page_request u) :: w) /\
url d = u /\ no_triple_newline (content d) /\
page_metadata d) \/
(exists e, WebsiteIngester._scrape_page u w
= (Raise e, EvGet ScrapePage (page_request u) :: w)).
Proof.
unfold WebsiteIngester._scrape_page. unfold_monad.
destruct (requests_get_cases ScrapePage u [] (Some 10%Z) w)
as [(r & _ & ->) | (_ & ->)]; [|right; eauto].
fold (page_request u). unfold raise_for_status.
destruct (_ && _); unfold_monad; [right; eauto|].
unfold strftime. left. eexists. split; [reflexivity|]. simpl.
split; [reflexivity|]. split; [apply re_sub_nl3_no_triple|].
split; [reflexivity|eauto].
Qed.

(** Link discovery never raises and sends one request. *)
Lemma rtd_find_doc_links_total self u w :
exists l, ReadTheDocsIngester._find_doc_links self u w
= (Ok l, EvGet FindLinks (page_request u) :: w).
Proof.
unfold ReadTheDocsIngester._find_doc_links. unfold_monad.
destruct (requests_get_cases FindLinks u [] (Some 10%Z) w)
as [(r & _ & ->) | (_ & ->)]; eauto.
Qed.

Lemma web_find_links_total self u w :
exists l, WebsiteIngester._find_links self u w
= (Ok l, EvGet FindLinks (page_request u) :: w).
Proof.
unfold WebsiteIngester._find_links. unfold_monad.
destruct (requests_get_cases FindLinks u [] (Some 10%Z) w)
as [(r & _ & ->) | (_ & ->)]; eauto.
Qed.
End EffectFacts.

(** ** Each crawler's loop refines the frontier *)

Section Refinement.
Context `{Env}.

Lemma rtd_loop_cond_true f :
ReadTheDocsIngester.loop_cond f = true <->
ReadTheDocsIngester.to_visit f <> [] /\
(Z.of_nat (length (ReadTheDocsIngester.documents f))
< ReadTheDocsIngester.max_pages (ReadTheDocsIngester.inst f))%Z.
Proof.
unfold ReadTheDocsIngester.loop_cond.
destruct (ReadTheDocsIngester.to_visit f).
- split; [discriminate | intros [? _]; done].
- rewrite Z.ltb_lt. split; [intros ?; split; [discriminate|done] | tauto].
Qed.

Lemma web_loop_cond_true f :
WebsiteIngester.loop_cond f = true <->
WebsiteIngester.to_visit f <> [] /\
(Z.of_nat (length (WebsiteIngester.documents f))
< WebsiteIngester.max_pages (WebsiteIngester.inst f))%Z.
Proof.
unfold WebsiteIngester.loop_cond.
destruct (WebsiteIngester.to_visit f).
- split; [discriminate | intros [? _]; done].
- rewrite Z.ltb_lt. split; [intros ?; split; [discriminate|done] | tauto].
Qed.

(** One iteration of the doc-site loop never raises, keeps the
configuration and is a step of the frontier that admits every url. *)
Lemma rtd_loop_body_step f w :
ReadTheDocsIngester.loop_cond f = true ->
exists f' w',
ReadTheDocsIngester.loop_body f w = (Ok f', w') /\
ReadTheDocsIngester.max_pages (ReadTheDocsIngester.inst f')
= ReadTheDocsIngester.max_pages (ReadTheDocsIngester.inst f) /\
ReadTheDocsIngester.base_url (ReadTheDocsIngester.inst f')
= ReadTheDocsIngester.base_url (ReadTheDocsIngester.inst f) /\
Frontier.step
(ReadTheDocsIngester.max_pages (ReadTheDocsIngester.inst f))
(fun _ => true) (rtd_view f w) (rtd_view f' w').
Proof.
intros Hc. apply rtd_loop_cond_true in Hc as [Hq Hlt].
unfold ReadTheDocsIngester.loop_body.
destruct (ReadTheDocsIngester.to_visit f) as [|u rest] eqn:Eq; [done|].
destruct (decide (u ∈ _)) as [Hin|Hin].
- do 2 eexists. split; [reflexivity|]. do 2 (split; [done|]).
by eapply (Frontier.step_seen _ _ (rtd_view f w) u rest).
- unfold_monad.
destruct (rtd_scrape_page_cases u w)
as [(d & -> & Hu & Hnl & Hmeta) | (e & ->)].
+ destruct (rtd_find_doc_links_total
(ReadTheDocsIngester.mark_visited
(ReadTheDocsIngester.inst f) u) u
(EvGet ScrapePage (page_request u) :: w)) as [l ->].
unfold sleep. do 2 eexists. split; [reflexivity|].
do 2 (split; [done|]).
by eapply (Frontier.step_scraped _ _ (rtd_view f w) u rest d l).
+ do 2 eexists. split; [reflexivity|]. do 2 (split; [done|]).
by eapply (Frontier.step_failed _ _ (rtd_view f w) u rest).
Qed.

(** The same for the website loop; the frontier admits the urls whose
domain is on the allow-list. *)
Lemma web_loop_body_step f w :
WebsiteIngester.loop_cond f = true ->
exists f' w',
WebsiteIngester.loop_body f w = (Ok f', w') /\
WebsiteIngester.max_pages (WebsiteIngester.inst f')
= WebsiteIngester.max_pages (WebsiteIngester.inst f) /\
WebsiteIngester.allowed_domains (WebsiteIngester.inst f')
= WebsiteIngester.allowed_domains (WebsiteIngester.inst f) /\
Frontier.step
(WebsiteIngester.max_pages (WebsiteIngester.inst f))
(WebsiteIngester.domain_allowed (WebsiteIngester.inst f))
(web_view f w) (web_view f' w').
Proof.
intros Hc. apply web_loop_cond_true in Hc as [Hq Hlt].
unfold WebsiteIngester.loop_body.
destruct (WebsiteIngester.to_visit f) as [|u rest] eqn:Eq; [done|].
destruct (decide (u ∈ _)) as [Hin|Hin].
- do 2 eexists. split; [reflexivity|]. do 2 (split; [done|]).
by eapply (Frontier.step_seen _ _ (web_view f w) u rest).
- destruct (WebsiteIngester.domain_allowed _ u) eqn:Hdom; simpl.
2:{ do 2 eexists. split; [reflexivity|]. do 2 (split; [done|]).
by eapply (Frontier.step_outside _ _ (web_view f w) u rest). }
unfold_monad.
destruct (web_scrape_page_cases u w)
as [(d & -> & Hu & Hnl & Hmeta) | (e & ->)].
+ destruct (web_find_links_total
(WebsiteIngester.mark_visited
(WebsiteIngester.inst f) u) u
(EvGet ScrapePage (page_request u) :: w)) as [l ->].
unfold sleep. do 2 eexists. split; [reflexivity|].
do 2 (split; [done|]).
by eapply (Frontier.step_scraped _ _ (web_view f w) u rest d l).
+ do 2 eexists. split; [reflexivity|]. do 2 (split; [done|]).
by eapply (Frontier.step_failed _ _ (web_view f w) u rest).
Qed.
End Refinement.

(** ** Loops *)

(** A frontier step either shortens the queue or adds a document while the
    budget is not used up. *)
Lemma step_measure mp allowed s1 s2 :
  Frontier.step mp allowed s1 s2 ->
  (Frontier.docs s2 = Frontier.docs s1 /\
   (length (Frontier.queue s2) < length (Frontier.queue s1))%nat) \/
  (length (Frontier.docs s2) = Datatypes.S (length (Frontier.docs s1)) /\
   (Z.of_nat (length (Frontier.docs s1)) < mp)%Z).
Proof.
  destruct 1 as [s u rest Hq Hlt _|s u rest Hq Hlt _ _|s u rest Hq Hlt _ _
                |s u rest d l Hq Hlt _ _ _ _ _]; simpl.
  1-3: left; split; [done|rewrite Hq; simpl; lia].
  right. rewrite length_app. simpl. split; [lia|done].
Qed.

Section Loop.
Context {S : Type} (cond : S -> bool) (body : S -> M S).

Lemma while_reaches fuel s w s' w' :
while_ cond body fuel s w = (Ok s', w') ->
loop_reaches cond body (s, w) (s', w') /\ cond s' = false.
Proof.
revert s w. induction fuel as [|fuel IH]; intros s w; simpl;
destruct (cond s) eqn:Hc.
- discriminate.
- unfold mret, M_ret. intros [= <- <-]. split; [constructor|done].
- unfold mbind, M_bind. destruct (body s w) as [[s1| |] w1] eqn:Hb;
[|discriminate..].
intros Hw. destruct (IH _ _ Hw) as [Hr Hf]. split; [|done].
by eapply loop_reaches_step.
- unfold mret, M_ret. intros [= <- <-]. split; [constructor|done].
Qed.

Lemma loop_reaches_trans a b c :
loop_reaches cond body a b -> loop_reaches cond body b c ->
loop_reaches cond body a c.
Proof.
induction 1; [done|]. intros Hc. eapply loop_reaches_step; eauto.
Qed.

(** A loop whose iterations never raise ends with a value whenever the
fuel suffices. *)
Lemma while_no_raise (I : S -> Prop) :
(forall s w, I s -> cond s = true ->
exists s' w', body s w = (Ok s', w') /\ I s') ->
forall fuel s w e w', I s -> while_ cond body fuel s w <> (Raise e, w').
Proof.
intros Hbody fuel. induction fuel as [|fuel IH]; intros s w e w' HI;
simpl; destruct (cond s) eqn:Hc; try discriminate.
unfold mbind, M_bind.
destruct (Hbody s w HI Hc) as (s1 & w1 & -> & HI1). by apply IH.
Qed.

(** A loop whose iterations are frontier steps. *)
Context (view : S -> World -> Frontier.state) (mp : Z)
(allowed : str -> bool) (J : S -> Prop).
Hypothesis body_step : forall s w,
J s -> cond s = true ->
exists s' w', body s w = (Ok s', w') /\ J s' /\
Frontier.step mp allowed (view s w) (view s' w').

Lemma loop_reaches_steps_pair a b :
loop_reaches cond body a b -> J (fst a) ->
J (fst b) /\
Frontier.steps mp allowed (view (fst a) (snd a)) (view (fst b) (snd b)).
Proof.
induction 1 as [|s1 w1 s2 w2 c Hc Hb Hr IH]; simpl; intros HJ.
- split; [done|constructor].
- destruct (body_step s1 w1 HJ Hc) as (s3 & w3 & Hb' & HJ' & Hstep).
rewrite Hb in Hb'. injection Hb' as <- <-.
destruct (IH HJ') as [HJ'' Hsteps].
split; [done|]. by eapply Frontier.steps_step.
Qed.

Lemma loop_reaches_steps s w s' w' :
J s -> loop_reaches cond body (s, w) (s', w') ->
J s' /\ Frontier.steps mp allowed (view s w) (view s' w').
Proof. intros HJ Hr. by apply (loop_reaches_steps_pair _ _ Hr). Qed.

(** The loop ends: an iteration either adds a document, which the page
budget allows finitely often, or shortens the queue. *)
Lemma while_terminates s w :
J s -> exists fuel s' w', while_ cond body fuel s w = (Ok s', w').
Proof.
remember (Z.to_nat (mp - Z.of_nat (length (Frontier.docs (view s w)))))
as n eqn:En.
revert s w En. induction n as [n IHn] using lt_wf_ind. intros s w En.
remember (length (Frontier.queue (view s w))) as q eqn:Eq.
revert s w En Eq. induction q as [q IHq] using lt_wf_ind.
intros s w En Eq HJ.
destruct (cond s) eqn:Hc.
2:{ exists O, s, w. simpl. by rewrite Hc. }
destruct (body_step s w HJ Hc) as (s1 & w1 & Hb & HJ1 & Hstep).
assert (Hnext : exists fuel s' w',
while_ cond body fuel s1 w1 = (Ok s', w')).
{ destruct (step_measure _ _ _ _ Hstep) as [[Hd Hl] | [Hd Hl]].
- eapply (IHq (length (Frontier.queue (view s1 w1)))); [lia| |done..].
by rewrite En, Hd.
- eapply (IHn (Z.to_nat (mp - Z.of_nat
(length (Frontier.docs (view s1 w1))))));
[lia|done..]. }
destruct Hnext as (fuel & s' & w' & Hw).
exists (Datatypes.S fuel), s', w'. simpl. rewrite Hc.
unfold mbind, M_bind. by rewrite Hb.
Qed.
End Loop.

(** ** Invariants of the frontier *)

Section FrontierInvariants.
Context (mp : Z) (allowed : str -> bool).

Lemma step_budget s s' :
Frontier.step mp allowed s s' ->
(Z.of_nat (length (Frontier.docs s')) <= mp)%Z.
Proof.
destruct 1; simpl; try lia. rewrite length_app. simpl. lia.
Qed.

Lemma steps_budget s s' :
Frontier.steps mp allowed s s' ->
(Z.of_nat (length (Frontier.docs s)) <= Z.max 0 mp)%Z ->
(Z.of_nat (length (Frontier.docs s')) <= Z.max 0 mp)%Z.
Proof.
induction 1 as [|s1 s2 s3 Hstep _ IH]; [done|]. intros _. apply IH.
apply step_budget in Hstep. lia.
Qed.

Lemma step_visited_mono s s' :
Frontier.step mp allowed s s' ->
Frontier.visited s ⊆ Frontier.visited s'.
Proof.
destruct 1; simpl; try done; intros x Hx; by apply elem_of_union_r.
Qed.

Lemma step_docs_inv s s' :
Frontier.step mp allowed s s' -> docs_inv allowed s -> docs_inv allowed s'.
Proof.
intros Hstep [Hnd Hall].
destruct Hstep as [s u rest Hq Hlt Hin|s u rest Hq Hlt Hin Hal
|s u rest Hq Hlt Hin Hal
|s u rest d l Hq Hlt Hin Hal Hu Hnl Hm];
unfold docs_inv; simpl.
- split; assumption.
- split; assumption.
- split; [done|]. eapply Forall_impl; [exact Hall|].
intros d [Hv Hd]. split; [by apply elem_of_union_r|done].
- split.
+ rewrite map_app. simpl. apply NoDup_app. split; [done|].
split; [|apply NoDup_singleton].
intros x Hx Hx'. apply list_elem_of_singleton in Hx'. subst x.
apply list_elem_of_fmap in Hx as (d' & Hd' & Hin').
rewrite Forall_forall in Hall. destruct (Hall d' Hin') as [Hv _].
rewrite <- Hd', Hu in Hv. done.
+ apply Forall_app. split.
* eapply Forall_impl; [exact Hall|].
intros d' [Hv Hd]. split; [by apply elem_of_union_r|done].
* apply Forall_singleton. rewrite Hu.
split; [by apply elem_of_union_l, elem_of_singleton|].
split; [done|]. split; done.
Qed.

Lemma steps_docs_inv s s' :
Frontier.steps mp allowed s s' -> docs_inv allowed s -> docs_inv allowed s'.
Proof. induction 1; eauto using step_docs_inv. Qed.

Lemma gets_from_le_gets_to site u w :
(gets_from site u w <= gets_to u w)%nat.
Proof.
unfold gets_from, gets_to. induction w as [|e w IH]; simpl; [lia|].
destruct e as [site' rq|ms]; simpl; [|lia].
destruct (site_eqb site' site); simpl; [|destruct (bool_decide _); lia].
destruct (bool_decide _); lia.
Qed.

Lemma gets_to_other u v site w :
u <> v -> gets_to v (EvGet site (page_request u) :: w) = gets_to v w.
Proof.
intros Hne. unfold gets_to. simpl.
by rewrite bool_decide_eq_false_2.
Qed.

Lemma gets_from_other u v site site' w :
u <> v ->
gets_from site' v (EvGet site (page_request u) :: w) = gets_from site' v w.
Proof.
intros Hne. unfold gets_from. simpl.
rewrite (bool_decide_eq_false_2 (u = v)) by done.
by rewrite andb_false_r.
Qed.

Lemma step_trace_inv seen0 w0 s s' :
Frontier.step mp allowed s s' ->
trace_inv allowed seen0 w0 s -> trace_inv allowed seen0 w0 s'.
Proof.
intros Hstep (Hsub & new & Htr & Hev & Hcount).
split; [by etrans; [|eapply step_visited_mono]|].
destruct Hstep as [s u rest Hq Hlt Hin|s u rest Hq Hlt Hin Hal
|s u rest Hq Hlt Hin Hal
|s u rest d l Hq Hlt Hin Hal Hu Hnl Hm]; simpl.
- exists new. done.
- exists new. done.
- exists (EvGet ScrapePage (page_request u) :: new).
split; [by rewrite Htr|].
split; [constructor; [simpl; auto|done]|].
intros v. destruct (Hcount v) as (Hs & Hf & Hz).
destruct (decide (u = v)) as [<-|Hne].
+ specialize (Hz (or_introl Hin)).
pose proof (gets_from_le_gets_to ScrapePage u new).
pose proof (gets_from_le_gets_to FindLinks u new).
unfold gets_from in *. simpl. rewrite bool_decide_eq_true_2 by done.
simpl. split; [lia|]. split; [lia|]. intros [Hv|Hv].
* destruct Hv. by apply elem_of_union_l, elem_of_singleton.
* destruct Hin. by apply Hsub.
+ rewrite gets_to_other, !gets_from_other by done.
split; [done|]. split; [done|]. intros [Hv|Hv]; apply Hz; [left|by right].
intros Hv'. by apply Hv, elem_of_union_r.
- exists (EvSleep 500 :: EvGet FindLinks (page_request u)
:: EvGet ScrapePage (page_request u) :: new).
split; [by rewrite Htr|].
split; [repeat (constructor; [simpl; auto|]); done|].
intros v. destruct (Hcount v) as (Hs & Hf & Hz).
destruct (decide (u = v)) as [<-|Hne].
+ specialize (Hz (or_introl Hin)).
pose proof (gets_from_le_gets_to ScrapePage u new).
pose proof (gets_from_le_gets_to FindLinks u new).
unfold gets_from in *. simpl. rewrite bool_decide_eq_true_2 by done.
simpl. split; [lia|]. split; [lia|]. intros [Hv|Hv].
* destruct Hv. by apply elem_of_union_l, elem_of_singleton.
* destruct Hin. by apply Hsub.
+ unfold gets_from, gets_to in *. simpl.
rewrite (bool_decide_eq_false_2 (u = v)) by done. simpl.
split; [done|]. split; [done|]. intros [Hv|Hv]; apply Hz; [left|by right].
intros Hv'. by apply Hv, elem_of_union_r.
Qed.

Lemma steps_trace_inv seen0 w0 s s' :
Frontier.steps mp allowed s s' ->
trace_inv allowed seen0 w0 s -> trace_inv allowed seen0 w0 s'.
Proof. induction 1; eauto using step_trace_inv. Qed.

Lemma trace_inv_init s :
trace_inv allowed (Frontier.visited s) (Frontier.trace s) s.
Proof.
split; [done|].
exists []. split; [done|]. split; [constructor|]. intros u.
unfold gets_from, gets_to. simpl. split; [lia|]. split; [lia|done].
Qed.
End FrontierInvariants.

(** ** The two crawls *)

Section Crawls.
Context `{Env}.

Lemma rtd_body_step self f w :
rtd_config_kept self f -> ReadTheDocsIngester.loop_cond f = true ->
exists f' w',
ReadTheDocsIngester.loop_body f w = (Ok f', w') /\
rtd_config_kept self f' /\
Frontier.step (ReadTheDocsIngester.max_pages self) (fun _ => true)
(rtd_view f w) (rtd_view f' w').
Proof.
intros [Hmp Hbu] Hc.
destruct (rtd_loop_body_step f w Hc) as (f' & w' & Hb & Hmp' & Hbu' & Hs).
exists f', w'. split; [done|]. split.
- split; congruence.
- by rewrite <- Hmp.
Qed.

Lemma web_body_step self f w :
web_config_kept self f -> WebsiteIngester.loop_cond f = true ->
exists f' w',
WebsiteIngester.loop_body f w = (Ok f', w') /\
web_config_kept self f' /\
Frontier.step (WebsiteIngester.max_pages self)
(WebsiteIngester.domain_allowed self)
(web_view f w) (web_view f' w').
Proof.
intros [Hmp Had] Hc.
destruct (web_loop_body_step f w Hc) as (f' & w' & Hb & Hmp' & Had' & Hs).
exists f', w'. split; [done|]. split.
- split; congruence.
- rewrite <- Hmp.
replace (WebsiteIngester.domain_allowed self)
with (WebsiteIngester.domain_allowed (WebsiteIngester.inst f)); [done|].
unfold WebsiteIngester.domain_allowed. by rewrite Had.
Qed.

Lemma rtd_config_kept_init self :
rtd_config_kept self (ReadTheDocsIngester.initial_frame self).
Proof. done. Qed.

Lemma web_config_kept_init self :
web_config_kept self (WebsiteIngester.initial_frame self).
Proof. done. Qed.

(** Every frame the doc-site loop reaches is a frontier state reached
from the initial one. *)
Lemma rtd_reaches_steps self w f w' :
loop_reaches ReadTheDocsIngester.loop_cond ReadTheDocsIngester.loop_body
(ReadTheDocsIngester.initial_frame self, w) (f, w') ->
Frontier.steps (ReadTheDocsIngester.max_pages self) (fun _ => true)
(rtd_view (ReadTheDocsIngester.initial_frame self) w)
(rtd_view f w').
Proof.
intros Hr.
eapply (loop_reaches_steps _ _ rtd_view _ _ (rtd_config_kept self));
[apply rtd_body_step|apply rtd_config_kept_init|exact Hr].
Qed.

Lemma web_reaches_steps self w f w' :
loop_reaches WebsiteIngester.loop_cond WebsiteIngester.loop_body
(WebsiteIngester.initial_frame self, w) (f, w') ->
Frontier.steps (WebsiteIngester.max_pages self)
(WebsiteIngester.domain_allowed self)
(web_view (WebsiteIngester.initial_frame self) w)
(web_view f w').
Proof.
intros Hr.
eapply (loop_reaches_steps _ _ web_view _ _ (web_config_kept self));
[apply web_body_step|apply web_config_kept_init|exact Hr].
Qed.

(** A crawl that returns has run its loop to a frame where the loop
condition fails. *)
Lemma rtd_get_all_docs_inv fuel self w ds self' w' :
ReadTheDocsIngester.get_all_docs fuel self w = (Ok (ds, self'), w') ->
exists f,
loop_reaches ReadTheDocsIngester.loop_cond ReadTheDocsIngester.loop_body
(ReadTheDocsIngester.initial_frame self, w) (f, w') /\
ReadTheDocsIngester.loop_cond f = false /\
ReadTheDocsIngester.documents f = ds /\
ReadTheDocsIngester.inst f = self'.
Proof.
unfold ReadTheDocsIngester.get_all_docs. unfold_monad.
destruct (while_ _ _ fuel _ w) as [[f| |] w1] eqn:Hw; [|discriminate..].
intros [= <- <- <-]. exists f.
destruct (while_reaches _ _ _ _ _ _ _ Hw) as [Hr Hc]. done.
Qed.

Lemma web_get_all_docs_inv fuel self w ds self' w' :
WebsiteIngester.get_all_docs fuel self w = (Ok (ds, self'), w') ->
exists f,
loop_reaches WebsiteIngester.loop_cond WebsiteIngester.loop_body
(WebsiteIngester.initial_frame self, w) (f, w') /\
WebsiteIngester.loop_cond f = false /\
WebsiteIngester.documents f = ds /\
WebsiteIngester.inst f = self'.
Proof.
unfold WebsiteIngester.get_all_docs. unfold_monad.
destruct (while_ _ _ fuel _ w) as [[f| |] w1] eqn:Hw; [|discriminate..].
intros [= <- <- <-]. exists f.
destruct (while_reaches _ _ _ _ _ _ _ Hw) as [Hr Hc]. done.
Qed.

(** Every crawl ends, and with a value. *)
Lemma rtd_get_all_docs_returns self w :
exists fuel ds self' w',
ReadTheDocsIngester.get_all_docs fuel self w = (Ok (ds, self'), w').
Proof.
destruct (while_terminates _ _ rtd_view _ _ (rtd_config_kept self)
(rtd_body_step self) (ReadTheDocsIngester.initial_frame self) w
(rtd_config_kept_init self)) as (fuel & f & w' & Hw).
exists fuel, (ReadTheDocsIngester.documents f),
(ReadTheDocsIngester.inst f), w'.
unfold ReadTheDocsIngester.get_all_docs. unfold_monad. by rewrite Hw.
Qed.

Lemma web_get_all_docs_returns self w :
exists fuel ds self' w',
WebsiteIngester.get_all_docs fuel self w = (Ok (ds, self'), w').
Proof.
destruct (while_terminates _ _ web_view _ _ (web_config_kept self)
(web_body_step self) (WebsiteIngester.initial_frame self) w
(web_config_kept_init self)) as (fuel & f & w' & Hw).
exists fuel, (WebsiteIngester.documents f), (WebsiteIngester.inst f), w'.
unfold WebsiteIngester.get_all_docs. unfold_monad. by rewrite Hw.
Qed.

Lemma rtd_get_all_docs_no_raise fuel self w e w' :
ReadTheDocsIngester.get_all_docs fuel self w <> (Raise e, w').
Proof.
unfold ReadTheDocsIngester.get_all_docs. unfold_monad.
destruct (while_ _ _ fuel _ w) as [[f| |] w1] eqn:Hw; try discriminate.
exfalso. revert Hw. apply (while_no_raise _ _ (rtd_config_kept self));
[|apply rtd_config_kept_init].
intros s w2 HJ Hc. destruct (rtd_body_step self s w2 HJ Hc)
as (s' & w3 & ? & ? & _). eauto.
Qed.

Lemma web_get_all_docs_no_raise fuel self w e w' :
WebsiteIngester.get_all_docs fuel self w <> (Raise e, w').
Proof.
unfold WebsiteIngester.get_all_docs. unfold_monad.
destruct (while_ _ _ fuel _ w) as [[f| |] w1] eqn:Hw; try discriminate.
exfalso. revert Hw. apply (while_no_raise _ _ (web_config_kept self));
[|apply web_config_kept_init].
intros s w2 HJ Hc. destruct (web_body_step self s w2 HJ Hc)
as (s' & w3 & ? & ? & _). eauto.
Qed.
End Crawls.

(** ** C1: the page budget *)

Section PageBudget.
Context `{Env}.

Lemma rtd_budget_reached_stops fuel f w :
(ReadTheDocsIngester.max_pages (ReadTheDocsIngester.inst f)
<= Z.of_nat (length (ReadTheDocsIngester.documents f)))%Z ->
while_ ReadTheDocsIngester.loop_cond ReadTheDocsIngester.loop_body fuel f w
= (Ok f, w).
Proof.
intros Hle.
assert (Hc : ReadTheDocsIngester.loop_cond f = false).
{ unfold ReadTheDocsIngester.loop_cond.
destruct (ReadTheDocsIngester.to_visit f); [done|].
apply Z.ltb_ge. lia. }
destruct fuel; simpl; by rewrite Hc.
Qed.

Lemma web_budget_reached_stops fuel f w :
(WebsiteIngester.max_pages (WebsiteIngester.inst f)
<= Z.of_nat (length (WebsiteIngester.documents f)))%Z ->
while_ WebsiteIngester.loop_cond WebsiteIngester.loop_body fuel f w
= (Ok f, w).
Proof.
intros Hle.
assert (Hc : WebsiteIngester.loop_cond f = false).
{ unfold WebsiteIngester.loop_cond.
destruct (WebsiteIngester.to_visit f); [done|].
apply Z.ltb_ge. lia. }
destruct fuel; simpl; by rewrite Hc.
Qed.

Lemma rtd_reaches_budget self w f w' :
loop_reaches ReadTheDocsIngester.loop_cond ReadTheDocsIngester.loop_body
(ReadTheDocsIngester.initial_frame self, w) (f, w') ->
(Z.of_nat (length (ReadTheDocsIngester.documents f))
<= Z.max 0 (ReadTheDocsIngester.max_pages self))%Z.
Proof.
intros Hr. apply rtd_reaches_steps in Hr.
apply steps_budget in Hr; [exact Hr|]. simpl. lia.
Qed.

Lemma web_reaches_budget self w f w' :
loop_reaches WebsiteIngester.loop_cond WebsiteIngester.loop_body
(WebsiteIngester.initial_frame self, w) (f, w') ->
(Z.of_nat (length (WebsiteIngester.documents f))
<= Z.max 0 (WebsiteIngester.max_pages self))%Z.
Proof.
intros Hr. apply web_reaches_steps in Hr.
apply steps_budget in Hr; [exact Hr|]. simpl. lia.
Qed.
End PageBudget.

(** C1, as amended.  In a crawl of either variant the number of documents
    is at most the configured [max_pages] when that is not negative, and
    zero otherwise: at the head of every iteration of the loop and in what
    the crawl returns.  Every crawl returns, and never with an exception.
    Once the number of documents has reached the budget the loop stops at
    once, whatever the queue still holds: it sends no further request and
    the crawl returns the documents alone. *)
Theorem crawl_respects_page_budget `{Env} :
  (forall (self : ReadTheDocsIngester.t) (w : World),
     let budget := Z.max 0 (ReadTheDocsIngester.max_pages self) in
     (forall f w',
        loop_reaches ReadTheDocsIngester.loop_cond
                     ReadTheDocsIngester.loop_body
                     (ReadTheDocsIngester.initial_frame self, w) (f, w') ->
        (Z.of_nat (length (ReadTheDocsIngester.documents f)) <= budget)%Z) /\
     (forall fuel r w',
        ReadTheDocsIngester.get_all_docs fuel self w = (r, w') ->
        r = OutOfFuel \/
        exists ds self', r = Ok (ds, self') /\
                         (Z.of_nat (length ds) <= budget)%Z) /\
     (exists fuel ds self' w',
        ReadTheDocsIngester.get_all_docs fuel self w = (Ok (ds, self'), w')) /\
     (forall fuel f w',
        (ReadTheDocsIngester.max_pages (ReadTheDocsIngester.inst f)
         <= Z.of_nat (length (ReadTheDocsIngester.documents f)))%Z ->
        while_ ReadTheDocsIngester.loop_cond ReadTheDocsIngester.loop_body
               fuel f w' = (Ok f, w'))) /\
  (forall (self : WebsiteIngester.t) (w : World),
     let budget := Z.max 0 (WebsiteIngester.max_pages self) in
     (forall f w',
        loop_reaches WebsiteIngester.loop_cond WebsiteIngester.loop_body
                     (WebsiteIngester.initial_frame self, w) (f, w') ->
        (Z.of_nat (length (WebsiteIngester.documents f)) <= budget)%Z) /\
     (forall fuel r w',
        WebsiteIngester.get_all_docs fuel self w = (r, w') ->
        r = OutOfFuel \/
        exists ds self', r = Ok (ds, self') /\
                         (Z.of_nat (length ds) <= budget)%Z) /\
     (exists fuel ds self' w',
        WebsiteIngester.get_all_docs fuel self w = (Ok (ds, self'), w')) /\
     (forall fuel f w',
        (WebsiteIngester.max_pages (WebsiteIngester.inst f)
         <= Z.of_nat (length (WebsiteIngester.documents f)))%Z ->
        while_ WebsiteIngester.loop_cond WebsiteIngester.loop_body
               fuel f w' = (Ok f, w'))).
Proof.
  split; intros self w budget.
  - split; [intros f w'; apply rtd_reaches_budget|].
    split; [|split; [apply rtd_get_all_docs_returns
                    |intros; by apply rtd_budget_reached_stops]].
    intros fuel [[ds self']|e|] w' Hrun; [right|exfalso|by left].
    + exists ds, self'. split; [done|].
      apply rtd_get_all_docs_inv in Hrun as (f & Hr & _ & <- & _).
      by eapply rtd_reaches_budget.
    + by eapply rtd_get_all_docs_no_raise.
  - split; [intros f w'; apply web_reaches_budget|].
    split; [|split; [apply web_get_all_docs_returns
                    |intros; by apply web_budget_reached_stops]].
    intros fuel [[ds self']|e|] w' Hrun; [right|exfalso|by left].
    + exists ds, self'. split; [done|].
      apply web_get_all_docs_inv in Hrun as (f & Hr & _ & <- & _).
      by eapply web_reaches_budget.
    + by eapply web_get_all_docs_no_raise.
Qed.

(** C1 as stated fails for a negative budget: with [max_pages = -1] the
    crawl returns no document, and 0 is not at most -1. *)
Lemma crawl_negative_budget_counterexample :
  let self := ReadTheDocsIngester.__init__ (lit "http://d") (-1) in
  exists ds self' w',
    ReadTheDocsIngester.get_all_docs (H := Fixture.all_ok) 5 self []
    = (Ok (ds, self'), w') /\
    ~ (Z.of_nat (length ds) <= ReadTheDocsIngester.max_pages self)%Z.
Proof.
  simpl. eexists _, _, _. split; [reflexivity|]. simpl. lia.
Qed.

(** C1 at work: the site of the fixture, crawled with a budget of two pages
    and fuel for twenty iterations, returns two documents. *)
Lemma crawl_respects_page_budget_witness :
  exists ds self' w',
    ReadTheDocsIngester.get_all_docs (H := Fixture.all_ok) 20
      (ReadTheDocsIngester.__init__ (lit "http://d") 2) []
    = (Ok (ds, self'), w') /\
    length ds = 2%nat /\
    (Z.of_nat (length ds)
     <= Z.max 0 (ReadTheDocsIngester.max_pages
                   (ReadTheDocsIngester.__init__ (lit "http://d") 2)))%Z.
Proof.
  pose (run := ReadTheDocsIngester.get_all_docs (H := Fixture.all_ok) 20
                 (ReadTheDocsIngester.__init__ (lit "http://d") 2) []).
  destruct (proj1 (proj2 (proj1 (crawl_respects_page_budget
                                   (H := Fixture.all_ok)) _ []))
              20%nat (fst run) (snd run) (surjective_pairing run))
    as [Hout | (ds & self' & Hrun & Hle)].
  - vm_compute in Hout. discriminate.
  - exists ds, self', (snd run). split; [|split; [|exact Hle]].
    + rewrite <- Hrun. apply surjective_pairing.
    + vm_compute in Hrun. injection Hrun as <- _. reflexivity.
Defined.

(** ** C2, C3, C10: what a crawl visits, fetches and returns *)

Section CrawlInvariants.
Context `{Env}.

Lemma rtd_reaches_inv self w f w' :
loop_reaches ReadTheDocsIngester.loop_cond ReadTheDocsIngester.loop_body
(ReadTheDocsIngester.initial_frame self, w) (f, w') ->
docs_inv (fun _ => true) (rtd_view f w') /\
trace_inv (fun _ => true) (ReadTheDocsIngester.visited_urls self) w
(rtd_view f w').
Proof.
intros Hr. apply rtd_reaches_steps in Hr. split.
- eapply steps_docs_inv; [exact Hr|]. split; simpl; constructor.
- eapply steps_trace_inv; [exact Hr|].
apply (trace_inv_init _ (rtd_view (ReadTheDocsIngester.initial_frame self) w)).
Qed.

Lemma web_reaches_inv self w f w' :
loop_reaches WebsiteIngester.loop_cond WebsiteIngester.loop_body
(WebsiteIngester.initial_frame self, w) (f, w') ->
docs_inv (WebsiteIngester.domain_allowed self) (web_view f w') /\
trace_inv (WebsiteIngester.domain_allowed self)
(WebsiteIngester.visited_urls self) w (web_view f w').
Proof.
intros Hr. apply web_reaches_steps in Hr. split.
- eapply steps_docs_inv; [exact Hr|]. split; simpl; constructor.
- eapply steps_trace_inv; [exact Hr|].
apply (trace_inv_init _ (web_view (WebsiteIngester.initial_frame self) w)).
Qed.

Lemma rtd_loop_body_seen f w u rest :
ReadTheDocsIngester.to_visit f = u :: rest ->
u ∈ ReadTheDocsIngester.visited_urls (ReadTheDocsIngester.inst f) ->
ReadTheDocsIngester.loop_body f w
= (Ok {| ReadTheDocsIngester.documents := ReadTheDocsIngester.documents f;
ReadTheDocsIngester.to_visit := rest;
ReadTheDocsIngester.inst := ReadTheDocsIngester.inst f |}, w).
Proof.
intros Hq Hin. unfold ReadTheDocsIngester.loop_body. rewrite Hq.
by rewrite decide_True.
Qed.

Lemma rtd_loop_body_unseen f w u rest :
ReadTheDocsIngester.to_visit f = u :: rest ->
u ∉ ReadTheDocsIngester.visited_urls (ReadTheDocsIngester.inst f) ->
exists f' later,
ReadTheDocsIngester.loop_body f w
= (Ok f', later ++ EvGet ScrapePage (page_request u) :: w) /\
ReadTheDocsIngester.visited_urls (ReadTheDocsIngester.inst f')
= {[u]} ∪ ReadTheDocsIngester.visited_urls (ReadTheDocsIngester.inst f).
Proof.
intros Hq Hin. unfold ReadTheDocsIngester.loop_body. rewrite Hq.
rewrite decide_False by done. unfold_monad.
destruct (rtd_scrape_page_cases u w) as [(d & -> & _) | (e & ->)].
- destruct (rtd_find_doc_links_total
(ReadTheDocsIngester.mark_visited
(ReadTheDocsIngester.inst f) u) u
(EvGet ScrapePage (page_request u) :: w)) as [l ->].
unfold sleep. eexists _, [_; _]. split; reflexivity.
- eexists _, []. split; reflexivity.
Qed.

Lemma web_loop_body_seen f w u rest :
WebsiteIngester.to_visit f = u :: rest ->
u ∈ WebsiteIngester.visited_urls (WebsiteIngester.inst f) ->
WebsiteIngester.loop_body f w
= (Ok {| WebsiteIngester.documents := WebsiteIngester.documents f;
WebsiteIngester.to_visit := rest;
WebsiteIngester.inst := WebsiteIngester.inst f |}, w).
Proof.
intros Hq Hin. unfold WebsiteIngester.loop_body. rewrite Hq.
by rewrite decide_True.
Qed.

Lemma web_loop_body_outside f w u rest :
WebsiteIngester.to_visit f = u :: rest ->
netloc u ∉ WebsiteIngester.allowed_domains (WebsiteIngester.inst f) ->
WebsiteIngester.loop_body f w
= (Ok {| WebsiteIngester.documents := WebsiteIngester.documents f;
WebsiteIngester.to_visit := rest;
WebsiteIngester.inst := WebsiteIngester.inst f |}, w).
Proof.
intros Hq Hout. unfold WebsiteIngester.loop_body. rewrite Hq.
destruct (decide _); [done|].
unfold WebsiteIngester.domain_allowed.
by rewrite bool_decide_eq_false_2.
Qed.

Lemma web_loop_body_unseen f w u rest :
WebsiteIngester.to_visit f = u :: rest ->
u ∉ WebsiteIngester.visited_urls (WebsiteIngester.inst f) ->
netloc u ∈ WebsiteIngester.allowed_domains (WebsiteIngester.inst f) ->
exists f' later,
WebsiteIngester.loop_body f w
= (Ok f', later ++ EvGet ScrapePage (page_request u) :: w) /\
WebsiteIngester.visited_urls (WebsiteIngester.inst f')
= {[u]} ∪ WebsiteIngester.visited_urls (WebsiteIngester.inst f).
Proof.
intros Hq Hin Hdom. unfold WebsiteIngester.loop_body. rewrite Hq.
rewrite decide_False by done.
unfold WebsiteIngester.domain_allowed at 1.
rewrite bool_decide_eq_true_2 by done. simpl. unfold_monad.
destruct (web_scrape_page_cases u w) as [(d & -> & _) | (e & ->)].
- destruct (web_find_links_total
(WebsiteIngester.mark_visited (WebsiteIngester.inst f) u) u
(EvGet ScrapePage (page_request u) :: w)) as [l ->].
unfold sleep. eexists _, [_; _]. split; reflexivity.
- eexists _, []. split; reflexivity.
Qed.
End CrawlInvariants.

(** Every request of a crawl is a content fetch or a link-discovery
    fetch. *)
Lemma crawl_events_two_sites allowed new u :
  Forall (crawl_event allowed) new ->
  gets_to u new
  = (gets_from ScrapePage u new + gets_from FindLinks u new)%nat.
Proof.
  unfold gets_to, gets_from.
  induction 1 as [|e new He _ IH]; simpl; [done|]. rewrite IH.
  destruct e as [site rq|ms]; simpl; [|done].
  destruct He as (_ & [-> | ->] & _); simpl;
    destruct (bool_decide (req_url rq = u)); lia.
Qed.

(** C2, as amended.  In a crawl of either variant a popped url that is
    already in the visited set is skipped: nothing is fetched and only the
    queue changes (the website variant also skips, unmarked, a url outside
    the allow-list).  Any other popped url is in the visited set when the
    iteration ends, whether its fetch succeeded or raised, and the content
    fetch is the first request the iteration sends.  Consequently, at the
    head of every iteration and at the end of the crawl, no url has been
    sent the content fetch more than once, nor the link-discovery fetch
    (the second download of a page that gave a document) more than once; a
    url is sent no other request, so at most two in all; the urls that
    were visited before the crawl began are sent nothing; the visited set
    lists no url twice and no two documents have the same url. *)
Theorem crawl_fetches_each_url_once `{Env} :
  (forall (self : ReadTheDocsIngester.t) (w : World),
     (forall f w1 u rest,
        ReadTheDocsIngester.to_visit f = u :: rest ->
        u ∈ ReadTheDocsIngester.visited_urls (ReadTheDocsIngester.inst f) ->
        ReadTheDocsIngester.loop_body f w1
        = (Ok {| ReadTheDocsIngester.documents := ReadTheDocsIngester.documents f;
                 ReadTheDocsIngester.to_visit := rest;
                 ReadTheDocsIngester.inst := ReadTheDocsIngester.inst f |},
           w1)) /\
     (forall f w1 u rest,
        ReadTheDocsIngester.to_visit f = u :: rest ->
        u ∉ ReadTheDocsIngester.visited_urls (ReadTheDocsIngester.inst f) ->
        exists f' later,
          ReadTheDocsIngester.loop_body f w1
          = (Ok f', later ++ EvGet ScrapePage (page_request u) :: w1) /\
          ReadTheDocsIngester.visited_urls (ReadTheDocsIngester.inst f')
          = {[u]} ∪ ReadTheDocsIngester.visited_urls
                      (ReadTheDocsIngester.inst f)) /\
     (forall f w',
        loop_reaches ReadTheDocsIngester.loop_cond
                     ReadTheDocsIngester.loop_body
                     (ReadTheDocsIngester.initial_frame self, w) (f, w') ->
        NoDup (map url (ReadTheDocsIngester.documents f)) /\
        NoDup (elements (ReadTheDocsIngester.visited_urls
                           (ReadTheDocsIngester.inst f))) /\
        exists new,
          w' = new ++ w /\
          forall u,
            (gets_from ScrapePage u new <= 1)%nat /\
            (gets_from FindLinks u new <= 1)%nat /\
            gets_to u new
            = (gets_from ScrapePage u new + gets_from FindLinks u new)%nat /\
            (gets_to u new <= 2)%nat /\
            (u ∈ ReadTheDocsIngester.visited_urls self ->
             gets_to u new = O)) /\
     (forall fuel ds self' w',
        ReadTheDocsIngester.get_all_docs fuel self w = (Ok (ds, self'), w') ->
        NoDup (map url ds) /\
        NoDup (elements (ReadTheDocsIngester.visited_urls self')) /\
        exists new,
          w' = new ++ w /\
          forall u,
            (gets_from ScrapePage u new <= 1)%nat /\
            (gets_from FindLinks u new <= 1)%nat /\
            gets_to u new
            = (gets_from ScrapePage u new + gets_from FindLinks u new)%nat /\
            (gets_to u new <= 2)%nat)) /\
  (forall (self : WebsiteIngester.t) (w : World),
     (forall f w1 u rest,
        WebsiteIngester.to_visit f = u :: rest ->
        u ∈ WebsiteIngester.visited_urls (WebsiteIngester.inst f) ->
        WebsiteIngester.loop_body f w1
        = (Ok {| WebsiteIngester.documents := WebsiteIngester.documents f;
                 WebsiteIngester.to_visit := rest;
                 WebsiteIngester.inst := WebsiteIngester.inst f |}, w1)) /\
     (forall f w1 u rest,
        WebsiteIngester.to_visit f = u :: rest ->
        netloc u ∉ WebsiteIngester.allowed_domains (WebsiteIngester.inst f) ->
        WebsiteIngester.loop_body f w1
        = (Ok {| WebsiteIngester.documents := WebsiteIngester.documents f;
                 WebsiteIngester.to_visit := rest;
                 WebsiteIngester.inst := WebsiteIngester.inst f |}, w1)) /\
     (forall f w1 u rest,
        WebsiteIngester.to_visit f = u :: rest ->
        u ∉ WebsiteIngester.visited_urls (WebsiteIngester.inst f) ->
        netloc u ∈ WebsiteIngester.allowed_domains (WebsiteIngester.inst f) ->
        exists f' later,
          WebsiteIngester.loop_body f w1
          = (Ok f', later ++ EvGet ScrapePage (page_request u) :: w1) /\
          WebsiteIngester.visited_urls (WebsiteIngester.inst f')
          = {[u]} ∪ WebsiteIngester.visited_urls (WebsiteIngester.inst f)) /\
     (forall f w',
        loop_reaches WebsiteIngester.loop_cond WebsiteIngester.loop_body
                     (WebsiteIngester.initial_frame self, w) (f, w') ->
        NoDup (map url (WebsiteIngester.documents f)) /\
        NoDup (elements (WebsiteIngester.visited_urls
                           (WebsiteIngester.inst f))) /\
        exists new,
          w' = new ++ w /\
          forall u,
            (gets_from ScrapePage u new <= 1)%nat /\
            (gets_from FindLinks u new <= 1)%nat /\
            gets_to u new
            = (gets_from ScrapePage u new + gets_from FindLinks u new)%nat /\
            (gets_to u new <= 2)%nat /\
            (u ∈ WebsiteIngester.visited_urls self -> gets_to u new = O)) /\
     (forall fuel ds self' w',
        WebsiteIngester.get_all_docs fuel self w = (Ok (ds, self'), w') ->
        NoDup (map url ds) /\
        NoDup (elements (WebsiteIngester.visited_urls self')) /\
        exists new,
          w' = new ++ w /\
          forall u,
            (gets_from ScrapePage u new <= 1)%nat /\
            (gets_from FindLinks u new <= 1)%nat /\
            gets_to u new
            = (gets_from ScrapePage u new + gets_from FindLinks u new)%nat /\
            (gets_to u new <= 2)%nat)).
Proof.
  split; intros self w.
  - assert (Hreach : forall f w',
      loop_reaches ReadTheDocsIngester.loop_cond ReadTheDocsIngester.loop_body
                   (ReadTheDocsIngester.initial_frame self, w) (f, w') ->
      NoDup (map url (ReadTheDocsIngester.documents f)) /\
      NoDup (elements (ReadTheDocsIngester.visited_urls
                         (ReadTheDocsIngester.inst f))) /\
      exists new,
        w' = new ++ w /\
        forall u,
          (gets_from ScrapePage u new <= 1)%nat /\
          (gets_from FindLinks u new <= 1)%nat /\
          gets_to u new
          = (gets_from ScrapePage u new + gets_from FindLinks u new)%nat /\
          (gets_to u new <= 2)%nat /\
          (u ∈ ReadTheDocsIngester.visited_urls self -> gets_to u new = O)).
    { intros f w' Hr.
      destruct (rtd_reaches_inv self w f w' Hr)
        as [[Hnd _] (_ & new & Htr & Hev & Hcount)].
      split; [exact Hnd|]. split; [apply NoDup_elements|].
      exists new. split; [exact Htr|]. intros u.
      destruct (Hcount u) as (Hs & Hf & Hz).
      pose proof (crawl_events_two_sites _ _ u Hev) as Hsum.
      split; [done|]. split; [done|]. split; [done|]. split; [lia|auto]. }
    split; [exact rtd_loop_body_seen|].
    split; [exact rtd_loop_body_unseen|].
    split; [exact Hreach|].
    intros fuel ds self' w' Hrun.
    apply rtd_get_all_docs_inv in Hrun as (f & Hr & _ & <- & <-).
    destruct (Hreach f w' Hr) as (Hnd & Hv & new & Htr & Hcount).
    split; [done|]. split; [done|]. exists new. split; [done|].
    intros u. destruct (Hcount u) as (? & ? & ? & ? & _). done.
  - assert (Hreach : forall f w',
      loop_reaches WebsiteIngester.loop_cond WebsiteIngester.loop_body
                   (WebsiteIngester.initial_frame self, w) (f, w') ->
      NoDup (map url (WebsiteIngester.documents f)) /\
      NoDup (elements (WebsiteIngester.visited_urls
                         (WebsiteIngester.inst f))) /\
      exists new,
        w' = new ++ w /\
        forall u,
          (gets_from ScrapePage u new <= 1)%nat /\
          (gets_from FindLinks u new <= 1)%nat /\
          gets_to u new
          = (gets_from ScrapePage u new + gets_from FindLinks u new)%nat /\
          (gets_to u new <= 2)%nat /\
          (u ∈ WebsiteIngester.visited_urls self -> gets_to u new = O)).
    { intros f w' Hr.
      destruct (web_reaches_inv self w f w' Hr)
        as [[Hnd _] (_ & new & Htr & Hev & Hcount)].
      split; [exact Hnd|]. split; [apply NoDup_elements|].
      exists new. split; [exact Htr|]. intros u.
      destruct (Hcount u) as (Hs & Hf & Hz).
      pose proof (crawl_events_two_sites _ _ u Hev) as Hsum.
      split; [done|]. split; [done|]. split; [done|]. split; [lia|auto]. }
    split; [exact web_loop_body_seen|].
    split; [exact web_loop_body_outside|].
    split; [exact web_loop_body_unseen|].
    split; [exact Hreach|].
    intros fuel ds self' w' Hrun.
    apply web_get_all_docs_inv in Hrun as (f & Hr & _ & <- & <-).
    destruct (Hreach f w' Hr) as (Hnd & Hv & new & Htr & Hcount).
    split; [done|]. split; [done|]. exists new. split; [done|].
    intros u. destruct (Hcount u) as (? & ? & ? & ? & _). done.
Qed.

(** C2 as stated fails: a page that gives a document is downloaded twice,
    once for its content and once more for its links.  In the crawl of the
    fixture's site the home page is sent two requests. *)
Lemma crawl_fetches_document_url_twice_counterexample :
  exists ds self' w',
    ReadTheDocsIngester.get_all_docs (H := Fixture.all_ok) 20
      (ReadTheDocsIngester.__init__ (lit "http://d/") 10) []
    = (Ok (ds, self'), w') /\
    gets_to (lit "http://d") w' = 2%nat /\
    ~ (forall u, (gets_to u w' <= 1)%nat).
Proof.
  pose (run := ReadTheDocsIngester.get_all_docs (H := Fixture.all_ok) 20
                 (ReadTheDocsIngester.__init__ (lit "http://d/") 10) []).
  assert (Hrun : exists ds self' w',
             run = (Ok (ds, self'), w') /\
             gets_to (lit "http://d") w' = 2%nat).
  { vm_compute. eexists _, _, _. split; reflexivity. }
  destruct Hrun as (ds & self' & w' & Hrun & Htwo).
  exists ds, self', w'. split; [exact Hrun|]. split; [exact Htwo|].
  intros Hall. specialize (Hall (lit "http://d")). lia.
Qed.

(** C2 at work: the crawl of the fixture's site returns three documents
    with three different urls; no url was sent the content fetch twice and
    none more than two requests. *)
Lemma crawl_fetches_each_url_once_witness :
  exists ds self' w',
    ReadTheDocsIngester.get_all_docs (H := Fixture.all_ok) 20
      (ReadTheDocsIngester.__init__ (lit "http://d/") 10) []
    = (Ok (ds, self'), w') /\
    length ds = 3%nat /\
    NoDup (map url ds) /\
    forall u, (gets_from ScrapePage u w' <= 1)%nat /\
              (gets_to u w' <= 2)%nat.
Proof.
  pose (run := ReadTheDocsIngester.get_all_docs (H := Fixture.all_ok) 20
                 (ReadTheDocsIngester.__init__ (lit "http://d/") 10) []).
  assert (Hrun : exists ds self' w', run = (Ok (ds, self'), w')).
  { vm_compute. eexists _, _, _. reflexivity. }
  destruct Hrun as (ds & self' & w' & Hrun).
  destruct (proj2 (proj2 (proj2 (proj1 (crawl_fetches_each_url_once
                                          (H := Fixture.all_ok)) _ [])))
              20%nat ds self' w' Hrun) as (Hnd & _ & new & Hw & Hcount).
  exists ds, self', w'. split; [exact Hrun|]. split; [|split; [exact Hnd|]].
  - vm_compute in Hrun. injection Hrun as <- _. reflexivity.
  - intros u. rewrite Hw, app_nil_r.
    destruct (Hcount u) as (? & _ & _ & ?). done.
Defined.

Section AllowList.
Context `{Env}.

Lemma crawl_events_allowed allowed new u :
Forall (crawl_event allowed) new -> allowed u = false -> gets_to u new = O.
Proof.
intros Hall Hu. unfold gets_to.
induction Hall as [|e new He _ IH]; simpl; [done|]. rewrite IH.
destruct e as [site rq|ms]; simpl; [|done].
destruct He as (_ & _ & Hal).
destruct (decide (req_url rq = u)) as [Heq|Hne].
- rewrite Heq in Hal. congruence.
- by rewrite (bool_decide_eq_false_2 _ Hne).
Qed.

Lemma web_allowed_docs self w f w' :
loop_reaches WebsiteIngester.loop_cond WebsiteIngester.loop_body
(WebsiteIngester.initial_frame self, w) (f, w') ->
Forall (fun d => netloc (url d) ∈ WebsiteIngester.allowed_domains self)
(WebsiteIngester.documents f) /\
exists new,
w' = new ++ w /\
forall u, netloc u ∉ WebsiteIngester.allowed_domains self ->
gets_to u new = O.
Proof.
intros Hr.
destruct (web_reaches_inv self w f w' Hr)
as [[_ Hdocs] (_ & new & Htr & Hev & _)].
split.
- eapply Forall_impl; [exact Hdocs|]. intros d (_ & Hal & _).
unfold WebsiteIngester.domain_allowed in Hal.
by apply bool_decide_eq_true in Hal.
- exists new. split; [exact Htr|]. intros u Hu.
apply (crawl_events_allowed _ _ _ Hev).
unfold WebsiteIngester.domain_allowed. by apply bool_decide_eq_false.
Qed.
End AllowList.

(** C3.  In a website crawl, whatever the allow-list and the seed url, every
    document has a url whose domain is on the allow-list of the ingester,
    and no request is sent to a url whose domain is not on it: at the head
    of every iteration and in what the crawl returns.  The allow-list of
    the ingester is the list it was given or, when it was given none or an
    empty one, the domain of the seed url alone. *)
Theorem website_crawl_keeps_to_allow_list `{Env} :
  forall (self : WebsiteIngester.t) (w : World),
    (forall f w',
       loop_reaches WebsiteIngester.loop_cond WebsiteIngester.loop_body
                    (WebsiteIngester.initial_frame self, w) (f, w') ->
       Forall (fun d => netloc (url d) ∈ WebsiteIngester.allowed_domains self)
              (WebsiteIngester.documents f) /\
       exists new,
         w' = new ++ w /\
         forall u, netloc u ∉ WebsiteIngester.allowed_domains self ->
                   gets_to u new = O) /\
    (forall fuel ds self' w',
       WebsiteIngester.get_all_docs fuel self w = (Ok (ds, self'), w') ->
       Forall (fun d => netloc (url d) ∈ WebsiteIngester.allowed_domains self)
              ds /\
       exists new,
         w' = new ++ w /\
         forall u, netloc u ∉ WebsiteIngester.allowed_domains self ->
                   gets_to u new = O) /\
    (forall start_url allowed max_pages,
       WebsiteIngester.allowed_domains
         (WebsiteIngester.__init__ start_url allowed max_pages)
       = match allowed with
         | Some (d :: ds) => d :: ds
         | Some [] | None => [netloc start_url]
         end).
Proof.
  intros self w. split; [apply web_allowed_docs|]. split; [|done].
  intros fuel ds self' w' Hrun.
  apply web_get_all_docs_inv in Hrun as (f & Hr & _ & <- & _).
  by apply web_allowed_docs.
Qed.

(** C3 at work: the home page of the fixture links to [http://x/o]; a crawl
    allowed on [d] alone returns three documents, all on [d], and sends
    nothing to [http://x/o]. *)
Lemma website_crawl_keeps_to_allow_list_witness :
  exists ds self' w',
    WebsiteIngester.get_all_docs (H := Fixture.all_ok) 20
      (WebsiteIngester.__init__ (H := Fixture.all_ok) (lit "http://d")
                                (Some [lit "d"]) 10) []
    = (Ok (ds, self'), w') /\
    length ds = 3%nat /\
    Forall (fun d => Fixture.netloc_of (url d) ∈ [lit "d"]) ds /\
    gets_to (lit "http://x/o") w' = O.
Proof.
  pose (self := WebsiteIngester.__init__ (H := Fixture.all_ok)
                  (lit "http://d") (Some [lit "d"]) 10).
  pose (run := WebsiteIngester.get_all_docs (H := Fixture.all_ok) 20 self []).
  assert (Hrun : exists ds self' w', run = (Ok (ds, self'), w')).
  { vm_compute. eexists _, _, _. reflexivity. }
  destruct Hrun as (ds & self' & w' & Hrun).
  destruct (proj1 (proj2 (website_crawl_keeps_to_allow_list
                            (H := Fixture.all_ok) self []))
              20%nat ds self' w' Hrun) as (Hdocs & new & Hw & Hnone).
  exists ds, self', w'. split; [exact Hrun|]. split; [|split; [exact Hdocs|]].
  - vm_compute in Hrun. injection Hrun as <- _. reflexivity.
  - rewrite Hw, app_nil_r. apply Hnone. vm_compute.
    intros Hin. apply list_elem_of_singleton in Hin. discriminate.
Defined.

(** ** C10: the metadata of an extracted page *)

Section ExtractedPage.
Context `{Env}.

Lemma rtd_scrape_page_ok u w d w' :
ReadTheDocsIngester._scrape_page u w = (Ok d, w') ->
url d = u /\ no_triple_newline (content d) /\ page_metadata d.
Proof.
intros Hrun.
destruct (rtd_scrape_page_cases u w) as [(d0 & Hd & Hfacts) | (e & He)].
- rewrite Hd in Hrun. by injection Hrun as <- _.
- rewrite He in Hrun. discriminate.
Qed.

Lemma web_scrape_page_ok u w d w' :
WebsiteIngester._scrape_page u w = (Ok d, w') ->
url d = u /\ no_triple_newline (content d) /\ page_metadata d.
Proof.
intros Hrun.
destruct (web_scrape_page_cases u w) as [(d0 & Hd & Hfacts) | (e & He)].
- rewrite Hd in Hrun. by injection Hrun as <- _.
- rewrite He in Hrun. discriminate.
Qed.

Lemma rtd_crawl_docs fuel self w ds self' w' :
ReadTheDocsIngester.get_all_docs fuel self w = (Ok (ds, self'), w') ->
Forall (fun d => page_metadata d /\ no_triple_newline (content d)) ds.
Proof.
intros Hrun. apply rtd_get_all_docs_inv in Hrun as (f & Hr & _ & <- & _).
destruct (rtd_reaches_inv self w f w' Hr) as [[_ Hdocs] _].
eapply Forall_impl; [exact Hdocs|]. intros d (_ & _ & ? & ?). done.
Qed.

Lemma web_crawl_docs fuel self w ds self' w' :
WebsiteIngester.get_all_docs fuel self w = (Ok (ds, self'), w') ->
Forall (fun d => page_metadata d /\ no_triple_newline (content d)) ds.
Proof.
intros Hrun. apply web_get_all_docs_inv in Hrun as (f & Hr & _ & <- & _).
destruct (web_reaches_inv self w f w' Hr) as [[_ Hdocs] _].
eapply Forall_impl; [exact Hdocs|]. intros d (_ & _ & ? & ?). done.
Qed.
End ExtractedPage.

(** C10.  Every document a frontier-based crawl returns, in either variant,
    and every document [_scrape_page] produces, carries in its metadata the
    entry [content_length], equal to the length of its content, and the
    entry [scraped_at], a time stamp. *)
Theorem crawled_document_records_content_length `{Env} :
  (forall fuel self w ds self' w',
     ReadTheDocsIngester.get_all_docs fuel self w = (Ok (ds, self'), w') ->
     Forall (fun d =>
               dict_get (lit "content_length") (metadata d)
               = Some (MInt (Z.of_nat (length (content d)))) /\
               exists now,
                 dict_get (lit "scraped_at") (metadata d) = Some (MStr now))
            ds) /\
  (forall fuel self w ds self' w',
     WebsiteIngester.get_all_docs fuel self w = (Ok (ds, self'), w') ->
     Forall (fun d =>
               dict_get (lit "content_length") (metadata d)
               = Some (MInt (Z.of_nat (length (content d)))) /\
               exists now,
                 dict_get (lit "scraped_at") (metadata d) = Some (MStr now))
            ds) /\
  (forall u w d w',
     ReadTheDocsIngester._scrape_page u w = (Ok d, w') ->
     metadata d = [(lit "scraped_at", MStr (clock (EvGet ScrapePage (page_request u) :: w)));
                   (lit "content_length",
                    MInt (Z.of_nat (length (content d))))]) /\
  (forall u w d w',
     WebsiteIngester._scrape_page u w = (Ok d, w') ->
     metadata d = [(lit "scraped_at", MStr (clock (EvGet ScrapePage (page_request u) :: w)));
                   (lit "content_length",
                    MInt (Z.of_nat (length (content d))))]).
Proof.
  split.
  { intros fuel self w ds self' w' Hrun. apply rtd_crawl_docs in Hrun.
    eapply Forall_impl; [exact Hrun|]. by intros d [? _]. }
  split.
  { intros fuel self w ds self' w' Hrun. apply web_crawl_docs in Hrun.
    eapply Forall_impl; [exact Hrun|]. by intros d [? _]. }
  split.
  - intros u w d w'. unfold ReadTheDocsIngester._scrape_page. unfold_monad.
    destruct (requests_get_cases ScrapePage u [] (Some 10%Z) w)
      as [(r & _ & ->) | (_ & ->)]; [|discriminate].
    fold (page_request u). unfold raise_for_status.
    destruct (_ && _); unfold_monad; [discriminate|].
    destruct (ReadTheDocsIngester.main_content _); [|discriminate].
    unfold strftime. by intros [= <- _].
  - intros u w d w'. unfold WebsiteIngester._scrape_page. unfold_monad.
    destruct (requests_get_cases ScrapePage u [] (Some 10%Z) w)
      as [(r & _ & ->) | (_ & ->)]; [|discriminate].
    fold (page_request u). unfold raise_for_status.
    destruct (_ && _); unfold_monad; [discriminate|].
    unfold strftime. by intros [= <- _].
Qed.

(** C10 at work: the three documents of the fixture's site. *)
Lemma crawled_document_records_content_length_witness :
  exists ds self' w',
    ReadTheDocsIngester.get_all_docs (H := Fixture.all_ok) 20
      (ReadTheDocsIngester.__init__ (lit "http://d/") 10) []
    = (Ok (ds, self'), w') /\
    map (fun d => dict_get (lit "content_length") (metadata d)) ds
    = [Some (MInt 12); Some (MInt 4); Some (MInt 4)] /\
    Forall (fun d => dict_get (lit "content_length") (metadata d)
                     = Some (MInt (Z.of_nat (length (content d))))) ds.
Proof.
  pose (run := ReadTheDocsIngester.get_all_docs (H := Fixture.all_ok) 20
                 (ReadTheDocsIngester.__init__ (lit "http://d/") 10) []).
  assert (Hrun : exists ds self' w', run = (Ok (ds, self'), w')).
  { vm_compute. eexists _, _, _. reflexivity. }
  destruct Hrun as (ds & self' & w' & Hrun).
  exists ds, self', w'. split; [exact Hrun|]. split.
  - vm_compute in Hrun. injection Hrun as <- _. reflexivity.
  - eapply Forall_impl;
      [exact (proj1 (crawled_document_records_content_length
                       (H := Fixture.all_ok)) _ _ _ _ _ _ Hrun)|].
    by intros d [? _].
Defined.

(** ** C8, C9: the repository fetcher *)

Section Repository.
Context `{Env}.

Lemma raise_for_status_error r w :
error_status (status_code r) -> raise_for_status r w = (Raise HTTPError, w).
Proof.
intros [Hlo Hhi]. unfold raise_for_status.
apply Z.leb_le in Hlo. apply Z.ltb_lt in Hhi. by rewrite Hlo, Hhi.
Qed.

(** A failed readme call: [_get_readme] returns [None] after one request. *)
Lemma get_readme_call_fails self w :
call_fails w (readme_request self) ->
GitHubIngester._get_readme self w
= (Ok None, EvGet ReadmeMeta (readme_request self) :: w).
Proof.
unfold call_fails, GitHubIngester._get_readme. unfold_monad.
unfold requests_get. fold (readme_request self).
destruct (http_get w (readme_request self)) as [r|]; [|done].
intros Herr. by rewrite raise_for_status_error.
Qed.

(** [_get_readme] never raises. *)
Lemma get_readme_total self w :
exists o w', GitHubIngester._get_readme self w = (Ok o, w').
Proof.
unfold GitHubIngester._get_readme. unfold_monad.
unfold requests_get, raise_for_status, strftime.
destruct (http_get w _) as [r|]; [|eauto].
destruct (_ && _); unfold_monad; [eauto|].
destruct (json_readme (body r)) as [info|]; [|eauto].
destruct (http_get _ _) as [r2|]; eauto.
Qed.

(** [_get_docs_directory] with fuel for at least one call, unfolded. *)
Lemma get_docs_directory_unfold fuel self path w :
GitHubIngester._get_docs_directory (S fuel) self path w
= let w1 := EvGet DirListing (listing_request self path) :: w in
match http_get w (listing_request self path) with
| None => (Ok [], w1)
| Some r =>
if bool_decide (status_code r = 404%Z) then (Ok [], w1)
else if ((400 <=? status_code r) && (status_code r <? 600))%Z
then (Ok [], w1)
else match json_listing (body r) with
| None => (Ok [], w1)
| Some items =>
GitHubIngester.for_items
 (GitHubIngester._get_docs_directory fuel self) self
 items [] w1
end
end.
Proof.
unfold listing_request.
change (GitHubIngester._get_docs_directory (S fuel) self path w) with
(GitHubIngester.or_return []
(requests_get DirListing
(GitHubIngester.api_base self ++ lit "/contents/" ++ path)
(GitHubIngester.headers self) (Some 10%Z))
(fun response =>
if bool_decide (status_code response = 404%Z) then mret []
else
GitHubIngester.or_return [] (raise_for_status response) (fun _ =>
GitHubIngester.or_return []
match json_listing (body response) with
| Some items => mret items
| None => raise JSONDecodeError
end
(fun items =>
GitHubIngester.for_items
 (GitHubIngester._get_docs_directory fuel self) self
 items []))) w).
cbv zeta. unfold GitHubIngester.or_return at 1. unfold requests_get.
destruct (http_get w _) as [r|]; [|reflexivity].
destruct (bool_decide _); [reflexivity|].
unfold GitHubIngester.or_return at 1. unfold raise_for_status.
destruct (_ && _); unfold_monad; [reflexivity|].
unfold GitHubIngester.or_return at 1.
by destruct (json_listing (body r)).
Qed.

(** A listing that fails, or that answers 404: the directory gives no
document, after one request and without an exception. *)
Lemma get_docs_directory_404 fuel self path w r :
http_get w (listing_request self path) = Some r ->
status_code r = 404%Z ->
GitHubIngester._get_docs_directory (S fuel) self path w
= (Ok [], EvGet DirListing (listing_request self path) :: w).
Proof.
intros Hget Hstatus. rewrite get_docs_directory_unfold. cbv zeta.
rewrite Hget. by rewrite bool_decide_eq_true_2.
Qed.

Lemma get_docs_directory_call_fails fuel self path w :
call_fails w (listing_request self path) ->
GitHubIngester._get_docs_directory (S fuel) self path w
= (Ok [], EvGet DirListing (listing_request self path) :: w).
Proof.
unfold call_fails. rewrite get_docs_directory_unfold. cbv zeta.
destruct (http_get w (listing_request self path)) as [r|]; [|done].
intros [Hlo Hhi]. destruct (bool_decide _); [done|].
apply Z.leb_le in Hlo. apply Z.ltb_lt in Hhi. by rewrite Hlo, Hhi.
Qed.

Lemma for_items_never_raises recurse self items documents :
(forall path, never_raises (recurse path)) ->
never_raises (GitHubIngester.for_items recurse self items documents).
Proof.
intros Hrec. revert documents.
induction items as [|item rest IH]; intros documents w e w'; simpl.
- discriminate.
- destruct (GitHubIngester.is_docs_file item).
+ unfold GitHubIngester.or_return. unfold_monad.
unfold requests_get, strftime.
destruct (http_get _ _); [apply IH|discriminate].
+ destruct (bool_decide _); [|apply IH].
unfold GitHubIngester.or_return.
destruct (recurse (entry_path item) w) as [[sub| |] w1] eqn:Hsub;
[apply IH|discriminate..].
Qed.

Lemma get_docs_directory_never_raises fuel self path :
never_raises (GitHubIngester._get_docs_directory fuel self path).
Proof.
revert path. induction fuel as [|fuel IH]; intros path w e w'.
- discriminate.
- rewrite get_docs_directory_unfold. cbv zeta.
destruct (http_get _ _) as [r|]; [|discriminate].
destruct (bool_decide _); [discriminate|].
destruct (_ && _); [discriminate|].
destruct (json_listing (body r)); [|discriminate].
by apply for_items_never_raises.
Qed.
Section Added.
Context (P : event -> Prop) (self : GitHubIngester.t).
Hypothesis P_download : forall u,
P (EvGet FileDownload
{| req_url := u; req_headers := []; req_timeout := None |}).
Hypothesis P_listing : forall path,
P (EvGet DirListing (listing_request self path)).

Lemma for_items_adds recurse items documents :
(forall path, adds_only P (recurse path)) ->
adds_only P (GitHubIngester.for_items recurse self items documents).
Proof.
intros Hrec. revert documents.
induction items as [|item rest IH]; intros documents w; simpl.
- by exists [].
- destruct (GitHubIngester.is_docs_file item).
+ unfold GitHubIngester.or_return. unfold_monad.
unfold requests_get, strftime.
destruct (http_get _ _).
* match goal with
| |- context [GitHubIngester.for_items recurse self rest ?d ?w1] =>
destruct (IH d w1) as (later & -> & Hl)
end.
exists (later ++ [EvGet FileDownload
{| req_url := entry_download_url item;
req_headers := [];
req_timeout := None |}]).
split; [by rewrite <- app_assoc|].
apply Forall_app. split; [done|]. by apply Forall_singleton.
* exists [EvGet FileDownload
{| req_url := entry_download_url item;
req_headers := []; req_timeout := None |}].
split; [done|]. by apply Forall_singleton.
+ destruct (bool_decide _); [|apply IH].
unfold GitHubIngester.or_return.
destruct (Hrec (entry_path item) w) as (l1 & Hl1 & HP1).
destruct (recurse (entry_path item) w) as [[sub| |] w1] eqn:Hsub;
simpl in Hl1; subst w1.
* destruct (IH (documents ++ sub) (l1 ++ w)) as (l2 & -> & HP2).
exists (l2 ++ l1). split; [by rewrite <- app_assoc|].
by apply Forall_app.
* by exists l1.
* by exists l1.
Qed.

Lemma get_docs_directory_adds fuel path w :
exists later,
snd (GitHubIngester._get_docs_directory (S fuel) self path w)
= later ++ EvGet DirListing (listing_request self path) :: w /\
Forall P later.
Proof.
revert path w. induction fuel as [|fuel IH]; intros path w;
rewrite get_docs_directory_unfold; cbv zeta.
- destruct (http_get _ _) as [r|]; [|by exists []].
destruct (bool_decide _); [by exists []|].
destruct (_ && _); [by exists []|].
destruct (json_listing (body r)) as [items|]; [|by exists []].
apply for_items_adds. intros p w1. by exists [].
- destruct (http_get _ _) as [r|]; [|by exists []].
destruct (bool_decide _); [by exists []|].
destruct (_ && _); [by exists []|].
destruct (json_listing (body r)) as [items|]; [|by exists []].
apply for_items_adds. intros p w1.
destruct (IH p w1) as (later & -> & Hl).
exists (later ++ [EvGet DirListing (listing_request self p)]).
split; [by rewrite <- app_assoc|].
apply Forall_app. split; [done|]. by apply Forall_singleton.
Qed.
End Added.

Lemma get_docs_directory_extends fuel self path w :
exists later,
snd (GitHubIngester._get_docs_directory (S fuel) self path w)
= later ++ EvGet DirListing (listing_request self path) :: w.
Proof.
destruct (get_docs_directory_adds (fun _ => True) self
(fun _ => I) (fun _ => I) fuel path w) as (later & Hl & _).
by exists later.
Qed.

(** The loop at a subdirectory entry. *)
Lemma for_items_dir recurse self item rest documents w :
entry_type item = lit "dir" ->
GitHubIngester.for_items recurse self (item :: rest) documents w
= GitHubIngester.or_return documents (recurse (entry_path item))
(fun sub => GitHubIngester.for_items recurse self rest
  (documents ++ sub)) w.
Proof.
intros Hdir. simpl. unfold GitHubIngester.is_docs_file.
rewrite Hdir. reflexivity.
Qed.

Lemma get_all_docs_after_failed_readme fuel self w :
call_fails w (readme_request self) ->
GitHubIngester.get_all_docs fuel self w
= GitHubIngester._get_docs_directory fuel self (lit "docs")
(EvGet ReadmeMeta (readme_request self) :: w).
Proof.
intros Hfail. unfold GitHubIngester.get_all_docs. unfold_monad.
rewrite (get_readme_call_fails self w Hfail).
unfold GitHubIngester._get_wiki_pages. unfold_monad.
by destruct (GitHubIngester._get_docs_directory fuel self _ _)
as [[ds| |] w'].
Qed.
(** [_get_readme] sends the metadata request with the timeout and, when it
gets that far, the download request without one. *)
Lemma get_readme_adds self :
adds_only timeout_as_sited (GitHubIngester._get_readme self).
Proof.
intros w. unfold GitHubIngester._get_readme. unfold_monad.
unfold requests_get, raise_for_status, strftime.
destruct (http_get w _) as [r|].
2:{ eexists [_]. split; [reflexivity|]. by apply Forall_singleton. }
destruct (_ && _); unfold_monad.
{ eexists [_]. split; [reflexivity|]. by apply Forall_singleton. }
destruct (json_readme (body r)) as [info|].
2:{ eexists [_]. split; [reflexivity|]. by apply Forall_singleton. }
destruct (http_get _ _) as [r2|];
(eexists [_; _]; split; [reflexivity|]; by repeat constructor).
Qed.

Lemma github_get_all_docs_adds fuel self :
adds_only timeout_as_sited (GitHubIngester.get_all_docs fuel self).
Proof.
intros w. unfold GitHubIngester.get_all_docs. unfold_monad.
destruct (get_readme_adds self w) as (l1 & Hl1 & HP1).
destruct (get_readme_total self w) as (o & w1 & Hr).
rewrite Hr in Hl1 |- *. simpl in Hl1. subst w1.
unfold GitHubIngester._get_wiki_pages. unfold_monad.
assert (Hdocs : exists l2,
snd (GitHubIngester._get_docs_directory fuel self (lit "docs")
 (l1 ++ w)) = l2 ++ l1 ++ w /\ Forall timeout_as_sited l2).
{ destruct fuel as [|fuel]; [by exists []|].
destruct (get_docs_directory_adds timeout_as_sited self
(fun _ => eq_refl) (fun _ => eq_refl) fuel (lit "docs")
(l1 ++ w)) as (l2 & Hl2 & HP2).
exists (l2 ++ [EvGet DirListing (listing_request self (lit "docs"))]).
split; [by rewrite <- app_assoc|].
apply Forall_app. split; [done|]. by apply Forall_singleton. }
destruct Hdocs as (l2 & Hl2 & HP2).
destruct (GitHubIngester._get_docs_directory fuel self _ _)
as [[ds| |] w2]; simpl in Hl2; subst w2;
(exists (l2 ++ l1); split;
[simpl; by rewrite <- app_assoc|by apply Forall_app]).
Qed.
End Repository.

(** C8.  When the readme API call fails (the transport fails or the answer
    has an error status), [_get_readme] catches the failure and returns
    nothing, the wiki step contributes the empty list, and the repository
    fetch is exactly the documentation-directory step run after that one
    request: it returns the documents of that step and no others, it does
    not raise, and (given fuel for one call) it sends the listing request of
    the [docs] directory. *)
Theorem readme_failure_leaves_docs_directory `{Env} :
  forall (self : GitHubIngester.t) (fuel : nat) (w : World),
    call_fails w (readme_request self) ->
    let w1 := EvGet ReadmeMeta (readme_request self) :: w in
    GitHubIngester._get_readme self w = (Ok None, w1) /\
    GitHubIngester._get_wiki_pages self w1 = (Ok [], w1) /\
    GitHubIngester.get_all_docs fuel self w
    = GitHubIngester._get_docs_directory fuel self (lit "docs") w1 /\
    (forall e w', GitHubIngester.get_all_docs fuel self w <> (Raise e, w')) /\
    exists later,
      snd (GitHubIngester.get_all_docs (S fuel) self w)
      = later ++ EvGet DirListing (listing_request self (lit "docs")) :: w1.
Proof.
  intros self fuel w Hfail w1.
  split; [by apply get_readme_call_fails|]. split; [done|].
  split; [by apply get_all_docs_after_failed_readme|]. split.
  - intros e w'. rewrite get_all_docs_after_failed_readme by done.
    apply get_docs_directory_never_raises.
  - rewrite get_all_docs_after_failed_readme by done.
    apply get_docs_directory_extends.
Qed.

(** C8 at work: with the readme endpoint answering 500 the fetch of the
    fixture's repository returns the three documents of its docs
    directory. *)
Lemma readme_failure_leaves_docs_directory_witness :
  call_fails (H := Fixture.readme_down) [] (readme_request Fixture.repo) /\
  GitHubIngester.get_all_docs (H := Fixture.readme_down) 5 Fixture.repo []
  = GitHubIngester._get_docs_directory (H := Fixture.readme_down) 5
      Fixture.repo (lit "docs")
      [EvGet ReadmeMeta (readme_request Fixture.repo)] /\
  exists ds w',
    GitHubIngester.get_all_docs (H := Fixture.readme_down) 5 Fixture.repo []
    = (Ok ds, w') /\
    map title ds = [lit "guide.md"; lit "deep.markdown"; lit "api.rst"].
Proof.
  assert (Hfail : call_fails (H := Fixture.readme_down) []
                             (readme_request Fixture.repo)).
  { unfold call_fails, error_status. simpl. lia. }
  split; [exact Hfail|]. split.
  - exact (proj1 (proj2 (proj2 (readme_failure_leaves_docs_directory
                                  (H := Fixture.readme_down)
                                  Fixture.repo 5%nat [] Hfail)))).
  - vm_compute. eexists _, _. split; reflexivity.
Defined.

(** C9.  When the listing of a directory answers 404 (for the root path
    [docs] as for any other path), the documentation-directory fetch
    returns the empty list after that one request.  When the listing fails
    otherwise (the transport fails or the status is another error status),
    that directory contributes no document either, and its parent goes on
    with the entries that follow it.  No call of the fetch raises. *)
Theorem docs_directory_listing_failures `{Env} :
  forall (self : GitHubIngester.t) (fuel : nat),
    (forall path w r,
       http_get w (listing_request self path) = Some r ->
       status_code r = 404%Z ->
       GitHubIngester._get_docs_directory (S fuel) self path w
       = (Ok [], EvGet DirListing (listing_request self path) :: w)) /\
    (forall path w,
       call_fails w (listing_request self path) ->
       GitHubIngester._get_docs_directory (S fuel) self path w
       = (Ok [], EvGet DirListing (listing_request self path) :: w)) /\
    (forall item rest documents w,
       entry_type item = lit "dir" ->
       call_fails w (listing_request self (entry_path item)) ->
       GitHubIngester.for_items
         (GitHubIngester._get_docs_directory (S fuel) self) self
         (item :: rest) documents w
       = GitHubIngester.for_items
           (GitHubIngester._get_docs_directory (S fuel) self) self
           rest documents
           (EvGet DirListing (listing_request self (entry_path item)) :: w)) /\
    (forall path w e w',
       GitHubIngester._get_docs_directory fuel self path w <> (Raise e, w')).
Proof.
  intros self fuel.
  split; [intros; by eapply get_docs_directory_404|].
  split; [intros; by apply get_docs_directory_call_fails|].
  split; [|intros path; apply get_docs_directory_never_raises].
  intros item rest documents w Hdir Hfail.
  rewrite for_items_dir by done. unfold GitHubIngester.or_return.
  rewrite (get_docs_directory_call_fails fuel self _ w Hfail).
  by rewrite app_nil_r.
Qed.

(** C9 at work: a repository without a docs directory gives no document
    and the fetch ends normally; and when only the listing of the
    subdirectory fails, the files of the docs directory before and after it
    are still returned. *)
Lemma docs_directory_listing_failures_witness :
  GitHubIngester._get_docs_directory (H := Fixture.no_docs) 5 Fixture.repo
    (lit "docs") []
  = (Ok [], [EvGet DirListing (listing_request Fixture.repo (lit "docs"))]) /\
  exists ds w',
    GitHubIngester._get_docs_directory (H := Fixture.sub_down) 5 Fixture.repo
      (lit "docs") [] = (Ok ds, w') /\
    map title ds = [lit "guide.md"; lit "api.rst"].
Proof.
  split.
  - apply (proj1 (docs_directory_listing_failures (H := Fixture.no_docs)
                    Fixture.repo 4%nat) (lit "docs") []
             {| status_code := 404; body := Fixture.docs_url |});
      reflexivity.
  - vm_compute. eexists _, _. split; reflexivity.
Defined.

(** ** C4: the timeout of the requests *)

Lemma crawl_event_timeout allowed new :
  Forall (crawl_event allowed) new -> Forall timeout_as_sited new.
Proof.
  intros Hall. eapply Forall_impl; [exact Hall|].
  intros [site rq|ms]; simpl; [|done].
  intros (-> & [-> | ->] & _); reflexivity.
Qed.

(** C4 fails on the code.  The requests for page content, for link
    discovery, for the readme metadata and for a directory listing pass a
    timeout of 10, but the two download requests, for the readme and for a
    docs file, pass none: in every run each request has the timeout of its
    call site, and the fetch of the fixture's repository shows both kinds. *)
Theorem download_requests_pass_no_timeout `{Env} :
  (forall self fuel w,
     exists later,
       snd (GitHubIngester.get_all_docs fuel self w) = later ++ w /\
       Forall timeout_as_sited later) /\
  (forall self fuel w ds self' w',
     ReadTheDocsIngester.get_all_docs fuel self w = (Ok (ds, self'), w') ->
     exists later, w' = later ++ w /\ Forall timeout_as_sited later) /\
  (forall self fuel w ds self' w',
     WebsiteIngester.get_all_docs fuel self w = (Ok (ds, self'), w') ->
     exists later, w' = later ++ w /\ Forall timeout_as_sited later) /\
  timeout_of_site ReadmeDownload = None /\
  timeout_of_site FileDownload = None /\
  exists ds w',
    GitHubIngester.get_all_docs (H := Fixture.all_ok) 5 Fixture.repo []
    = (Ok ds, w') /\
    length ds = 4%nat /\
    omap (fun e => match e with
                   | EvGet site rq => Some (site, req_timeout rq)
                   | EvSleep _ => None
                   end) (rev w')
    = [(ReadmeMeta, Some 10%Z); (ReadmeDownload, None);
       (DirListing, Some 10%Z); (FileDownload, None);
       (DirListing, Some 10%Z); (FileDownload, None);
       (FileDownload, None)].
Proof.
  split; [intros self fuel w; apply github_get_all_docs_adds|].
  split.
  { intros self fuel w ds self' w' Hrun.
    apply rtd_get_all_docs_inv in Hrun as (f & Hr & _).
    destruct (rtd_reaches_inv self w f w' Hr)
      as [_ (_ & new & Htr & Hev & _)].
    exists new. split; [exact Htr|]. by eapply crawl_event_timeout. }
  split.
  { intros self fuel w ds self' w' Hrun.
    apply web_get_all_docs_inv in Hrun as (f & Hr & _).
    destruct (web_reaches_inv self w f w' Hr)
      as [_ (_ & new & Htr & Hev & _)].
    exists new. split; [exact Htr|]. by eapply crawl_event_timeout. }
  split; [done|]. split; [done|].
  vm_compute. eexists _, _. split; [reflexivity|]. split; reflexivity.
Qed.

(** ** C5: the content root *)

Lemma head_filter_spec (P : node -> bool) (l : list node) :
  match head (filter (fun n => P n = true) l) with
  | Some n => exists before after,
                l = before ++ n :: after /\ P n = true /\
                Forall (fun m => P m = false) before
  | None => Forall (fun m => P m = false) l
  end.
Proof.
  induction l as [|x l IH]; simpl; [constructor|].
  rewrite filter_cons. destruct (decide (P x = true)) as [Hx|Hx]; simpl.
  - exists [], l. split; [done|]. split; [done|constructor].
  - apply not_true_is_false in Hx.
    destruct (head (filter _ l)) as [n|].
    + destruct IH as (before & after & -> & Hn & Hb).
      exists (x :: before), after. split; [done|]. split; [done|].
      by constructor.
    + by constructor.
Qed.

Lemma find_spec P s :
  match find P s with
  | Some n => first_match P s n
  | None => no_match P s
  end.
Proof.
  pose proof (head_filter_spec P (soup_descendants s)) as Hh.
  unfold find, find_all, first_match, no_match. exact Hh.
Qed.

Lemma first_match_not_no_match P s n :
  first_match P s n -> no_match P s -> False.
Proof.
  intros (before & after & Hs & Hn & _) Hno. unfold no_match in Hno.
  rewrite Hs in Hno. apply Forall_app in Hno as [_ Hno].
  apply Forall_cons in Hno as [Hn' _]. congruence.
Qed.

Lemma first_match_unique P s n m :
  first_match P s n -> first_match P s m -> n = m.
Proof.
  intros (b1 & a1 & H1 & Hn & Hb1) (b2 & a2 & H2 & Hm & Hb2).
  rewrite H1 in H2. clear H1. revert b2 H2 Hb2.
  induction Hb1 as [|x b1 Hx _ IH]; intros b2 H2 Hb2.
  - destruct Hb2 as [|y b2 Hy _]; simpl in H2.
    + by injection H2.
    + injection H2 as -> _. congruence.
  - destruct Hb2 as [|y b2 Hy Hb2]; simpl in H2.
    + injection H2 as -> _. congruence.
    + injection H2 as _ H2. by apply (IH b2).
Qed.

Lemma find_first_match P s n : find P s = Some n <-> first_match P s n.
Proof.
  pose proof (find_spec P s) as Hf. destruct (find P s) as [m|].
  - split; [by intros [= <-]|].
    intros Hn. f_equal. by eapply first_match_unique.
  - split; [done|]. intros Hn. destruct (first_match_not_no_match _ _ _ Hn Hf).
Qed.

Lemma find_no_match P s : find P s = None <-> no_match P s.
Proof.
  pose proof (find_spec P s) as Hf. destruct (find P s) as [m|].
  - split; [done|]. intros Hno.
    destruct (first_match_not_no_match _ _ _ Hf Hno).
  - done.
Qed.

Lemma find_first_of_spec tests s :
  (forall n, find_first_of tests s = Some n <-> by_priority tests s n) /\
  (find_first_of tests s = None <-> Forall (fun P => no_match P s) tests).
Proof.
  induction tests as [|P tests [IHs IHn]]; simpl.
  - split; [done|]. split; [constructor|done].
  - pose proof (find_spec P s) as Hf.
    destruct (find P s) as [m|] eqn:Hfind; simpl.
    + split.
      * intros n. split.
        -- intros [= <-]. by left.
        -- intros [Hn | [Hno _]].
           ++ f_equal. by eapply first_match_unique.
           ++ destruct (first_match_not_no_match _ _ _ Hf Hno).
      * split; [done|]. intros Hall. apply Forall_cons in Hall as [Hno _].
        destruct (first_match_not_no_match _ _ _ Hf Hno).
    + split.
      * intros n. rewrite IHs. split; [by right|].
        intros [Hn | [_ Hn]]; [|done].
        destruct (first_match_not_no_match _ _ _ Hn Hf).
      * rewrite IHn. split; [by constructor|].
        intros Hall. by apply Forall_cons in Hall as [_ Hall].
Qed.

Lemma rtd_main_content_tests s :
  ReadTheDocsIngester.main_content s = find_first_of rtd_tests s.
Proof.
  unfold ReadTheDocsIngester.main_content, rtd_tests, soup_body. simpl.
  repeat (destruct (find _ s); [reflexivity|]; simpl). reflexivity.
Qed.

Lemma web_main_content_tests s :
  WebsiteIngester.main_content s = find_first_of web_tests s.
Proof.
  unfold WebsiteIngester.main_content, web_tests, soup_body. simpl.
  repeat (destruct (find _ s); [reflexivity|]; simpl). reflexivity.
Qed.

Lemma startswith_spec s p : startswith s p = true <-> exists b, s = p ++ b.
Proof.
  revert s. induction p as [|a p IH]; intros s; simpl.
  - split; [intros _; by exists s|done].
  - destruct s as [|c s].
    + split; [done|]. by intros [b Hb].
    + rewrite andb_true_iff, N.eqb_eq, IH. split.
      * intros [-> [b ->]]. by exists b.
      * intros [b [= -> ->]]. split; [done|by exists b].
Qed.

(** [str_contains] finds a block of equal code points: the case of a letter
    matters. *)
Lemma str_contains_spec k s : str_contains k s = true <-> occurs_in k s.
Proof.
  unfold occurs_in. induction s as [|c s IH]; simpl.
  - rewrite orb_false_r, startswith_spec. split.
    + intros [b Hb]. by exists [], b.
    + intros (a & b & Hab). destruct a; [by exists b|done].
  - rewrite orb_true_iff, startswith_spec, IH. split.
    + intros [[b Hb] | (a & b & ->)].
      * by exists [], b.
      * by exists (c :: a), b.
    + intros (a & b & Hab). destruct a as [|x a]; simpl in Hab.
      * left. by exists b.
      * injection Hab as -> ->. right. by exists a, b.
Qed.

Lemma re_search_any_spec keywords s :
  re_search_any keywords s = true <->
  exists k, k ∈ keywords /\ occurs_in k s.
Proof.
  unfold re_search_any. rewrite existsb_exists. split.
  - intros (k & Hin & Hk). exists k. split; [by apply list_elem_of_In|].
    by apply str_contains_spec.
  - intros (k & Hin & Hk). exists k. split; [by apply list_elem_of_In|].
    by apply str_contains_spec.
Qed.

Lemma class_matches_spec keywords nm attrs cs :
  class_matches keywords (Tag nm attrs cs) = true <->
  exists v k t,
    dict_get (lit "class") attrs = Some v /\
    k ∈ keywords /\
    (t ∈ split_ws v \/ t = join (lit " ") (split_ws v)) /\
    occurs_in k t.
Proof.
  simpl. destruct (dict_get (lit "class") attrs) as [v|].
  2:{ split; [done|]. by intros (v & k & t & ? & _). }
  rewrite orb_true_iff, existsb_exists, re_search_any_spec. split.
  - intros [(t & Ht & Hk) | (k & Hk & Hocc)].
    + apply re_search_any_spec in Hk as (k & Hk & Hocc).
      exists v, k, t. split; [done|]. split; [done|].
      split; [left; by apply list_elem_of_In|done].
    + exists v, k, (join (lit " ") (split_ws v)). auto.
  - intros (v' & k & t & [= <-] & Hk & [Ht | ->] & Hocc).
    + left. exists t. split; [by apply list_elem_of_In|].
      apply re_search_any_spec. eauto.
    + right. eauto.
Qed.

Section ContentOfRoot.
Context `{Env}.

Lemma raise_for_status_ok r w :
~ error_status (status_code r) -> raise_for_status r w = (Ok tt, w).
Proof.
intros Hok. unfold raise_for_status.
destruct (_ && _) eqn:E; [|done].
apply andb_true_iff in E as [Hlo Hhi].
apply Z.leb_le in Hlo. apply Z.ltb_lt in Hhi. by destruct Hok.
Qed.

Lemma rtd_scrape_page_content u w r n :
http_get w (page_request u) = Some r ->
~ error_status (status_code r) ->
ReadTheDocsIngester.main_content
(decompose_all ReadTheDocsIngester.removed_tags (html_parser (body r)))
= Some n ->
exists d,
ReadTheDocsIngester._scrape_page u w
= (Ok d, EvGet ScrapePage (page_request u) :: w) /\
content d = re_sub_nl3 (get_text [NL] n).
Proof.
intros Hget Hok Hmain. unfold ReadTheDocsIngester._scrape_page.
unfold_monad. unfold requests_get. fold (page_request u). rewrite Hget.
rewrite raise_for_status_ok by done. rewrite Hmain. unfold strftime.
eexists. split; reflexivity.
Qed.

Lemma web_scrape_page_content u w r :
http_get w (page_request u) = Some r ->
~ error_status (status_code r) ->
exists d,
WebsiteIngester._scrape_page u w
= (Ok d, EvGet ScrapePage (page_request u) :: w) /\
content d
= match WebsiteIngester.main_content
    (decompose_all WebsiteIngester.removed_tags
                   (html_parser (body r))) with
| Some n => re_sub_nl3 (get_text [NL] n)
| None => []
end.
Proof.
intros Hget Hok. unfold WebsiteIngester._scrape_page.
unfold_monad. unfold requests_get. fold (page_request u). rewrite Hget.
rewrite raise_for_status_ok by done. unfold strftime.
eexists. split; [reflexivity|]. simpl.
by destruct (WebsiteIngester.main_content _).
Qed.

(** The doc-site extractor has no guard for a page without a root: it
raises, and the crawl loop drops the page. *)
Lemma rtd_scrape_page_without_root u w r :
http_get w (page_request u) = Some r ->
~ error_status (status_code r) ->
ReadTheDocsIngester.main_content
(decompose_all ReadTheDocsIngester.removed_tags (html_parser (body r)))
= None ->
ReadTheDocsIngester._scrape_page u w
= (Raise AttributeError, EvGet ScrapePage (page_request u) :: w).
Proof.
intros Hget Hok Hmain. unfold ReadTheDocsIngester._scrape_page.
unfold_monad. unfold requests_get. fold (page_request u). rewrite Hget.
rewrite raise_for_status_ok by done. by rewrite Hmain.
Qed.
End ContentOfRoot.

(** C5, as amended.  After the chrome is removed the extractor takes as
    content root the first match, in document order, of the first test that
    any node of the page passes.  The tests of the doc-site variant are, in
    order: a [div] whose role attribute is [main], a [main] element, an
    [article] element, a [div] whose class attribute holds one of
    [content], [document], [body], the [body] element.  The tests of the
    website variant are: a [main] element, an [article] element, a [div]
    whose class attribute holds one of [content], [main], [article],
    [body], the [body] element; it has no test for the role.  A class
    attribute holds a keyword when the keyword occurs, code point for code
    point and so in the same letter case, in one of its tokens or in its
    tokens joined by spaces.  The content of the document is the text of the
    root with its runs of newlines collapsed; in the website variant a page
    without any root gives a document with empty content, and no error. *)
Theorem main_content_root_by_priority `{Env} :
  (forall s n,
     ReadTheDocsIngester.main_content s = Some n <-> by_priority rtd_tests s n) /\
  (forall s,
     ReadTheDocsIngester.main_content s = None <->
     Forall (fun P => no_match P s) rtd_tests) /\
  (forall s n,
     WebsiteIngester.main_content s = Some n <-> by_priority web_tests s n) /\
  (forall s,
     WebsiteIngester.main_content s = None <->
     Forall (fun P => no_match P s) web_tests) /\
  (forall keywords nm attrs cs,
     class_matches keywords (Tag nm attrs cs) = true <->
     exists v k t,
       dict_get (lit "class") attrs = Some v /\
       k ∈ keywords /\
       (t ∈ split_ws v \/ t = join (lit " ") (split_ws v)) /\
       occurs_in k t) /\
  (forall u w r n,
     http_get w (page_request u) = Some r ->
     ~ error_status (status_code r) ->
     ReadTheDocsIngester.main_content
       (decompose_all ReadTheDocsIngester.removed_tags (html_parser (body r)))
     = Some n ->
     exists d,
       ReadTheDocsIngester._scrape_page u w
       = (Ok d, EvGet ScrapePage (page_request u) :: w) /\
       content d = re_sub_nl3 (get_text [NL] n)) /\
  (forall u w r,
     http_get w (page_request u) = Some r ->
     ~ error_status (status_code r) ->
     exists d,
       WebsiteIngester._scrape_page u w
       = (Ok d, EvGet ScrapePage (page_request u) :: w) /\
       content d
       = match WebsiteIngester.main_content
               (decompose_all WebsiteIngester.removed_tags
                              (html_parser (body r))) with
         | Some n => re_sub_nl3 (get_text [NL] n)
         | None => []
         end).
Proof.
  split; [intros s n; rewrite rtd_main_content_tests;
          apply find_first_of_spec|].
  split; [intros s; rewrite rtd_main_content_tests;
          apply find_first_of_spec|].
  split; [intros s n; rewrite web_main_content_tests;
          apply find_first_of_spec|].
  split; [intros s; rewrite web_main_content_tests;
          apply find_first_of_spec|].
  split; [apply class_matches_spec|].
  split; [apply rtd_scrape_page_content|apply web_scrape_page_content].
Qed.

(** C5 as stated fails on the code.  A [div] of class [Content] is the root
    by the claim (letter case ignored) but not in the code, which takes the
    body.  A [div] with the main role is the root by the claim in both
    variants, but the website variant has no such test and takes the body.
    A [section] of class [content] is the root by the claim (any element),
    but the code tests the class of [div] elements only. *)
Lemma main_content_counterexample :
  ReadTheDocsIngester.main_content Fixture.capital_class_page
  <> claimed_main_content ReadTheDocsIngester.content_keywords
       Fixture.capital_class_page /\
  WebsiteIngester.main_content Fixture.main_role_page
  <> claimed_main_content WebsiteIngester.content_keywords
       Fixture.main_role_page /\
  ReadTheDocsIngester.main_content Fixture.section_page
  <> claimed_main_content ReadTheDocsIngester.content_keywords
       Fixture.section_page /\
  WebsiteIngester.main_content Fixture.section_page
  <> claimed_main_content WebsiteIngester.content_keywords
       Fixture.section_page.
Proof.
  repeat split; intros Heq; vm_compute in Heq; discriminate.
Qed.

(** C5 at work: on the home page of the fixture the root is the [main]
    element, found by the first test of the website variant, and the
    content is its text. *)
Lemma main_content_root_by_priority_witness :
  let s := decompose_all WebsiteIngester.removed_tags Fixture.home_page in
  let root := Tag (lit "main") []
                [Text (lit "Hello" ++ [NL; NL; NL; NL] ++ lit "World")] in
  WebsiteIngester.main_content s = Some root /\
  by_priority web_tests s root /\
  exists d,
    WebsiteIngester._scrape_page (H := Fixture.all_ok) (lit "http://d") []
    = (Ok d, [EvGet ScrapePage (page_request (lit "http://d"))]) /\
    content d = lit "Hello" ++ [NL; NL] ++ lit "World".
Proof.
  intros s root.
  assert (Hroot : WebsiteIngester.main_content s = Some root)
    by (vm_compute; reflexivity).
  split; [exact Hroot|]. split.
  - exact (proj1 (proj1 (proj2 (proj2 (main_content_root_by_priority
                                         (H := Fixture.all_ok)))) s root)
             Hroot).
  - destruct (proj2 (proj2 (proj2 (proj2 (proj2 (proj2
                (main_content_root_by_priority (H := Fixture.all_ok)))))))
                (lit "http://d") []
                {| status_code := 200; body := lit "http://d" |}
                eq_refl) as (d & Hrun & Hcontent).
    + unfold error_status. simpl. lia.
    + exists d. split; [exact Hrun|]. rewrite Hcontent. vm_compute. reflexivity.
Defined.

(** ** C7: persistence *)

(** *** Integers *)

Lemma nzhead_not_D0 d d' : Decimal.nzhead d <> Decimal.D0 d'.
Proof. induction d; simpl; try discriminate. exact IHd. Qed.

(** The decimal digits of a positive number do not start with a zero. *)
Lemma to_uint_head p d : Pos.to_uint p <> Decimal.D0 d.
Proof.
  intros Hd.
  assert (Hnorm : Decimal.unorm (Pos.to_uint p) = Pos.to_uint p).
  { rewrite <- DecimalPos.Unsigned.to_of, DecimalPos.Unsigned.of_to.
    reflexivity. }
  rewrite Hd in Hnorm. unfold Decimal.unorm in Hnorm. simpl in Hnorm.
  destruct (Decimal.nzhead d) eqn:Hn.
  - injection Hnorm as <-.
    by apply (DecimalPos.Unsigned.to_uint_nonzero p).
  - exact (nzhead_not_D0 _ _ Hn).
  - discriminate.
  - discriminate.
  - discriminate.
  - discriminate.
  - discriminate.
  - discriminate.
  - discriminate.
  - discriminate.
  - discriminate.
Qed.

Lemma digit_of_ends rest c :
  ends_value (c :: rest) -> digit_of c = None.
Proof. intros [-> | ->]; reflexivity. Qed.

Lemma scan_digits_uint d rest :
  ends_value rest -> scan_digits (uint_chars d ++ rest) = (d, rest).
Proof.
  intros Hrest. induction d; simpl; try (rewrite IHd; reflexivity).
  destruct rest as [|c rest]; [done|]. simpl.
  by rewrite (digit_of_ends rest c).
Qed.

Lemma scan_natural_uint d rest :
  ends_value rest -> d <> Decimal.Nil ->
  (forall d', d = Decimal.D0 d' -> d' = Decimal.Nil) ->
  scan_natural (uint_chars d ++ rest) = Some (d, rest).
Proof.
  intros Hrest Hnil Hzero. unfold scan_natural.
  destruct d as [|d|d|d|d|d|d|d|d|d|d]; [done|..];
    try (rewrite scan_digits_uint by done; reflexivity).
  rewrite (Hzero d eq_refl). reflexivity.
Qed.

Lemma to_int_cases z :
  exists d, d <> Decimal.Nil /\
            (forall d', d = Decimal.D0 d' -> d' = Decimal.Nil) /\
            (Z.to_int z = Decimal.Pos d \/ Z.to_int z = Decimal.Neg d).
Proof.
  destruct z as [|p|p]; simpl.
  - exists Decimal.zero. split; [done|]. split; [|by left].
    by intros d' [= <-].
  - exists (Pos.to_uint p).
    split; [apply DecimalPos.Unsigned.to_uint_nonnil|]. split; [|by left].
    intros d' Hd. by destruct (to_uint_head p d').
  - exists (Pos.to_uint p).
    split; [apply DecimalPos.Unsigned.to_uint_nonnil|]. split; [|by right].
    intros d' Hd. by destruct (to_uint_head p d').
Qed.

Lemma uint_chars_head d c s : uint_chars d = c :: s -> 48 <= c <= 57.
Proof. destruct d; simpl; intros [= <- _]; lia. Qed.

Lemma scan_int_repr z rest :
  ends_value rest -> scan_int (int_repr z ++ rest) = Some (z, rest).
Proof.
  intros Hrest. unfold int_repr.
  destruct (to_int_cases z) as (d & Hnil & Hzero & [Hz | Hz]);
    rewrite Hz; unfold scan_int.
  - destruct (uint_chars d ++ rest) as [|c s] eqn:Hs.
    + destruct d; [done|discriminate..].
    + assert (Hc : c <> 45).
      { destruct d; [done|..]; simpl in Hs; injection Hs as <- _;
          discriminate. }
      replace (match c :: s with
               | 45 :: r => (true, r)
               | _ => (false, c :: s)
               end) with (false, c :: s).
      2:{ destruct c as [|p]; [done|].
          do 6 (destruct p as [p|p|]; try done). }
      rewrite <- Hs, scan_natural_uint by done.
      rewrite <- Hz, DecimalZ.of_to.
      destruct rest as [|c' rest']; [done|].
      destruct Hrest as [-> | ->]; reflexivity.
  - change ((45 :: uint_chars d) ++ rest) with (45 :: (uint_chars d ++ rest)).
    cbv iota beta. rewrite scan_natural_uint by done.
    rewrite <- Hz, DecimalZ.of_to.
    destruct rest as [|c' rest']; [done|].
    destruct Hrest as [-> | ->]; reflexivity.
Qed.
(** *** Strings *)

(** Reading back what the encoder writes for one character. *)
Lemma scanstring_escape_char c fuel t :
  scanstring (S fuel) (escape_char c ++ t)
  = match scanstring fuel t with
    | Some (s, rest) => Some (c :: s, rest)
    | None => None
    end.
Proof.
  unfold escape_char.
  destruct (c =? QUOTE) eqn:E1; [apply N.eqb_eq in E1; by subst c|].
  destruct (c =? BACKSLASH) eqn:E2; [apply N.eqb_eq in E2; by subst c|].
  destruct (c =? 10) eqn:E3; [apply N.eqb_eq in E3; by subst c|].
  destruct (c =? 13) eqn:E4; [apply N.eqb_eq in E4; by subst c|].
  destruct (c =? 9) eqn:E5; [apply N.eqb_eq in E5; by subst c|].
  destruct (c =? 8) eqn:E6; [apply N.eqb_eq in E6; by subst c|].
  destruct (c =? 12) eqn:E7; [apply N.eqb_eq in E7; by subst c|].
  destruct (c <? 32) eqn:E8.
  - apply N.ltb_lt in E8.
    assert (Hc : c = 0 \/ c = 1 \/ c = 2 \/ c = 3 \/ c = 4 \/ c = 5 \/ c = 6
                 \/ c = 7 \/ c = 8 \/ c = 9 \/ c = 10 \/ c = 11 \/ c = 12
                 \/ c = 13 \/ c = 14 \/ c = 15 \/ c = 16 \/ c = 17 \/ c = 18
                 \/ c = 19 \/ c = 20 \/ c = 21 \/ c = 22 \/ c = 23 \/ c = 24
                 \/ c = 25 \/ c = 26 \/ c = 27 \/ c = 28 \/ c = 29 \/ c = 30
                 \/ c = 31) by lia.
    repeat (destruct Hc as [-> | Hc]; [reflexivity|]). subst c. reflexivity.
  - simpl. rewrite E1, E2, E8. reflexivity.
Qed.

Lemma scanstring_escaped s fuel rest :
  (length s < fuel)%nat ->
  scanstring fuel (flat_map escape_char s ++ QUOTE :: rest) = Some (s, rest).
Proof.
  revert fuel. induction s as [|c s IH]; intros fuel Hfuel.
  - destruct fuel; [simpl in Hfuel; lia|]. reflexivity.
  - destruct fuel; [simpl in Hfuel; lia|].
    change (flat_map escape_char (c :: s))
      with (escape_char c ++ flat_map escape_char s).
    rewrite <- app_assoc, scanstring_escape_char, IH; [done|].
    simpl in Hfuel. lia.
Qed.

Lemma escape_char_length c : (1 <= length (escape_char c))%nat.
Proof. unfold escape_char. repeat case_match; simpl; lia. Qed.

Lemma flat_map_escape_length s :
  (length s <= length (flat_map escape_char s))%nat.
Proof.
  induction s as [|c s IH]; simpl; [lia|].
  rewrite length_app. pose proof (escape_char_length c). lia.
Qed.

(** A string value, and an object key, read back from the encoder's
    output. *)
Lemma scanstring_basestring s rest :
  scanstring (length (flat_map escape_char s ++ QUOTE :: rest))
             (flat_map escape_char s ++ QUOTE :: rest)
  = Some (s, rest).
Proof.
  apply scanstring_escaped. rewrite length_app. simpl.
  pose proof (flat_map_escape_length s). lia.
Qed.
(** *** Values *)

(** Induction on a value with its items. *)
Lemma json_induction (P : json -> Prop) :
  P JNull -> (forall b, P (JBool b)) -> (forall z, P (JInt z)) ->
  (forall s, P (JStr s)) ->
  (forall xs, Forall P xs -> P (JArr xs)) ->
  (forall ms, Forall (fun kv => P (snd kv)) ms -> P (JObj ms)) ->
  forall v, P v.
Proof.
  intros Hnull Hbool Hint Hstr Harr Hobj. fix IH 1.
  intros [|b|z|s|xs|ms]; [done..| |].
  - apply Harr. induction xs as [|x xs IHxs]; constructor; [apply IH|done].
  - apply Hobj. induction ms as [|[k x] ms IHms]; constructor;
      [apply IH|done].
Qed.

Lemma encode_arr level x xs :
  encode level (JArr (x :: xs))
  = [91] ++ newline_indent (S level) ++ encode (S level) x ++
    encode_more_items (S level) xs ++ newline_indent level ++ [93].
Proof.
  simpl. do 6 f_equal.
  induction xs as [|y xs IH]; [done|]. simpl. do 5 f_equal. exact IH.
Qed.

Lemma encode_obj level k x ms :
  encode level (JObj ((k, x) :: ms))
  = [123] ++ newline_indent (S level) ++ encode_basestring k ++
    key_separator ++ encode (S level) x ++
    encode_more_members (S level) ms ++ newline_indent level ++ [125].
Proof.
  simpl. do 10 f_equal.
  induction ms as [|[k' y] ms IH]; [done|]. simpl. do 9 f_equal. exact IH.
Qed.

Lemma json_size_arr xs : json_size (JArr xs) = S (items_size xs).
Proof. reflexivity. Qed.

Lemma json_size_obj ms : json_size (JObj ms) = S (members_size ms).
Proof. reflexivity. Qed.

Lemma skip_ws_spaces n s : skip_ws (repeat 32 n ++ s) = skip_ws s.
Proof. induction n as [|n IH]; [done|]. exact IH. Qed.

Lemma skip_ws_newline_indent level s :
  skip_ws (newline_indent level ++ s) = skip_ws s.
Proof. unfold newline_indent. apply (skip_ws_spaces (2 * level)). Qed.

Lemma int_repr_head z :
  exists c s, int_repr z = c :: s /\ (c = 45 \/ 48 <= c <= 57).
Proof.
  unfold int_repr.
  destruct (to_int_cases z) as (d & Hnil & _ & [-> | ->]).
  - destruct (uint_chars d) as [|c s] eqn:Hd.
    + by destruct d.
    + exists c, s. split; [done|]. right. by eapply uint_chars_head.
  - by exists 45, (uint_chars d); auto.
Qed.

(** The first character the encoder writes for a value is not white space
    and closes neither an array nor an object. *)
Lemma encode_head level v :
  exists c s, encode level v = c :: s /\
              json_ws c = false /\ c <> 93 /\ c <> 125.
Proof.
  destruct v as [|[|]|z|t|[|x xs]|[|[k x] ms]];
    try (eexists _, _; split; [reflexivity|by repeat split]).
  destruct (int_repr_head z) as (c & s & Hz & Hc). exists c, s.
  split; [exact Hz|]. unfold json_ws.
  destruct Hc as [-> | Hc]; [by repeat split|].
  repeat split; try lia.
  repeat (apply orb_false_iff; split); apply N.eqb_neq; lia.
Qed.

Lemma skip_ws_encode level v rest :
  skip_ws (encode level v ++ rest) = encode level v ++ rest.
Proof.
  destruct (encode_head level v) as (c & s & -> & Hws & _). simpl.
  by rewrite Hws.
Qed.
(** The decoder, one step unfolded. *)
Lemma scan_items_S fuel s :
  scan_items (S fuel) s
  = match scan_value fuel s with
    | None => None
    | Some (x, rest) =>
        match skip_ws rest with
        | [] => None
        | c :: rest' =>
            if c =? 44 then
              match scan_items fuel (skip_ws rest') with
              | Some (xs, rest'') => Some (x :: xs, rest'')
              | None => None
              end
            else if c =? 93 then Some ([x], rest')
            else None
        end
    end.
Proof. reflexivity. Qed.

Lemma scan_members_S fuel r :
  scan_members (S fuel) (QUOTE :: r)
  = match scanstring (length r) r with
    | None => None
    | Some (k, rest) =>
        match skip_ws rest with
        | [] => None
        | c :: rest' =>
            if c =? 58 then
              match scan_value fuel (skip_ws rest') with
              | None => None
              | Some (x, rest'') =>
                  match skip_ws rest'' with
                  | [] => None
                  | c' :: r3 =>
                      if c' =? 44 then
                        match scan_members fuel (skip_ws r3) with
                        | Some (ms, r4) => Some ((k, x) :: ms, r4)
                        | None => None
                        end
                      else if c' =? 125 then Some ([(k, x)], r3)
                      else None
                  end
              end
            else None
        end
    end.
Proof. reflexivity. Qed.

Lemma scan_value_arr fuel r :
  scan_value (S fuel) (91 :: r)
  = match skip_ws r with
    | [] => None
    | c' :: rest =>
        if c' =? 93 then Some (JArr [], rest)
        else match scan_items fuel (c' :: rest) with
             | Some (xs, rest') => Some (JArr xs, rest')
             | None => None
             end
    end.
Proof. reflexivity. Qed.

Lemma scan_value_obj fuel r :
  scan_value (S fuel) (123 :: r)
  = match skip_ws r with
    | [] => None
    | c' :: rest =>
        if c' =? 125 then Some (JObj [], rest)
        else match scan_members fuel (c' :: rest) with
             | Some (ms, rest') => Some (JObj ms, rest')
             | None => None
             end
    end.
Proof. reflexivity. Qed.

Lemma scan_value_str fuel r :
  scan_value (S fuel) (QUOTE :: r)
  = match scanstring (length r) r with
    | Some (t, rest) => Some (JStr t, rest)
    | None => None
    end.
Proof. reflexivity. Qed.

Lemma scan_value_int fuel c s :
  c = 45 \/ 48 <= c <= 57 ->
  scan_value (S fuel) (c :: s)
  = match scan_int (c :: s) with
    | Some (z, rest) => Some (JInt z, rest)
    | None => None
    end.
Proof.
  intros Hc.
  assert (H34 : (c =? QUOTE) = false) by (apply N.eqb_neq; unfold QUOTE; lia).
  assert (H123 : (c =? 123) = false) by (apply N.eqb_neq; lia).
  assert (H91 : (c =? 91) = false) by (apply N.eqb_neq; lia).
  assert (Hn : (110 =? c) = false) by (apply N.eqb_neq; lia).
  assert (Ht : (116 =? c) = false) by (apply N.eqb_neq; lia).
  assert (Hf : (102 =? c) = false) by (apply N.eqb_neq; lia).
  cbn [scan_value]. rewrite H34, H123, H91.
  change (startswith (c :: s) (lit "null"))
    with ((110 =? c) && startswith s (lit "ull")).
  change (startswith (c :: s) (lit "true"))
    with ((116 =? c) && startswith s (lit "rue")).
  change (startswith (c :: s) (lit "false"))
    with ((102 =? c) && startswith s (lit "alse")).
  by rewrite Hn, Ht, Hf.
Qed.

Lemma ends_value_skip_ws c s : ends_value (c :: s) -> c = 44 \/ c = NL.
Proof. done. Qed.

(** The items of an array after the opening bracket, read back. *)
Lemma scan_items_encoded xs :
  Forall reads_back xs ->
  forall x, reads_back x ->
  forall level fuel rest,
    (items_size (x :: xs) <= fuel)%nat ->
    scan_items fuel
      (encode (S level) x ++ encode_more_items (S level) xs ++
       newline_indent level ++ 93 :: rest)
    = Some (x :: xs, rest).
Proof.
  induction 1 as [|y ys Hy _ IH]; intros x Hx level fuel rest Hfuel;
    (destruct fuel as [|fuel]; [simpl in Hfuel; lia|]);
    rewrite scan_items_S.
  - rewrite (Hx (S level) fuel); [|simpl in Hfuel; lia|by right].
    cbn [encode_more_items app].
    rewrite skip_ws_newline_indent. reflexivity.
  - rewrite (Hx (S level) fuel); [|simpl in Hfuel; lia|by left].
    cbn [encode_more_items]. unfold item_separator at 1.
    rewrite <- !app_assoc.
    change (skip_ws ((44 :: newline_indent (S level)) ++ ?t))
      with (44 :: newline_indent (S level) ++ t).
    cbn [N.eqb Pos.eqb]. rewrite skip_ws_newline_indent, skip_ws_encode.
    rewrite (IH y Hy level fuel rest); [done|]. simpl in Hfuel |- *. lia.
Qed.
Lemma scan_key k t :
  scanstring (length ((flat_map escape_char k ++ [QUOTE]) ++ t))
             ((flat_map escape_char k ++ [QUOTE]) ++ t)
  = Some (k, t).
Proof.
  rewrite <- app_assoc. apply scanstring_basestring.
Qed.

(** The members of an object after the opening brace, read back. *)
Lemma scan_members_encoded ms :
  Forall (fun kv => reads_back (snd kv)) ms ->
  forall k x, reads_back x ->
  forall level fuel rest,
    (members_size ((k, x) :: ms) <= fuel)%nat ->
    scan_members fuel
      (encode_basestring k ++ key_separator ++ encode (S level) x ++
       encode_more_members (S level) ms ++
       newline_indent level ++ 125 :: rest)
    = Some ((k, x) :: ms, rest).
Proof.
  induction 1 as [|[k' y] ms Hy _ IH]; intros k x Hx level fuel rest Hfuel;
    (destruct fuel as [|fuel]; [simpl in Hfuel; lia|]);
    unfold encode_basestring;
    change ((QUOTE :: flat_map escape_char k ++ [QUOTE]) ++ ?t)
      with (QUOTE :: (flat_map escape_char k ++ [QUOTE]) ++ t);
    rewrite scan_members_S, scan_key;
    change (skip_ws (key_separator ++ ?t)) with (58 :: 32 :: t);
    cbn [N.eqb Pos.eqb];
    change (skip_ws (32 :: ?t)) with (skip_ws t);
    rewrite skip_ws_encode.
  - rewrite (Hx (S level) fuel); [|simpl in Hfuel; lia|by right].
    cbn [encode_more_members app].
    rewrite skip_ws_newline_indent. reflexivity.
  - rewrite (Hx (S level) fuel); [|simpl in Hfuel; lia|by left].
    cbn [encode_more_members]. unfold item_separator at 1.
    rewrite <- !app_assoc.
    change (skip_ws ((44 :: newline_indent (S level)) ++ ?t))
      with (44 :: newline_indent (S level) ++ t).
    cbn [N.eqb Pos.eqb]. rewrite skip_ws_newline_indent.
    change (skip_ws (encode_basestring k' ++ ?t))
      with (encode_basestring k' ++ t).
    simpl in Hy.
    rewrite (IH k' y Hy level fuel rest); [done|]. simpl in Hfuel |- *. lia.
Qed.

(** Every value is read back from what the encoder writes for it. *)
Lemma encode_reads_back v : reads_back v.
Proof.
  induction v as [|b|z|s|xs IH|ms IH] using json_induction;
    intros level fuel rest Hfuel Hrest;
    (destruct fuel as [|fuel]; [simpl in Hfuel; lia|]).
  - reflexivity.
  - by destruct b.
  - destruct (int_repr_head z) as (c & s & Hz & Hc).
    cbn [encode]. rewrite Hz. change ((c :: s) ++ rest) with (c :: s ++ rest).
    rewrite scan_value_int by done.
    change (c :: s ++ rest) with ((c :: s) ++ rest). rewrite <- Hz.
    by rewrite scan_int_repr.
  - cbn [encode]. unfold encode_basestring.
    change ((QUOTE :: flat_map escape_char s ++ [QUOTE]) ++ rest)
      with (QUOTE :: (flat_map escape_char s ++ [QUOTE]) ++ rest).
    by rewrite scan_value_str, scan_key.
  - destruct IH as [|x xs Hx Hxs]; [reflexivity|].
    rewrite encode_arr, <- !app_assoc.
    change ([91] ++ ?t) with (91 :: t). rewrite scan_value_arr.
    rewrite skip_ws_newline_indent, skip_ws_encode.
    destruct (encode_head (S level) x) as (c & s & Hxs' & _ & Hc & _).
    rewrite Hxs'. change ((c :: s) ++ ?t) with (c :: s ++ t).
    cbv beta iota. rewrite (proj2 (N.eqb_neq c 93) Hc).
    change (c :: s ++ ?t) with ((c :: s) ++ t). rewrite <- Hxs'.
    change ([93] ++ rest) with (93 :: rest).
    rewrite (scan_items_encoded xs Hxs x Hx level fuel rest); [done|].
    rewrite json_size_arr in Hfuel. lia.
  - destruct IH as [|[k x] ms Hx Hms]; [reflexivity|].
    rewrite encode_obj, <- !app_assoc.
    change ([123] ++ ?t) with (123 :: t). rewrite scan_value_obj.
    rewrite skip_ws_newline_indent.
    change (skip_ws (encode_basestring k ++ ?t))
      with (QUOTE :: (flat_map escape_char k ++ [QUOTE]) ++ t).
    cbn [N.eqb Pos.eqb].
    change (QUOTE :: (flat_map escape_char k ++ [QUOTE]) ++ ?t)
      with (encode_basestring k ++ t).
    change ([125] ++ rest) with (125 :: rest).
    rewrite (scan_members_encoded ms Hms k x Hx level fuel rest); [done|].
    rewrite json_size_obj in Hfuel. lia.
Qed.
(** *** The whole text *)

Lemma items_size_le_length level xs :
  Forall (fun x => forall l, (json_size x <= length (encode l x))%nat) xs ->
  (items_size xs <= length (encode_more_items level xs))%nat.
Proof.
  induction 1 as [|x xs Hx _ IH]; [simpl; lia|].
  cbn [items_size encode_more_items]. rewrite !length_app.
  assert (1 <= length (item_separator level))%nat by (simpl; lia).
  specialize (Hx level). lia.
Qed.

Lemma members_size_le_length level ms :
  Forall (fun kv => forall l,
            (json_size (snd kv) <= length (encode l (snd kv)))%nat) ms ->
  (members_size ms <= length (encode_more_members level ms))%nat.
Proof.
  induction 1 as [|[k x] ms Hx _ IH]; [simpl; lia|].
  cbn [members_size encode_more_members]. rewrite !length_app.
  assert (1 <= length (item_separator level))%nat by (simpl; lia).
  specialize (Hx level). simpl in Hx. lia.
Qed.

(** The text of a value is at least as long as the fuel reading it takes. *)
Lemma json_size_le_length v level :
  (json_size v <= length (encode level v))%nat.
Proof.
  revert level.
  induction v as [|b|z|s|xs IH|ms IH] using json_induction; intros level.
  - simpl. lia.
  - destruct b; simpl; lia.
  - destruct (int_repr_head z) as (c & s & Hz & _). simpl. rewrite Hz.
    simpl. lia.
  - simpl. lia.
  - destruct IH as [|x xs Hx Hxs]; [simpl; lia|].
    rewrite encode_arr, json_size_arr. simpl items_size.
    rewrite !length_app. cbn [length].
    pose proof (items_size_le_length (S level) xs Hxs).
    specialize (Hx (S level)). lia.
  - destruct IH as [|[k x] ms Hx Hms]; [simpl; lia|].
    rewrite encode_obj, json_size_obj. simpl members_size.
    rewrite !length_app. cbn [length].
    pose proof (members_size_le_length (S level) ms Hms).
    specialize (Hx (S level)). simpl in Hx. lia.
Qed.

(** Reading a dump back gives the value dumped. *)
Lemma json_loads_dumps v : json_loads (json_dumps v) = Some v.
Proof.
  unfold json_loads, json_dumps.
  rewrite <- (app_nil_r (encode 0 v)) at 2. rewrite skip_ws_encode.
  rewrite (encode_reads_back v 0%nat (S (length (encode 0 v))) []); [done| |done].
  pose proof (json_size_le_length v 0). lia.
Qed.

(** *** What the file takes *)

Lemma ascii_encodable c : c < 128 -> utf8_encodable c = true.
Proof.
  intros Hc. unfold utf8_encodable. apply orb_true_iff. left.
  apply N.ltb_lt. lia.
Qed.

Lemma lit_encodable s : str_encodable (lit s).
Proof.
  unfold str_encodable, lit. apply Forall_forall. intros c Hc.
  apply list_elem_of_fmap in Hc as (a & -> & _).
  unfold utf8_encodable. apply orb_true_iff. left. apply N.ltb_lt.
  pose proof (N_ascii_bounded a). lia.
Qed.

Lemma hex_digit_small n : n < 16 -> hex_digit n < 128.
Proof. intros Hn. unfold hex_digit. destruct (n <? 10); lia. Qed.

(** The encoder writes a character as itself or in ASCII. *)
Lemma escape_char_chars c :
  Forall (fun x => x = c \/ x < 128) (escape_char c).
Proof.
  assert (Hpair : forall e, e < 128 ->
            Forall (fun x => x = c \/ x < 128) [BACKSLASH; e]).
  { intros e He. apply Forall_cons_2; [right; unfold BACKSLASH; lia|].
    apply Forall_cons_2; [by right|apply Forall_nil_2]. }
  unfold escape_char.
  destruct (c =? QUOTE); [apply Hpair; unfold QUOTE; lia|].
  destruct (c =? BACKSLASH); [apply Hpair; unfold BACKSLASH; lia|].
  destruct (c =? 10); [apply Hpair; lia|].
  destruct (c =? 13); [apply Hpair; lia|].
  destruct (c =? 9); [apply Hpair; lia|].
  destruct (c =? 8); [apply Hpair; lia|].
  destruct (c =? 12); [apply Hpair; lia|].
  destruct (c <? 32) eqn:E.
  2:{ apply Forall_cons_2; [by left|apply Forall_nil_2]. }
  apply N.ltb_lt in E.
  assert (c / 16 < 16) by (apply N.Div0.div_lt_upper_bound; lia).
  assert (c mod 16 < 16) by (apply N.mod_lt; lia).
  apply Forall_cons_2; [right; unfold BACKSLASH; lia|].
  apply Forall_cons_2; [right; lia|].
  apply Forall_cons_2; [right; lia|].
  apply Forall_cons_2; [right; lia|].
  apply Forall_cons_2; [right; by apply hex_digit_small|].
  apply Forall_cons_2; [right; by apply hex_digit_small|].
  apply Forall_nil_2.
Qed.

Lemma escape_char_encodable c :
  utf8_encodable c = true -> str_encodable (escape_char c).
Proof.
  intros Hc. eapply Forall_impl; [apply escape_char_chars|].
  intros x [-> | Hx]; [done|by apply ascii_encodable].
Qed.

Lemma flat_map_escape_encodable s :
  str_encodable s -> str_encodable (flat_map escape_char s).
Proof.
  induction 1 as [|c s Hc _ IH]; [constructor|]. simpl.
  apply Forall_app. split; [by apply escape_char_encodable|done].
Qed.

Lemma encode_basestring_encodable s :
  str_encodable s -> str_encodable (encode_basestring s).
Proof.
  intros Hs. unfold encode_basestring. constructor; [done|].
  apply Forall_app. split; [by apply flat_map_escape_encodable|].
  by repeat constructor.
Qed.

Lemma uint_chars_encodable d : str_encodable (uint_chars d).
Proof. induction d; simpl; by constructor. Qed.

Lemma int_repr_encodable z : str_encodable (int_repr z).
Proof.
  unfold int_repr. destruct (Z.to_int z); [|constructor; [done|]];
    apply uint_chars_encodable.
Qed.

Lemma newline_indent_encodable level : str_encodable (newline_indent level).
Proof.
  unfold newline_indent. constructor; [done|].
  induction (2 * level)%nat; simpl; by constructor.
Qed.

Lemma item_separator_encodable level : str_encodable (item_separator level).
Proof. constructor; [done|apply newline_indent_encodable]. Qed.

(** The text of a value without surrogates has no surrogate. *)
Lemma encode_encodable v :
  json_encodable v -> forall level, str_encodable (encode level v).
Proof.
  induction v as [|b|z|s|xs IH|ms IH] using json_induction; intros Hv level.
  - by repeat constructor.
  - destruct b; by repeat constructor.
  - apply int_repr_encodable.
  - by apply encode_basestring_encodable.
  - destruct IH as [|x xs Hx Hxs]; [by repeat constructor|].
    rewrite encode_arr. destruct Hv as [Hvx Hvxs].
    repeat (apply Forall_app; split);
      try apply newline_indent_encodable; try by repeat constructor.
    + by apply Hx.
    + clear Hx Hvx. induction Hxs as [|y ys Hy _ IHys]; [constructor|].
      destruct Hvxs as [Hvy Hvys]. cbn [encode_more_items].
      repeat (apply Forall_app; split);
        [apply item_separator_encodable|by apply Hy|by apply IHys].
  - destruct IH as [|[k x] ms Hx Hms]; [by repeat constructor|].
    rewrite encode_obj. destruct Hv as (Hk & Hvx & Hvms).
    repeat (apply Forall_app; split);
      try apply newline_indent_encodable; try by repeat constructor.
    + by apply encode_basestring_encodable.
    + by apply Hx.
    + clear Hx Hvx Hk. induction Hms as [|[k' y] ys Hy _ IHys]; [constructor|].
      destruct Hvms as (Hk' & Hvy & Hvys). cbn [encode_more_members].
      repeat (apply Forall_app; split);
        [apply item_separator_encodable
        |by apply encode_basestring_encodable
        |by repeat constructor
        |by apply Hy|by apply IHys].
Qed.

Lemma forallb_encodable s :
  str_encodable s -> forallb utf8_encodable s = true.
Proof. induction 1 as [|c s Hc _ IH]; simpl; [done|]. by rewrite Hc, IH. Qed.

Lemma to_dict_encodable d :
  document_encodable d -> json_encodable (to_dict d).
Proof.
  intros (Hs & Hu & Ht & Hc & Hm). simpl.
  repeat (split; [first [apply lit_encodable | done]|]).
  split; [|done]. clear -Hm.
  induction Hm as [|[k v] ms [Hk Hv] _ IH]; simpl; [done|].
  split; [done|]. split; [by destruct v|done].
Qed.

Lemma documents_encodable ds :
  Forall document_encodable ds -> json_encodable (JArr (map to_dict ds)).
Proof.
  induction 1 as [|d ds Hd _ IH]; simpl; [done|].
  split; [by apply to_dict_encodable|done].
Qed.
Lemma to_dict_records ds : Forall2 is_record_of ds (map to_dict ds).
Proof.
  induction ds as [|d ds IH]; constructor; [|done].
  by eexists.
Qed.

Lemma escape_char_literal c : 127 < c -> escape_char c = [c].
Proof.
  intros Hc. unfold escape_char.
  repeat (match goal with
          | |- context [?x =? ?y] =>
              rewrite (proj2 (N.eqb_neq x y)) by (unfold QUOTE, BACKSLASH; lia)
          end).
  by rewrite (proj2 (N.ltb_ge c 32)) by lia.
Qed.

(** C7, as amended.  For documents whose text holds no surrogate code
    point, [save_documents] ends normally; afterwards the destination holds
    the dump, whatever it held before, and every other file is as it was;
    reading the dump back gives an array with one object per document, in
    the order of the documents, each with the keys [source], [url],
    [title], [content], [metadata] in that order and with the document's
    own values for the first four.  A character above the ASCII range is
    written as itself, never as an escape. *)
Theorem save_documents_round_trip :
  forall (documents : list Document) (output_file : str) (fs : filesystem),
    Forall document_encodable documents ->
    exists text objects,
      save_documents documents output_file fs
      = Ok (<[output_file := text]> fs) /\
      (<[output_file := text]> fs) !! output_file = Some text /\
      (forall other, other <> output_file ->
                     (<[output_file := text]> fs) !! other = fs !! other) /\
      json_loads text = Some (JArr objects) /\
      length objects = length documents /\
      Forall2 is_record_of documents objects /\
      objects = map to_dict documents /\
      forall c, 127 < c -> escape_char c = [c].
Proof.
  intros documents output_file fs Hdocs.
  exists (json_dumps (JArr (map to_dict documents))), (map to_dict documents).
  split.
  { unfold save_documents.
    rewrite forallb_encodable; [done|].
    apply encode_encodable. by apply documents_encodable. }
  split; [apply lookup_insert_eq|].
  split; [intros other Hne; by apply lookup_insert_ne|].
  split; [apply json_loads_dumps|].
  split; [apply length_map|].
  split; [apply to_dict_records|].
  split; [done|apply escape_char_literal].
Qed.

(** C7 as stated fails for text with a lone surrogate, which a Python
    string can hold: the UTF-8 file refuses it and [save_documents] raises
    instead of leaving an artifact that reads back. *)
Lemma save_documents_surrogate_counterexample :
  save_documents [Fixture.surrogate_doc] (lit "documents.json") ∅
  = Raise UnicodeEncodeError.
Proof. vm_compute. reflexivity. Qed.

(** C7 at work: two documents with accents, an emoji, quotes, a tab and
    newlines, saved over an older artifact and read back. *)
Lemma save_documents_round_trip_witness :
  Forall document_encodable [Fixture.cafe_doc; Fixture.plain_doc] /\
  exists text objects,
    save_documents [Fixture.cafe_doc; Fixture.plain_doc]
                   (lit "documents.json")
                   {[ lit "documents.json" := lit "[]" ]}
    = Ok (<[lit "documents.json" := text]>
            {[ lit "documents.json" := lit "[]" ]}) /\
    json_loads text = Some (JArr objects) /\
    length objects = 2%nat /\
    Forall2 is_record_of [Fixture.cafe_doc; Fixture.plain_doc] objects.
Proof.
  assert (Hdocs : Forall document_encodable
                         [Fixture.cafe_doc; Fixture.plain_doc]).
  { repeat constructor. }
  split; [exact Hdocs|].
  destruct (save_documents_round_trip
              [Fixture.cafe_doc; Fixture.plain_doc] (lit "documents.json")
              {[ lit "documents.json" := lit "[]" ]} Hdocs)
    as (text & objects & Hsave & _ & _ & Hload & Hlen & Hrec & _).
  exists text, objects. repeat split; assumption.
Defined.

(** The two extractors on a page without any element: the doc-site one
    raises on the missing root, the website one gives an empty content. *)
Example blank_page_doc_site :
  @ReadTheDocsIngester._scrape_page Fixture.blank_pages (lit "http://d") []
  = (Raise AttributeError,
     [EvGet ScrapePage (page_request (lit "http://d"))]).
Proof. vm_compute. reflexivity. Qed.

Example blank_page_website :
  exists d,
    fst (@WebsiteIngester._scrape_page Fixture.blank_pages (lit "http://d") [])
    = Ok d /\ content d = [] /\ title d = lit "d".
Proof. eexists. vm_compute. repeat split. Qed.

(** Without a network a crawl ends with no document, after one request. *)
Example offline_crawl_is_empty :
  exists self',
    @ReadTheDocsIngester.get_all_docs Fixture.offline 5
      (ReadTheDocsIngester.__init__ (lit "http://d/") 3) []
    = (Ok ([], self'),
       [EvGet ScrapePage (page_request (lit "http://d"))]).
Proof. eexists. vm_compute. reflexivity. Qed.

(** * Further properties of the code *)

(** ** The string helpers *)

Lemma lstrip_slash_spec s :
  exists k, s = repeat 47 k ++ lstrip_slash s /\
            head (lstrip_slash s) <> Some 47.
Proof.
  induction s as [|c s (k & Hs & Hh)]; [by exists O|]. simpl.
  destruct (c =? 47) eqn:E.
  - apply N.eqb_eq in E. subst c. exists (S k).
    split; [simpl; by f_equal|done].
  - exists O. split; [done|]. simpl. intros [= ->].
    by rewrite N.eqb_refl in E.
Qed.

Lemma last_rev_head {A} (l : list A) : last (rev l) = head l.
Proof. destruct l as [|x l]; [done|]. simpl. apply last_snoc. Qed.

Lemma rstrip_slash_spec s :
  exists k, s = rstrip_slash s ++ repeat 47 k /\
            last (rstrip_slash s) <> Some 47.
Proof.
  unfold rstrip_slash.
  destruct (lstrip_slash_spec (rev s)) as (k & Hs & Hh).
  exists k. split.
  - rewrite <- (rev_involutive s), Hs at 1.
    rewrite rev_app_distr. f_equal. apply rev_repeat.
  - by rewrite last_rev_head.
Qed.

Lemma rstrip_slash_fixed s : last s <> Some 47 -> rstrip_slash s = s.
Proof.
  intros Hl. unfold rstrip_slash.
  rewrite <- (rev_involutive s) in Hl. rewrite last_rev_head in Hl.
  destruct (rev s) as [|c r] eqn:E; simpl in *.
  - by rewrite <- (rev_involutive s), E.
  - destruct (c =? 47) eqn:Ec.
    + apply N.eqb_eq in Ec. by subst c.
    + by rewrite <- E, rev_involutive.
Qed.

(** X1.  The doc-site ingester stores its base url without the slashes it
    ends with: the stored url is the given one less a run of final slashes,
    it does not end with a slash, a url that does not end with a slash is
    stored as it is, and one more final slash makes no difference to the
    ingester. *)
Theorem base_url_drops_final_slashes :
  forall (u : str) (mp : Z),
    let self := ReadTheDocsIngester.__init__ u mp in
    (exists k, u = ReadTheDocsIngester.base_url self ++ repeat 47 k) /\
    last (ReadTheDocsIngester.base_url self) <> Some 47 /\
    (last u = Some 47 \/
     ReadTheDocsIngester.base_url self = u) /\
    ReadTheDocsIngester.__init__ (u ++ lit "/") mp = self.
Proof.
  intros u mp self. simpl.
  destruct (rstrip_slash_spec u) as (k & Hk & Hl).
  split; [by exists k|]. split; [done|]. split.
  - destruct (decide (last u = Some 47)) as [|Hn]; [by left|right].
    by apply rstrip_slash_fixed.
  - unfold self, ReadTheDocsIngester.__init__. f_equal.
    unfold rstrip_slash. rewrite rev_app_distr. reflexivity.
Qed.

(** ** Collapsing newlines, further *)

Lemma drop_nl_sublist s : sublist (drop_nl s) s.
Proof.
  induction s as [|c s IH]; simpl; [done|].
  destruct (c =? NL); [by apply sublist_cons|done].
Qed.

Lemma filter_drop_nl s :
  filter (fun c => c <> NL) (drop_nl s) = filter (fun c => c <> NL) s.
Proof.
  induction s as [|c s IH]; simpl; [done|].
  destruct (c =? NL) eqn:E; [|done].
  apply N.eqb_eq in E. subst c. rewrite filter_cons_False; [done|].
  by intros ?.
Qed.

(** A string that starts with three newlines. *)
Lemma count_nl_three s :
  (3 <= count_nl s)%nat -> exists b, s = NL :: NL :: NL :: b.
Proof.
  destruct s as [|c1 [|c2 [|c3 b]]]; simpl;
    repeat match goal with
           | |- context [?c =? NL] =>
               let E := fresh in
               destruct (c =? NL) eqn:E; [apply N.eqb_eq in E; subst c|]
           end; try lia.
  intros _. by exists b.
Qed.

Lemma re_sub_nl3_sublist s : sublist (re_sub_nl3 s) s.
Proof.
  induction s as [s IH] using str_length_ind.
  destruct s as [|c r]; [by simp re_sub_nl3|].
  rewrite re_sub_nl3_cons.
  destruct (3 <=? count_nl (c :: r))%nat eqn:E.
  - apply Nat.leb_le in E.
    destruct (count_nl_three _ E) as (b & Hb). injection Hb as -> ->.
    change (drop_nl (NL :: NL :: b)) with (drop_nl b).
    apply sublist_cons, sublist_skip, sublist_skip.
    transitivity (drop_nl b); [|apply drop_nl_sublist].
    apply IH. pose proof (drop_nl_length b). simpl. lia.
  - apply sublist_skip, IH. simpl. lia.
Qed.

Lemma re_sub_nl3_keeps_text s :
  filter (fun c => c <> NL) (re_sub_nl3 s) = filter (fun c => c <> NL) s.
Proof.
  induction s as [s IH] using str_length_ind.
  destruct s as [|c r]; [by simp re_sub_nl3|].
  rewrite re_sub_nl3_cons.
  destruct (3 <=? count_nl (c :: r))%nat eqn:E.
  - apply Nat.leb_le in E.
    destruct (count_nl_three _ E) as (b & Hb). injection Hb as -> ->.
    change (drop_nl (NL :: NL :: b)) with (drop_nl b).
    rewrite !(filter_cons_False (fun c => c <> NL) NL) by (by intros ?).
    rewrite IH by (pose proof (drop_nl_length b); simpl; lia).
    apply filter_drop_nl.
  - destruct (decide (c <> NL)).
    + rewrite !filter_cons_True by done. f_equal. apply IH. simpl. lia.
    + rewrite !filter_cons_False by done. apply IH. simpl. lia.
Qed.

(** X2.  Cleaning the content only deletes newlines: the cleaned text is
    the raw text with some of its characters left out, every character
    other than a newline is kept, in order, and the text does not grow. *)
Theorem content_cleaning_only_drops_newlines :
  forall raw : str,
    sublist (re_sub_nl3 raw) raw /\
    filter (fun c => c <> NL) (re_sub_nl3 raw)
    = filter (fun c => c <> NL) raw /\
    (length (re_sub_nl3 raw) <= length raw)%nat.
Proof.
  intros raw. split; [apply re_sub_nl3_sublist|].
  split; [apply re_sub_nl3_keeps_text|].
  apply sublist_length, re_sub_nl3_sublist.
Qed.

Lemma re_sub_nl3_clean s : no_triple_newline s -> re_sub_nl3 s = s.
Proof.
  induction s as [|c r IH]; intros Hs; [by simp re_sub_nl3|].
  rewrite re_sub_nl3_cons.
  destruct (3 <=? count_nl (c :: r))%nat eqn:E.
  - apply Nat.leb_le in E. destruct (count_nl_three _ E) as (b & Hb).
    by destruct (Hs [] b).
  - f_equal. apply IH. intros a b ->. by apply (Hs (c :: a) b).
Qed.

(** X3.  Text without a run of three newlines is left as it is by the
    cleaning step, and only such text is; so cleaning a second time changes
    nothing. *)
Theorem content_cleaning_is_idempotent :
  forall raw : str,
    (re_sub_nl3 raw = raw <-> no_triple_newline raw) /\
    re_sub_nl3 (re_sub_nl3 raw) = re_sub_nl3 raw.
Proof.
  intros raw. split; [split|].
  - intros <-. apply re_sub_nl3_no_triple.
  - apply re_sub_nl3_clean.
  - apply re_sub_nl3_clean, re_sub_nl3_no_triple.
Qed.

(** ** Removing the chrome of a page *)

(** Induction on a node with its children. *)
Lemma node_induction (P : node -> Prop) :
  (forall s, P (Text s)) ->
  (forall nm attrs cs, Forall P cs -> P (Tag nm attrs cs)) ->
  forall n, P n.
Proof.
  intros Htext Htag. fix IH 1. intros [s|nm attrs cs]; [done|].
  apply Htag. induction cs as [|c cs IHcs]; constructor; [apply IH|done].
Qed.

Lemma prune_tag names nm attrs cs :
  prune names (Tag nm attrs cs) = Tag nm attrs (decompose_all names cs).
Proof.
  cbn [prune]. f_equal.
  induction cs as [|c cs IH]; [done|]. cbn [decompose_all]. by rewrite IH.
Qed.

Lemma tag_in_prune names n : tag_in names (prune names n) = tag_in names n.
Proof. destruct n as [s|nm attrs cs]; [done|]. by rewrite prune_tag. Qed.

Lemma soup_descendants_cons c s :
  soup_descendants (c :: s) = c :: descendants c ++ soup_descendants s.
Proof. reflexivity. Qed.

Lemma descendants_tag nm attrs cs :
  descendants (Tag nm attrs cs) = soup_descendants cs.
Proof. reflexivity. Qed.

Lemma decompose_all_free_aux names s :
  Forall (fun n => free_of names (descendants (prune names n))) s ->
  free_of names (soup_descendants (decompose_all names s)).
Proof.
  induction 1 as [|c s Hc Hs IH]; cbn [decompose_all]; [constructor|].
  destruct (tag_in names c) eqn:E; [done|].
  rewrite soup_descendants_cons. constructor.
  - by rewrite tag_in_prune.
  - by apply Forall_app.
Qed.

Lemma prune_free names n : free_of names (descendants (prune names n)).
Proof.
  induction n as [s|nm attrs cs IH] using node_induction; [constructor|].
  rewrite prune_tag, descendants_tag. by apply decompose_all_free_aux.
Qed.

Lemma decompose_all_free names s :
  free_of names (soup_descendants (decompose_all names s)).
Proof.
  apply decompose_all_free_aux, Forall_forall. intros n _. apply prune_free.
Qed.

Lemma decompose_all_fixed_aux names s :
  Forall (fun n => free_of names (descendants n) -> prune names n = n) s ->
  free_of names (soup_descendants s) -> decompose_all names s = s.
Proof.
  induction 1 as [|c s Hc Hs IH]; [done|].
  rewrite soup_descendants_cons. intros Hfree.
  apply Forall_cons in Hfree as [Hc' Hfree].
  apply Forall_app in Hfree as [Hd Hfree].
  cbn [decompose_all]. rewrite Hc'. f_equal; auto.
Qed.

Lemma prune_fixed names n :
  free_of names (descendants n) -> prune names n = n.
Proof.
  induction n as [s|nm attrs cs IH] using node_induction; [done|].
  rewrite prune_tag, descendants_tag. intros Hfree. f_equal.
  by apply decompose_all_fixed_aux.
Qed.

Lemma decompose_all_fixed names s :
  free_of names (soup_descendants s) -> decompose_all names s = s.
Proof.
  apply decompose_all_fixed_aux, Forall_forall. intros n _.
  apply prune_fixed.
Qed.

(** The nodes below a node of a document are nodes of the document. *)
Lemma descendants_within_aux s n :
  Forall (fun c => forall m, m ∈ descendants c ->
                             descendants m ⊆ descendants c) s ->
  n ∈ soup_descendants s -> descendants n ⊆ soup_descendants s.
Proof.
  induction 1 as [|c s Hc Hs IH]; [by intros ?%elem_of_nil|].
  rewrite soup_descendants_cons. intros Hn d Hd.
  apply elem_of_cons in Hn as [-> | Hn].
  - right. apply elem_of_app. by left.
  - right. apply elem_of_app. apply elem_of_app in Hn as [Hn | Hn].
    + left. by apply (Hc n).
    + right. by apply IH.
Qed.

Lemma descendants_within c m :
  m ∈ descendants c -> descendants m ⊆ descendants c.
Proof.
  revert m. induction c as [s|nm attrs cs IH] using node_induction;
    intros m; [by intros ?%elem_of_nil|].
  rewrite descendants_tag. by apply descendants_within_aux.
Qed.

Lemma soup_descendants_within s n :
  n ∈ soup_descendants s -> descendants n ⊆ soup_descendants s.
Proof.
  apply descendants_within_aux, Forall_forall. intros c _ m.
  apply descendants_within.
Qed.

Lemma find_elem_of P s n : find P s = Some n -> n ∈ soup_descendants s.
Proof.
  intros Hf. apply find_first_match in Hf as (before & after & Hs & _).
  rewrite Hs. apply elem_of_app. right. by left.
Qed.

Lemma find_first_of_elem_of tests s n :
  find_first_of tests s = Some n -> n ∈ soup_descendants s.
Proof.
  induction tests as [|P tests IH]; simpl; [done|].
  destruct (find P s) as [m|] eqn:Hf; simpl; [|done].
  intros [= <-]. by eapply find_elem_of.
Qed.

Lemma free_of_root names s n :
  free_of names (soup_descendants s) -> n ∈ soup_descendants s ->
  free_of names (n :: descendants n).
Proof.
  intros Hfree Hn. pose proof (soup_descendants_within s n Hn) as Hsub.
  unfold free_of in *. rewrite Forall_forall in Hfree.
  apply Forall_forall. intros d [-> | Hd]%elem_of_cons; auto.
Qed.

(** X4.  After the chrome of a page is removed no element with one of the
    removed names is left anywhere in the page, a page without such an
    element is left as it is, and removing a second time changes nothing.
    So the content root either extractor picks, and every node below it
    (every string of the content), is outside any [nav], [footer],
    [script], [style] or [aside] element, and in the website variant
    outside any [header] element as well. *)
Theorem removed_elements_leave_no_trace :
  (forall names s,
     free_of names (soup_descendants (decompose_all names s)) /\
     find_all (tag_in names) (decompose_all names s) = [] /\
     (free_of names (soup_descendants s) -> decompose_all names s = s) /\
     decompose_all names (decompose_all names s) = decompose_all names s) /\
  (forall s n,
     ReadTheDocsIngester.main_content
       (decompose_all ReadTheDocsIngester.removed_tags s) = Some n ->
     free_of ReadTheDocsIngester.removed_tags (n :: descendants n)) /\
  (forall s n,
     WebsiteIngester.main_content
       (decompose_all WebsiteIngester.removed_tags s) = Some n ->
     free_of WebsiteIngester.removed_tags (n :: descendants n)).
Proof.
  split; [|split].
  - intros names s. pose proof (decompose_all_free names s) as Hfree.
    split; [done|]. split; [|split].
    + unfold find_all. induction Hfree as [|d l Hd _ IH]; [done|].
      rewrite filter_cons_False; [done|]. by rewrite Hd.
    + apply decompose_all_fixed.
    + by apply decompose_all_fixed.
  - intros s n. rewrite rtd_main_content_tests. intros Hn.
    eapply free_of_root; [apply decompose_all_free|].
    by eapply find_first_of_elem_of.
  - intros s n. rewrite web_main_content_tests. intros Hn.
    eapply free_of_root; [apply decompose_all_free|].
    by eapply find_first_of_elem_of.
Qed.

(** X4 at work: the home page of the fixture, whose [nav] is removed. *)
Lemma removed_elements_leave_no_trace_witness :
  exists n,
    WebsiteIngester.main_content
      (decompose_all WebsiteIngester.removed_tags Fixture.home_page)
    = Some n /\
    free_of WebsiteIngester.removed_tags (n :: descendants n) /\
    find_all (tag_in WebsiteIngester.removed_tags) Fixture.home_page <> [].
Proof.
  eexists. split; [reflexivity|]. split.
  - by apply (proj2 (proj2 removed_elements_leave_no_trace)
                Fixture.home_page).
  - discriminate.
Defined.

(** ** The title of a page without a heading *)

Lemma elem_of_rev {A} (x : A) (l : list A) : x ∈ rev l <-> x ∈ l.
Proof. rewrite !list_elem_of_In. symmetry. apply in_rev. Qed.

Lemma last_segment_aux_spec acc s :
  (47 ∉ acc) ->
  exists p,
    rev acc ++ s = p ++ last_segment_aux acc s /\
    (47 ∉ last_segment_aux acc s) /\
    (p = [] \/ last p = Some 47).
Proof.
  revert acc. induction s as [|c s IH]; intros acc Hacc; simpl.
  - exists []. split; [by rewrite app_nil_r|]. split; [|by left].
    by rewrite elem_of_rev.
  - destruct (c =? 47) eqn:E.
    + apply N.eqb_eq in E. subst c.
      destruct (IH [] (not_elem_of_nil _)) as (p & Hp & Hno & Hlast).
      simpl in Hp. exists (rev acc ++ 47 :: p).
      split; [rewrite <- app_assoc; simpl; by rewrite <- Hp|].
      split; [done|]. right.
      rewrite last_app_cons.
      destruct Hlast as [-> | Hlast]; [done|].
      destruct p; [done|]. by rewrite last_cons_cons.
    + apply N.eqb_neq in E.
      destruct (IH (c :: acc)) as (p & Hp & Hno & Hlast).
      { intros [Heq | ?]%elem_of_cons; [by subst c|done]. }
      exists p. split; [|done]. rewrite <- Hp. simpl.
      by rewrite <- app_assoc.
Qed.

Lemma last_segment_spec u :
  exists p,
    u = p ++ last_segment u /\ (47 ∉ last_segment u) /\
    (p = [] \/ last p = Some 47).
Proof. apply (last_segment_aux_spec [] u), not_elem_of_nil. Qed.

(** X5.  A page with no [h1] and no [title] element gets as its title the
    part of its url after the last slash (the whole url when it has none):
    the title holds no slash, what precedes it in the url is empty or ends
    with a slash, and a url that ends with a slash gives the empty title. *)
Theorem title_of_page_without_heading :
  forall (s : soup) (u : str),
    find (tag_named (lit "h1")) s = None ->
    soup_title s = None ->
    (exists p, u = p ++ extract_title s u /\ (p = [] \/ last p = Some 47)) /\
    (47 ∉ extract_title s u) /\
    (last u = Some 47 -> extract_title s u = []).
Proof.
  intros s u Hh1 Htitle. unfold extract_title. rewrite Hh1, Htitle.
  destruct (last_segment_spec u) as (p & Hu & Hno & Hp).
  split; [by exists p|]. split; [done|].
  intros Hlast. destruct (last (last_segment u)) as [x|] eqn:Hx.
  - exfalso. rewrite Hu, last_app, Hx in Hlast. injection Hlast as ->.
    apply Hno. apply last_Some in Hx as [l ->].
    apply elem_of_app. right. by left.
  - by apply last_None in Hx.
Qed.

(** X5 at work: the leaf page of the fixture, which has neither element,
    under the url [http://d/a] and under [http://d/a/]. *)
Lemma title_of_page_without_heading_witness :
  extract_title Fixture.leaf_page (lit "http://d/a") = lit "a" /\
  extract_title Fixture.leaf_page (lit "http://d/a/") = [] /\
  (47 ∉ extract_title Fixture.leaf_page (lit "http://d/a")).
Proof.
  split; [reflexivity|]. split.
  - apply (title_of_page_without_heading Fixture.leaf_page
             (lit "http://d/a/")); reflexivity.
  - apply (title_of_page_without_heading Fixture.leaf_page
             (lit "http://d/a")); reflexivity.
Defined.

(** ** Crawling with an ingester that has crawled before *)

(** A property of the frame and the trace that every iteration keeps holds
    wherever the loop gets. *)
Lemma loop_reaches_invariant {S} (cond : S -> bool) (body : S -> M S)
    (I : S * World -> Prop) :
  (forall s w s' w',
     I (s, w) -> cond s = true -> body s w = (Ok s', w') -> I (s', w')) ->
  forall a b, loop_reaches cond body a b -> I a -> I b.
Proof.
  intros Hbody a b Hr. induction Hr as [|s w s' w' c Hc Hb _ IH]; [done|].
  intros Ha. apply IH. by eapply Hbody.
Qed.

Lemma steps_visited_mono mp allowed s s' :
  Frontier.steps mp allowed s s' ->
  Frontier.visited s ⊆ Frontier.visited s'.
Proof.
  induction 1 as [|s1 s2 s3 Hstep _ IH]; [done|].
  etrans; [by eapply step_visited_mono|done].
Qed.

(** Once the loop has run an iteration, the one url of the initial queue is
    visited, unless it is not admitted. *)
Lemma steps_head_settled mp allowed s s' u :
  Frontier.steps mp allowed s s' -> Frontier.queue s = [u] ->
  s' = s \/ u ∈ Frontier.visited s' \/ allowed u = false.
Proof.
  intros Hsteps Hq. destruct Hsteps as [|s1 s2 s3 Hstep Hsteps]; [by left|].
  right. apply steps_visited_mono in Hsteps.
  destruct Hstep as [s u' rest Hq' Hlt Hin|s u' rest Hq' Hlt Hin Hal
                    |s u' rest Hq' Hlt Hin Hal
                    |s u' rest d l Hq' Hlt Hin Hal Hu Hnl Hm];
    rewrite Hq in Hq'; injection Hq' as <- _; simpl in Hsteps.
  - left. by apply Hsteps.
  - by right.
  - left. by apply Hsteps, elem_of_union_l, elem_of_singleton.
  - left. by apply Hsteps, elem_of_union_l, elem_of_singleton.
Qed.

Section CrawlAgain.
Context `{Env}.

(** A doc-site crawl with no budget, or whose base url is visited already,
    ends at once. *)
Lemma rtd_crawl_of_settled fuel self w :
  (ReadTheDocsIngester.max_pages self <= 0)%Z \/
  ReadTheDocsIngester.base_url self
    ∈ ReadTheDocsIngester.visited_urls self ->
  ReadTheDocsIngester.get_all_docs (S fuel) self w = (Ok ([], self), w).
Proof.
  intros Hs. unfold ReadTheDocsIngester.get_all_docs.
  cbn [while_]. unfold ReadTheDocsIngester.loop_cond at 1.
  cbn [ReadTheDocsIngester.initial_frame ReadTheDocsIngester.to_visit
       ReadTheDocsIngester.documents ReadTheDocsIngester.inst length].
  change (Z.of_nat 0) with 0%Z.
  destruct (0 <? ReadTheDocsIngester.max_pages self)%Z eqn:E; [|done].
  destruct Hs as [Hs|Hs]; [apply Z.ltb_lt in E; lia|].
  unfold ReadTheDocsIngester.loop_body.
  cbn [ReadTheDocsIngester.initial_frame ReadTheDocsIngester.to_visit
       ReadTheDocsIngester.inst ReadTheDocsIngester.documents].
  rewrite decide_True by done. unfold_monad. by destruct fuel.
Qed.

(** The same for a website crawl, which also ends at once when its start
    url is outside the allow-list. *)
Lemma web_crawl_of_settled fuel self w :
  (WebsiteIngester.max_pages self <= 0)%Z \/
  WebsiteIngester.start_url self ∈ WebsiteIngester.visited_urls self \/
  WebsiteIngester.domain_allowed self (WebsiteIngester.start_url self)
  = false ->
  WebsiteIngester.get_all_docs (S fuel) self w = (Ok ([], self), w).
Proof.
  intros Hs. unfold WebsiteIngester.get_all_docs.
  cbn [while_]. unfold WebsiteIngester.loop_cond at 1.
  cbn [WebsiteIngester.initial_frame WebsiteIngester.to_visit
       WebsiteIngester.documents WebsiteIngester.inst length].
  change (Z.of_nat 0) with 0%Z.
  destruct (0 <? WebsiteIngester.max_pages self)%Z eqn:E; [|done].
  destruct Hs as [Hs|Hs]; [apply Z.ltb_lt in E; lia|].
  unfold WebsiteIngester.loop_body.
  cbn [WebsiteIngester.initial_frame WebsiteIngester.to_visit
       WebsiteIngester.inst WebsiteIngester.documents].
  destruct (decide _) as [Hin|Hin].
  - unfold_monad. by destruct fuel.
  - destruct Hs as [Hs|Hs]; [done|]. rewrite Hs. simpl.
    unfold_monad. by destruct fuel.
Qed.

Lemma web_loop_body_start_url f w f' w' :
  WebsiteIngester.loop_body f w = (Ok f', w') ->
  WebsiteIngester.start_url (WebsiteIngester.inst f')
  = WebsiteIngester.start_url (WebsiteIngester.inst f).
Proof.
  unfold WebsiteIngester.loop_body.
  destruct (WebsiteIngester.to_visit f) as [|u rest]; [done|].
  destruct (decide _); [by intros [= <- _]|].
  destruct (negb _); [by intros [= <- _]|]. unfold_monad.
  destruct (web_scrape_page_cases u w) as [(d & -> & _) | (e & ->)].
  - destruct (web_find_links_total
                (WebsiteIngester.mark_visited (WebsiteIngester.inst f) u) u
                (EvGet ScrapePage (page_request u) :: w)) as [l ->].
    unfold sleep. by intros [= <- _].
  - by intros [= <- _].
Qed.

Lemma rtd_crawl_settles fuel self w ds self' w' :
  ReadTheDocsIngester.get_all_docs fuel self w = (Ok (ds, self'), w') ->
  (ReadTheDocsIngester.max_pages self' <= 0)%Z \/
  ReadTheDocsIngester.base_url self'
    ∈ ReadTheDocsIngester.visited_urls self'.
Proof.
  intros Hrun.
  apply rtd_get_all_docs_inv in Hrun as (f & Hr & Hc & _ & <-).
  destruct (loop_reaches_steps _ _ rtd_view _ _ (rtd_config_kept self)
              (rtd_body_step self) _ _ _ _ (rtd_config_kept_init self) Hr)
    as [[Hmp Hbu] Hsteps].
  destruct (steps_head_settled _ _ _ _ (ReadTheDocsIngester.base_url self)
              Hsteps eq_refl) as [Heq | [Hin | Hal]]; [|by right; rewrite Hbu|done].
  left. unfold ReadTheDocsIngester.loop_cond in Hc.
  apply (f_equal Frontier.docs) in Heq as Hd.
  apply (f_equal Frontier.queue) in Heq as Hq. simpl in Hd, Hq.
  rewrite Hq, Hd in Hc. simpl in Hc. apply Z.ltb_ge in Hc. lia.
Qed.

Lemma web_crawl_settles fuel self w ds self' w' :
  WebsiteIngester.get_all_docs fuel self w = (Ok (ds, self'), w') ->
  (WebsiteIngester.max_pages self' <= 0)%Z \/
  WebsiteIngester.start_url self' ∈ WebsiteIngester.visited_urls self' \/
  WebsiteIngester.domain_allowed self' (WebsiteIngester.start_url self')
  = false.
Proof.
  intros Hrun.
  apply web_get_all_docs_inv in Hrun as (f & Hr & Hc & _ & <-).
  destruct (loop_reaches_steps _ _ web_view _ _ (web_config_kept self)
              (web_body_step self) _ _ _ _ (web_config_kept_init self) Hr)
    as [[Hmp Had] Hsteps].
  assert (Hsu : WebsiteIngester.start_url (WebsiteIngester.inst f)
                = WebsiteIngester.start_url self).
  { apply (loop_reaches_invariant _ _
             (fun fw => WebsiteIngester.start_url
                          (WebsiteIngester.inst (fst fw))
                        = WebsiteIngester.start_url self) ) in Hr; [done| |done].
    intros s1 w1 s2 w2 Hs1 _ Hb. simpl in *.
    by rewrite (web_loop_body_start_url _ _ _ _ Hb). }
  destruct (steps_head_settled _ _ _ _ (WebsiteIngester.start_url self)
              Hsteps eq_refl) as [Heq | [Hin | Hal]].
  - left. unfold WebsiteIngester.loop_cond in Hc.
    apply (f_equal Frontier.docs) in Heq as Hd.
    apply (f_equal Frontier.queue) in Heq as Hq. simpl in Hd, Hq.
    rewrite Hq, Hd in Hc. simpl in Hc. apply Z.ltb_ge in Hc. lia.
  - right. left. by rewrite Hsu.
  - right. right. rewrite Hsu. unfold WebsiteIngester.domain_allowed in *.
    by rewrite Had.
Qed.
End CrawlAgain.

(** X6.  An ingester of either crawler is good for one crawl.  Its visited
    set outlives the call, so a second [get_all_docs] on the same ingester
    pops the start url, finds it visited (or, as the first time, has no
    budget or finds it outside the allow-list) and returns no document: it
    sends no request, it does not sleep, and it leaves the ingester as it
    was. *)
Theorem ingester_is_single_use `{Env} :
  (forall fuel self w ds self' w',
     ReadTheDocsIngester.get_all_docs fuel self w = (Ok (ds, self'), w') ->
     forall fuel2 w2,
       ReadTheDocsIngester.get_all_docs (S fuel2) self' w2
       = (Ok ([], self'), w2)) /\
  (forall fuel self w ds self' w',
     WebsiteIngester.get_all_docs fuel self w = (Ok (ds, self'), w') ->
     forall fuel2 w2,
       WebsiteIngester.get_all_docs (S fuel2) self' w2
       = (Ok ([], self'), w2)).
Proof.
  split; intros fuel self w ds self' w' Hrun fuel2 w2.
  - by eapply rtd_crawl_of_settled, rtd_crawl_settles.
  - by eapply web_crawl_of_settled, web_crawl_settles.
Qed.

(** X6 at work: the site of the fixture gives three documents to a fresh
    ingester and none to the same ingester asked again. *)
Lemma ingester_is_single_use_witness :
  exists ds self' w',
    ReadTheDocsIngester.get_all_docs (H := Fixture.all_ok) 20
      (ReadTheDocsIngester.__init__ (lit "http://d") 10) []
    = (Ok (ds, self'), w') /\
    length ds = 3%nat /\
    ReadTheDocsIngester.get_all_docs (H := Fixture.all_ok) 20 self' w'
    = (Ok ([], self'), w').
Proof.
  pose (run := ReadTheDocsIngester.get_all_docs (H := Fixture.all_ok) 20
                 (ReadTheDocsIngester.__init__ (lit "http://d") 10) []).
  assert (Hrun : exists ds self' w',
             run = (Ok (ds, self'), w') /\ length ds = 3%nat).
  { vm_compute. eexists _, _, _. split; reflexivity. }
  destruct Hrun as (ds & self' & w' & Hrun & Hlen).
  exists ds, self', w'. split; [exact Hrun|]. split; [exact Hlen|].
  exact (proj1 (ingester_is_single_use (H := Fixture.all_ok))
           _ _ _ _ _ _ Hrun 19%nat w').
Defined.

(** X7.  A website crawl whose start url is outside the allow-list it was
    given fetches nothing: it returns no document, sends no request and
    leaves the visited set as it was.  With the allow-list left out, or
    empty, the start url is on the list. *)
Theorem website_start_outside_allow_list `{Env} :
  (forall fuel self w,
     netloc (WebsiteIngester.start_url self)
       ∉ WebsiteIngester.allowed_domains self ->
     WebsiteIngester.get_all_docs (S fuel) self w = (Ok ([], self), w)) /\
  (forall start_url max_pages allowed,
     allowed = None \/ allowed = Some [] ->
     let self := WebsiteIngester.__init__ start_url allowed max_pages in
     WebsiteIngester.allowed_domains self = [netloc start_url] /\
     WebsiteIngester.domain_allowed self start_url = true).
Proof.
  split.
  - intros fuel self w Hout. apply web_crawl_of_settled. right. right.
    unfold WebsiteIngester.domain_allowed. by apply bool_decide_eq_false_2.
  - intros start_url max_pages allowed [-> | ->]; simpl;
      (split; [done|]); unfold WebsiteIngester.domain_allowed; simpl;
      apply bool_decide_eq_true_2, list_elem_of_singleton; done.
Qed.

(** X7 at work: the site of the fixture, crawled with an allow-list that
    names another domain. *)
Lemma website_start_outside_allow_list_witness :
  WebsiteIngester.get_all_docs (H := Fixture.all_ok) 5
    (WebsiteIngester.__init__ (H := Fixture.all_ok) (lit "http://d")
       (Some [lit "x"]) 10) []
  = (Ok ([], WebsiteIngester.__init__ (H := Fixture.all_ok) (lit "http://d")
               (Some [lit "x"]) 10), []).
Proof.
  apply (proj1 (website_start_outside_allow_list (H := Fixture.all_ok))
           4%nat).
  intros Hin%list_elem_of_singleton. vm_compute in Hin. discriminate.
Defined.

(** ** What a crawl costs: requests and delays *)

Section Accounting.
Context (mp : Z) (allowed : str -> bool).



End Accounting.




(** ** The order of the documents *)




Section FetchOrder.
Context (mp : Z) (allowed : str -> bool).


End FetchOrder.




(** ** Link discovery *)

Section Links.
Context `{Env}.

Lemma str_contains_false k s :
  str_contains k s = false <-> ~ occurs_in k s.
Proof. by rewrite <- not_true_iff_false, str_contains_spec. Qed.

Lemma existsb_false {A} (f : A -> bool) (l : list A) :
  existsb f l = false <-> Forall (fun x => f x = false) l.
Proof.
  induction l as [|x l IH]; simpl.
  - split; [constructor|done].
  - rewrite orb_false_iff, IH, Forall_cons. tauto.
Qed.

Lemma rtd_keep_link_spec self v :
  ReadTheDocsIngester.keep_link self v = true <-> rtd_followed self v.
Proof.
  unfold ReadTheDocsIngester.keep_link, rtd_followed.
  rewrite !andb_true_iff, !negb_true_iff, bool_decide_eq_true.
  rewrite str_contains_false, existsb_false.
  assert (Hiff : Forall (fun x => str_contains x v = false)
                        ReadTheDocsIngester.deny_list
                 <-> Forall (fun x => ~ occurs_in x v)
                            ReadTheDocsIngester.deny_list).
  { apply Forall_iff. intros x. apply str_contains_false. }
  rewrite Hiff. tauto.
Qed.

Lemma web_keep_link_spec self v :
  WebsiteIngester.keep_link self v = true <-> web_followed self v.
Proof.
  unfold WebsiteIngester.keep_link, WebsiteIngester.domain_allowed,
    web_followed.
  rewrite andb_true_iff, negb_true_iff, bool_decide_eq_true.
  by rewrite str_contains_false.
Qed.

Lemma set_to_list_spec (l : list str) :
  set_order_law ->
  NoDup (set_to_list l) /\ forall v, v ∈ set_to_list l <-> v ∈ l.
Proof.
  intros Hlaw. split.
  - rewrite (Hlaw l). apply NoDup_remove_dups.
  - intros v. rewrite (Hlaw l). apply elem_of_remove_dups.
Qed.

Lemma rtd_find_doc_links_spec self current_url w :
  set_order_law ->
  exists l,
    ReadTheDocsIngester._find_doc_links self current_url w
    = (Ok l, EvGet FindLinks (page_request current_url) :: w) /\
    NoDup l /\
    match http_get w (page_request current_url) with
    | Some r =>
        forall v, v ∈ l <->
                  v ∈ page_links current_url r /\ rtd_followed self v
    | None => l = []
    end.
Proof.
  intros Hlaw. unfold ReadTheDocsIngester._find_doc_links. unfold_monad.
  unfold requests_get. fold (page_request current_url).
  destruct (http_get w (page_request current_url)) as [r|].
  - eexists. split; [reflexivity|].
    destruct (set_to_list_spec
                (filter (fun v => ReadTheDocsIngester.keep_link self v = true)
                        (page_links current_url r)) Hlaw) as [Hnd Hin].
    split; [exact Hnd|]. intros v. unfold page_links in *.
    rewrite Hin, list_elem_of_filter, rtd_keep_link_spec. tauto.
  - exists []. split; [reflexivity|]. split; [constructor|done].
Qed.

Lemma web_find_links_spec self current_url w :
  set_order_law ->
  exists l,
    WebsiteIngester._find_links self current_url w
    = (Ok l, EvGet FindLinks (page_request current_url) :: w) /\
    NoDup l /\
    match http_get w (page_request current_url) with
    | Some r =>
        forall v, v ∈ l <->
                  v ∈ page_links current_url r /\ web_followed self v
    | None => l = []
    end.
Proof.
  intros Hlaw. unfold WebsiteIngester._find_links. unfold_monad.
  unfold requests_get. fold (page_request current_url).
  destruct (http_get w (page_request current_url)) as [r|].
  - eexists. split; [reflexivity|].
    destruct (set_to_list_spec
                (filter (fun v => WebsiteIngester.keep_link self v = true)
                        (page_links current_url r)) Hlaw) as [Hnd Hin].
    split; [exact Hnd|]. intros v. unfold page_links in *.
    rewrite Hin, list_elem_of_filter, web_keep_link_spec. tauto.
  - exists []. split; [reflexivity|]. split; [constructor|done].
Qed.
End Links.

(** X10.  Link discovery, in either variant, sends one request for the
    page with the timeout, never raises, and returns each link once.  When
    the transport fails it returns no link.  Otherwise, whatever the status
    of the answer (the status is not checked), it returns exactly the links
    of the page that the variant follows: in the doc-site variant the links
    on the domain of the base url that hold no [#] and none of [search],
    [genindex] and [_static]; in the website variant the links on a domain
    of the allow-list that hold no [#]. *)
Theorem link_discovery_returns_followed_links `{Env} :
  set_order_law ->
  (forall self current_url w,
     exists l,
       ReadTheDocsIngester._find_doc_links self current_url w
       = (Ok l, EvGet FindLinks (page_request current_url) :: w) /\
       NoDup l /\
       match http_get w (page_request current_url) with
       | Some r =>
           forall v, v ∈ l <->
                     v ∈ page_links current_url r /\ rtd_followed self v
       | None => l = []
       end) /\
  (forall self current_url w,
     exists l,
       WebsiteIngester._find_links self current_url w
       = (Ok l, EvGet FindLinks (page_request current_url) :: w) /\
       NoDup l /\
       match http_get w (page_request current_url) with
       | Some r =>
           forall v, v ∈ l <->
                     v ∈ page_links current_url r /\ web_followed self v
       | None => l = []
       end).
Proof.
  intros Hlaw. split; intros self current_url w.
  - by apply rtd_find_doc_links_spec.
  - by apply web_find_links_spec.
Qed.

(** X10 at work: the links of the fixture's home page; the one to another
    site is left out. *)
Lemma link_discovery_returns_followed_links_witness :
  set_order_law (H := Fixture.all_ok) /\
  exists l,
    ReadTheDocsIngester._find_doc_links (H := Fixture.all_ok)
      (ReadTheDocsIngester.__init__ (lit "http://d") 10) (lit "http://d") []
    = (Ok l, [EvGet FindLinks (page_request (lit "http://d"))]) /\
    NoDup l /\
    l = [lit "http://d/a"; lit "http://d/b"].
Proof.
  assert (Hlaw : set_order_law (H := Fixture.all_ok)) by (intros l; done).
  split; [exact Hlaw|].
  destruct (proj1 (link_discovery_returns_followed_links
                     (H := Fixture.all_ok) Hlaw)
              (ReadTheDocsIngester.__init__ (lit "http://d") 10)
              (lit "http://d") []) as (l & Hrun & Hnd & _).
  exists l. split; [exact Hrun|]. split; [exact Hnd|].
  vm_compute in Hrun. by injection Hrun as <-.
Defined.

(** ** A crawl stays on the site *)

Section OnSite.
Context `{Env}.
Hypothesis law : set_order_law.

Lemma rtd_loop_body_on_site self w f w1 f' w1' :
  rtd_on_site_inv self w (f, w1) ->
  ReadTheDocsIngester.loop_body f w1 = (Ok f', w1') ->
  rtd_on_site_inv self w (f', w1').
Proof.
  intros (Hbu & Hq & Hd & Hv & new & Hw & Hev). simpl in *. subst w1.
  unfold ReadTheDocsIngester.loop_body.
  destruct (ReadTheDocsIngester.to_visit f) as [|u rest] eqn:Eq; [done|].
  apply Forall_cons in Hq as [Hu Hrest].
  assert (Hvis : forall v,
             v ∈ {[u]} ∪ ReadTheDocsIngester.visited_urls
                           (ReadTheDocsIngester.inst f) ->
             v ∈ ReadTheDocsIngester.visited_urls self \/
             rtd_on_site self v).
  { intros v [->%elem_of_singleton | Hin]%elem_of_union; [by right|auto]. }
  destruct (decide _) as [Hin|Hin].
  - intros [= <- <-]. split; [done|]. split; [done|]. split; [done|].
    split; [done|]. by exists new.
  - unfold_monad.
    destruct (rtd_scrape_page_cases u (new ++ w))
      as [(d & -> & Hud & _) | (e & ->)].
    + destruct (rtd_find_doc_links_spec
                  (ReadTheDocsIngester.mark_visited
                     (ReadTheDocsIngester.inst f) u) u
                  (EvGet ScrapePage (page_request u) :: new ++ w) law)
        as (l & -> & _ & Hl).
      unfold sleep. intros [= <- <-]. simpl.
      split; [done|]. split; [|split; [|split; [done|]]].
      * apply Forall_app. split; [done|]. apply Forall_forall.
        intros v [_ Hvl]%list_elem_of_filter. right.
        destruct (http_get _ _) as [r|]; [|by subst l; apply elem_of_nil in Hvl].
        apply Hl in Hvl as [_ Hf]. unfold rtd_followed in *. simpl in Hf.
        by rewrite <- Hbu.
      * apply Forall_app. split; [done|]. apply Forall_singleton.
        by rewrite Hud.
      * exists (EvSleep 500 :: EvGet FindLinks (page_request u)
                :: EvGet ScrapePage (page_request u) :: new).
        split; [done|]. by repeat (constructor; [done|]).
    + intros [= <- <-]. simpl. split; [done|]. split; [done|].
      split; [done|]. split; [done|].
      exists (EvGet ScrapePage (page_request u) :: new).
      split; [done|]. by constructor.
Qed.

Lemma web_loop_body_on_site self w f w1 f' w1' :
  web_on_site_inv self w (f, w1) ->
  WebsiteIngester.loop_body f w1 = (Ok f', w1') ->
  web_on_site_inv self w (f', w1').
Proof.
  intros (Hsu & Had & Hq & Hd & Hv & new & Hw & Hev). simpl in *. subst w1.
  unfold WebsiteIngester.loop_body.
  destruct (WebsiteIngester.to_visit f) as [|u rest] eqn:Eq; [done|].
  apply Forall_cons in Hq as [Hu Hrest].
  assert (Hvis : forall v,
             v ∈ {[u]} ∪ WebsiteIngester.visited_urls
                           (WebsiteIngester.inst f) ->
             v ∈ WebsiteIngester.visited_urls self \/ web_on_site self v).
  { intros v [->%elem_of_singleton | Hin]%elem_of_union; [by right|auto]. }
  destruct (decide _) as [Hin|Hin].
  { intros [= <- <-]. split; [done|]. split; [done|]. split; [done|].
    split; [done|]. split; [done|]. by exists new. }
  destruct (negb _).
  { intros [= <- <-]. split; [done|]. split; [done|]. split; [done|].
    split; [done|]. split; [done|]. by exists new. }
  unfold_monad.
  destruct (web_scrape_page_cases u (new ++ w))
    as [(d & -> & Hud & _) | (e & ->)].
  - destruct (web_find_links_spec
                (WebsiteIngester.mark_visited (WebsiteIngester.inst f) u) u
                (EvGet ScrapePage (page_request u) :: new ++ w) law)
      as (l & -> & _ & Hl).
    unfold sleep. intros [= <- <-]. simpl.
    split; [done|]. split; [done|].
    split; [|split; [|split; [done|]]].
    + apply Forall_app. split; [done|]. apply Forall_forall.
      intros v [_ Hvl]%list_elem_of_filter. right.
      destruct (http_get _ _) as [r|]; [|by subst l; apply elem_of_nil in Hvl].
      apply Hl in Hvl as [_ Hf]. unfold web_followed in *. simpl in Hf.
      by rewrite <- Had.
    + apply Forall_app. split; [done|]. apply Forall_singleton.
      by rewrite Hud.
    + exists (EvSleep 500 :: EvGet FindLinks (page_request u)
              :: EvGet ScrapePage (page_request u) :: new).
      split; [done|]. by repeat (constructor; [done|]).
  - intros [= <- <-]. simpl. split; [done|]. split; [done|].
    split; [done|]. split; [done|]. split; [done|].
    exists (EvGet ScrapePage (page_request u) :: new).
    split; [done|]. by constructor.
Qed.

Lemma rtd_crawl_on_site fuel self w ds self' w' :
  ReadTheDocsIngester.get_all_docs fuel self w = (Ok (ds, self'), w') ->
  exists new,
    w' = new ++ w /\
    Forall (requests_to (rtd_on_site self)) new /\
    Forall (fun d => rtd_on_site self (url d)) ds /\
    forall u, u ∈ ReadTheDocsIngester.visited_urls self' ->
              u ∈ ReadTheDocsIngester.visited_urls self \/
              rtd_on_site self u.
Proof.
  intros Hrun. apply rtd_get_all_docs_inv in Hrun as (f & Hr & _ & <- & <-).
  apply (loop_reaches_invariant _ _ (rtd_on_site_inv self w)) in Hr.
  - destruct Hr as (_ & _ & Hd & Hv & new & Hw & Hev). simpl in *.
    by exists new.
  - intros s1 w1 s2 w2 HI _. by apply rtd_loop_body_on_site.
  - split; [done|]. split; [by apply Forall_singleton; left|].
    split; [constructor|]. split; [by left|]. by exists [].
Qed.

Lemma web_crawl_on_site fuel self w ds self' w' :
  WebsiteIngester.get_all_docs fuel self w = (Ok (ds, self'), w') ->
  exists new,
    w' = new ++ w /\
    Forall (requests_to (web_on_site self)) new /\
    Forall (fun d => web_on_site self (url d)) ds /\
    forall u, u ∈ WebsiteIngester.visited_urls self' ->
              u ∈ WebsiteIngester.visited_urls self \/ web_on_site self u.
Proof.
  intros Hrun. apply web_get_all_docs_inv in Hrun as (f & Hr & _ & <- & <-).
  apply (loop_reaches_invariant _ _ (web_on_site_inv self w)) in Hr.
  - destruct Hr as (_ & _ & _ & Hd & Hv & new & Hw & Hev). simpl in *.
    by exists new.
  - intros s1 w1 s2 w2 HI _. by apply web_loop_body_on_site.
  - split; [done|]. split; [done|].
    split; [by apply Forall_singleton; left|].
    split; [constructor|]. split; [by left|]. by exists [].
Qed.
End OnSite.

(** X11.  A crawl stays on the site.  Every request of a doc-site crawl,
    every document it returns and every url it adds to the visited set is
    for the base url or for a url on the domain of the base url that holds
    no [#] and none of [search], [genindex] and [_static].  Every request
    of a website crawl, every document and every url it marks visited is
    for the start url or for a url on a domain of the allow-list that
    holds no [#]. *)
Theorem crawl_stays_on_site `{Env} :
  set_order_law ->
  (forall fuel self w ds self' w',
     ReadTheDocsIngester.get_all_docs fuel self w = (Ok (ds, self'), w') ->
     exists new,
       w' = new ++ w /\
       Forall (requests_to (rtd_on_site self)) new /\
       Forall (fun d => rtd_on_site self (url d)) ds /\
       forall u, u ∈ ReadTheDocsIngester.visited_urls self' ->
                 u ∈ ReadTheDocsIngester.visited_urls self \/
                 rtd_on_site self u) /\
  (forall fuel self w ds self' w',
     WebsiteIngester.get_all_docs fuel self w = (Ok (ds, self'), w') ->
     exists new,
       w' = new ++ w /\
       Forall (requests_to (web_on_site self)) new /\
       Forall (fun d => web_on_site self (url d)) ds /\
       forall u, u ∈ WebsiteIngester.visited_urls self' ->
                 u ∈ WebsiteIngester.visited_urls self \/
                 web_on_site self u).
Proof.
  intros Hlaw. split; intros fuel self w ds self' w' Hrun.
  - by eapply rtd_crawl_on_site.
  - by eapply web_crawl_on_site.
Qed.

(** X11 at work: the three documents of the fixture's site are on it. *)
Lemma crawl_stays_on_site_witness :
  set_order_law (H := Fixture.all_ok) /\
  exists ds self' w',
    ReadTheDocsIngester.get_all_docs (H := Fixture.all_ok) 20
      (ReadTheDocsIngester.__init__ (lit "http://d") 10) []
    = (Ok (ds, self'), w') /\
    length ds = 3%nat /\
    Forall (fun d => rtd_on_site (H := Fixture.all_ok)
                       (ReadTheDocsIngester.__init__ (lit "http://d") 10)
                       (url d)) ds.
Proof.
  assert (Hlaw : set_order_law (H := Fixture.all_ok)) by (intros l; done).
  split; [exact Hlaw|].
  pose (run := ReadTheDocsIngester.get_all_docs (H := Fixture.all_ok) 20
                 (ReadTheDocsIngester.__init__ (lit "http://d") 10) []).
  assert (Hrun : exists ds self' w',
             run = (Ok (ds, self'), w') /\ length ds = 3%nat).
  { vm_compute. eexists _, _, _. split; reflexivity. }
  destruct Hrun as (ds & self' & w' & Hrun & Hlen).
  exists ds, self', w'. split; [exact Hrun|]. split; [exact Hlen|].
  by destruct (proj1 (crawl_stays_on_site (H := Fixture.all_ok) Hlaw)
                 _ _ _ _ _ _ Hrun) as (new & _ & _ & Hds & _).
Defined.

(** ** The outcomes of a page fetch *)

Section PageOutcomes.
Context `{Env}.

Lemma rtd_scrape_page_outcome u w :
  ReadTheDocsIngester._scrape_page u w
  = let w1 := EvGet ScrapePage (page_request u) :: w in
    match http_get w (page_request u) with
    | None => (Raise RequestException, w1)
    | Some r =>
        if ((400 <=? status_code r) && (status_code r <? 600))%Z
        then (Raise HTTPError, w1)
        else
          let s := decompose_all ReadTheDocsIngester.removed_tags
                     (html_parser (body r)) in
          match ReadTheDocsIngester.main_content s with
          | None => (Raise AttributeError, w1)
          | Some n =>
              let content := re_sub_nl3 (get_text [NL] n) in
              (Ok {| source := lit "readthedocs";
                     url := u;
                     title := extract_title s u;
                     content := content;
                     metadata :=
                       [(lit "scraped_at", MStr (clock w1));
                        (lit "content_length",
                         MInt (Z.of_nat (length content)))] |}, w1)
          end
    end.
Proof.
  unfold ReadTheDocsIngester._scrape_page. unfold_monad.
  unfold requests_get. fold (page_request u). cbv zeta.
  destruct (http_get w (page_request u)) as [r|]; [|done].
  unfold raise_for_status. destruct (_ && _); unfold_monad; [done|].
  by destruct (ReadTheDocsIngester.main_content _).
Qed.

Lemma web_scrape_page_outcome u w :
  WebsiteIngester._scrape_page u w
  = let w1 := EvGet ScrapePage (page_request u) :: w in
    match http_get w (page_request u) with
    | None => (Raise RequestException, w1)
    | Some r =>
        if ((400 <=? status_code r) && (status_code r <? 600))%Z
        then (Raise HTTPError, w1)
        else
          let s := decompose_all WebsiteIngester.removed_tags
                     (html_parser (body r)) in
          let content :=
            re_sub_nl3 match WebsiteIngester.main_content s with
                       | Some n => get_text [NL] n
                       | None => []
                       end in
          (Ok {| source := lit "website";
                 url := u;
                 title := extract_title s u;
                 content := content;
                 metadata :=
                   [(lit "scraped_at", MStr (clock w1));
                    (lit "content_length",
                     MInt (Z.of_nat (length content)))] |}, w1)
    end.
Proof.
  unfold WebsiteIngester._scrape_page. unfold_monad.
  unfold requests_get. fold (page_request u). cbv zeta.
  destruct (http_get w (page_request u)) as [r|]; [|done].
  unfold raise_for_status. by destruct (_ && _); unfold_monad.
Qed.

Lemma error_status_test z :
  ((400 <=? z) && (z <? 600))%Z = true <-> error_status z.
Proof.
  unfold error_status. rewrite andb_true_iff, Z.leb_le, Z.ltb_lt. done.
Qed.
End PageOutcomes.

(** X12.  When a page fetch gives a document and when it raises.  The
    extractor of either variant sends one request; it raises the transport
    error when the request fails and the status error when the answer has
    a status from 400 to 599, and in no other case, but for one: the
    doc-site extractor raises an attribute error on a page that, once its
    chrome is removed, has no content root, not even a [body], where the
    website extractor gives a document with empty content.  So the website
    extractor returns a document exactly when the request is answered with
    a status outside 400 to 599, and the doc-site extractor exactly when in
    addition the page has a content root. *)
Theorem page_fetch_outcomes `{Env} :
  forall u w,
    let w1 := EvGet ScrapePage (page_request u) :: w in
    (snd (ReadTheDocsIngester._scrape_page u w) = w1 /\
     snd (WebsiteIngester._scrape_page u w) = w1) /\
    (http_get w (page_request u) = None ->
     ReadTheDocsIngester._scrape_page u w = (Raise RequestException, w1) /\
     WebsiteIngester._scrape_page u w = (Raise RequestException, w1)) /\
    (forall r,
       http_get w (page_request u) = Some r ->
       error_status (status_code r) ->
       ReadTheDocsIngester._scrape_page u w = (Raise HTTPError, w1) /\
       WebsiteIngester._scrape_page u w = (Raise HTTPError, w1)) /\
    (forall r,
       http_get w (page_request u) = Some r ->
       ~ error_status (status_code r) ->
       (exists d, WebsiteIngester._scrape_page u w = (Ok d, w1) /\
                  url d = u) /\
       match ReadTheDocsIngester.main_content
               (decompose_all ReadTheDocsIngester.removed_tags
                              (html_parser (body r))) with
       | Some n =>
           exists d, ReadTheDocsIngester._scrape_page u w = (Ok d, w1) /\
                     url d = u /\
                     content d = re_sub_nl3 (get_text [NL] n)
       | None =>
           ReadTheDocsIngester._scrape_page u w = (Raise AttributeError, w1)
       end).
Proof.
  intros u w w1.
  rewrite rtd_scrape_page_outcome, web_scrape_page_outcome. cbv zeta.
  fold w1. split; [|split; [|split]].
  - destruct (http_get w (page_request u)) as [r|]; [|done].
    destruct (_ && _); [done|]. split; [|done].
    by destruct (ReadTheDocsIngester.main_content _).
  - by intros ->.
  - intros r -> Herr. apply error_status_test in Herr. by rewrite Herr.
  - intros r -> Hok. rewrite <- error_status_test in Hok.
    apply not_true_is_false in Hok. rewrite Hok.
    split; [by eexists|].
    destruct (ReadTheDocsIngester.main_content _); [|done]. by eexists.
Qed.

(** X12 at work: a page that answers 200 without any element, on which the
    doc-site extractor raises and the website extractor returns an empty
    document. *)
Lemma page_fetch_outcomes_witness :
  ReadTheDocsIngester._scrape_page (H := Fixture.blank_pages)
    (lit "http://d") []
  = (Raise AttributeError,
     [EvGet ScrapePage (page_request (lit "http://d"))]) /\
  exists d,
    WebsiteIngester._scrape_page (H := Fixture.blank_pages)
      (lit "http://d") []
    = (Ok d, [EvGet ScrapePage (page_request (lit "http://d"))]) /\
    url d = lit "http://d".
Proof.
  assert (Hok : ~ error_status 200) by (unfold error_status; lia).
  destruct (proj2 (proj2 (proj2 (page_fetch_outcomes
                                   (H := Fixture.blank_pages)
                                   (lit "http://d") [])))
              {| status_code := 200; body := [] |} eq_refl Hok)
    as [Hweb Hrtd].
  split; [exact Hrtd|exact Hweb].
Defined.

(** ** A start page that cannot be fetched *)

Section StartPage.
Context `{Env}.

Lemma rtd_scrape_page_call_fails u w :
  call_fails w (page_request u) ->
  exists e,
    ReadTheDocsIngester._scrape_page u w
    = (Raise e, EvGet ScrapePage (page_request u) :: w).
Proof.
  unfold call_fails. rewrite rtd_scrape_page_outcome. cbv zeta.
  destruct (http_get w (page_request u)) as [r|]; [|by eexists].
  intros Herr%error_status_test. rewrite Herr. by eexists.
Qed.

Lemma web_scrape_page_call_fails u w :
  call_fails w (page_request u) ->
  exists e,
    WebsiteIngester._scrape_page u w
    = (Raise e, EvGet ScrapePage (page_request u) :: w).
Proof.
  unfold call_fails. rewrite web_scrape_page_outcome. cbv zeta.
  destruct (http_get w (page_request u)) as [r|]; [|by eexists].
  intros Herr%error_status_test. rewrite Herr. by eexists.
Qed.

Lemma rtd_crawl_start_fails fuel self w :
  (0 < ReadTheDocsIngester.max_pages self)%Z ->
  ReadTheDocsIngester.base_url self
    ∉ ReadTheDocsIngester.visited_urls self ->
  call_fails w (page_request (ReadTheDocsIngester.base_url self)) ->
  ReadTheDocsIngester.get_all_docs (S fuel) self w
  = (Ok ([], ReadTheDocsIngester.mark_visited self
               (ReadTheDocsIngester.base_url self)),
     EvGet ScrapePage (page_request (ReadTheDocsIngester.base_url self))
     :: w).
Proof.
  intros Hmp Hnew Hfail. unfold ReadTheDocsIngester.get_all_docs.
  cbn [while_]. unfold ReadTheDocsIngester.loop_cond at 1.
  cbn [ReadTheDocsIngester.initial_frame ReadTheDocsIngester.to_visit
       ReadTheDocsIngester.documents ReadTheDocsIngester.inst length].
  change (Z.of_nat 0) with 0%Z. rewrite (proj2 (Z.ltb_lt _ _) Hmp).
  unfold ReadTheDocsIngester.loop_body.
  cbn [ReadTheDocsIngester.initial_frame ReadTheDocsIngester.to_visit
       ReadTheDocsIngester.inst ReadTheDocsIngester.documents].
  rewrite decide_False by done. unfold_monad.
  destruct (rtd_scrape_page_call_fails _ _ Hfail) as [e ->].
  by destruct fuel.
Qed.

Lemma web_crawl_start_fails fuel self w :
  (0 < WebsiteIngester.max_pages self)%Z ->
  WebsiteIngester.start_url self ∉ WebsiteIngester.visited_urls self ->
  netloc (WebsiteIngester.start_url self)
    ∈ WebsiteIngester.allowed_domains self ->
  call_fails w (page_request (WebsiteIngester.start_url self)) ->
  WebsiteIngester.get_all_docs (S fuel) self w
  = (Ok ([], WebsiteIngester.mark_visited self
               (WebsiteIngester.start_url self)),
     EvGet ScrapePage (page_request (WebsiteIngester.start_url self)) :: w).
Proof.
  intros Hmp Hnew Hdom Hfail. unfold WebsiteIngester.get_all_docs.
  cbn [while_]. unfold WebsiteIngester.loop_cond at 1.
  cbn [WebsiteIngester.initial_frame WebsiteIngester.to_visit
       WebsiteIngester.documents WebsiteIngester.inst length].
  change (Z.of_nat 0) with 0%Z. rewrite (proj2 (Z.ltb_lt _ _) Hmp).
  unfold WebsiteIngester.loop_body.
  cbn [WebsiteIngester.initial_frame WebsiteIngester.to_visit
       WebsiteIngester.inst WebsiteIngester.documents].
  rewrite decide_False by done.
  assert (Hal : WebsiteIngester.domain_allowed self
                  (WebsiteIngester.start_url self) = true)
    by (by apply bool_decide_eq_true_2).
  rewrite Hal. cbn [negb]. unfold_monad.
  destruct (web_scrape_page_call_fails _ _ Hfail) as [e ->].
  by destruct fuel.
Qed.
End StartPage.

(** X13.  A crawl whose start page cannot be fetched ends there.  When the
    request for the start url fails at the transport or is answered with a
    status from 400 to 599, a crawl of either variant (with a budget, a
    start url not yet visited and, for the website variant, on the
    allow-list) returns no document after that one request: it does not
    try again, it does not sleep, and it leaves the start url marked as
    visited. *)
Theorem crawl_ends_when_start_page_fails `{Env} :
  (forall fuel self w,
     (0 < ReadTheDocsIngester.max_pages self)%Z ->
     ReadTheDocsIngester.base_url self
       ∉ ReadTheDocsIngester.visited_urls self ->
     call_fails w (page_request (ReadTheDocsIngester.base_url self)) ->
     ReadTheDocsIngester.get_all_docs (S fuel) self w
     = (Ok ([], ReadTheDocsIngester.mark_visited self
                  (ReadTheDocsIngester.base_url self)),
        EvGet ScrapePage (page_request (ReadTheDocsIngester.base_url self))
        :: w)) /\
  (forall fuel self w,
     (0 < WebsiteIngester.max_pages self)%Z ->
     WebsiteIngester.start_url self ∉ WebsiteIngester.visited_urls self ->
     netloc (WebsiteIngester.start_url self)
       ∈ WebsiteIngester.allowed_domains self ->
     call_fails w (page_request (WebsiteIngester.start_url self)) ->
     WebsiteIngester.get_all_docs (S fuel) self w
     = (Ok ([], WebsiteIngester.mark_visited self
                  (WebsiteIngester.start_url self)),
        EvGet ScrapePage (page_request (WebsiteIngester.start_url self))
        :: w)).
Proof.
  split.
  - intros. by apply rtd_crawl_start_fails.
  - intros. by apply web_crawl_start_fails.
Qed.

(** X13 at work: without a network the crawl of the fixture's site sends
    one request and returns nothing. *)
Lemma crawl_ends_when_start_page_fails_witness :
  ReadTheDocsIngester.get_all_docs (H := Fixture.offline) 5
    (ReadTheDocsIngester.__init__ (lit "http://d/") 3) []
  = (Ok ([], ReadTheDocsIngester.mark_visited
               (ReadTheDocsIngester.__init__ (lit "http://d/") 3)
               (lit "http://d")),
     [EvGet ScrapePage (page_request (lit "http://d"))]).
Proof.
  apply (proj1 (crawl_ends_when_start_page_fails (H := Fixture.offline))
           4%nat (ReadTheDocsIngester.__init__ (lit "http://d/") 3) []).
  - simpl. lia.
  - simpl. apply not_elem_of_empty.
  - exact I.
Defined.

(** ** The repository fetcher, further *)

Section RepositoryRequests.
Context `{Env}.

Lemma get_readme_github_events self :
  adds_only (github_event self) (GitHubIngester._get_readme self).
Proof.
  intros w. unfold GitHubIngester._get_readme. unfold_monad.
  unfold requests_get, raise_for_status, strftime.
  fold (readme_request self).
  destruct (http_get w _) as [r|].
  2:{ eexists [_]. split; [reflexivity|]. by apply Forall_singleton. }
  destruct (_ && _); unfold_monad.
  { eexists [_]. split; [reflexivity|]. by apply Forall_singleton. }
  destruct (json_readme (body r)) as [info|].
  2:{ eexists [_]. split; [reflexivity|]. by apply Forall_singleton. }
  destruct (http_get _ _) as [r2|];
    (eexists [_; _]; split; [reflexivity|]; by repeat constructor).
Qed.

Lemma get_all_docs_github_events fuel self :
  adds_only (github_event self) (GitHubIngester.get_all_docs fuel self).
Proof.
  intros w. unfold GitHubIngester.get_all_docs. unfold_monad.
  destruct (get_readme_github_events self w) as (l1 & Hl1 & HP1).
  destruct (get_readme_total self w) as (o & w1 & Hr).
  rewrite Hr in Hl1 |- *. simpl in Hl1. subst w1.
  unfold GitHubIngester._get_wiki_pages. unfold_monad.
  assert (Hdocs : exists l2,
             snd (GitHubIngester._get_docs_directory fuel self (lit "docs")
                    (l1 ++ w)) = l2 ++ l1 ++ w /\
             Forall (github_event self) l2).
  { destruct fuel as [|fuel]; [by exists []|].
    destruct (get_docs_directory_adds (github_event self) self
                (fun _ => eq_refl) (fun path => ex_intro _ path eq_refl)
                fuel (lit "docs") (l1 ++ w)) as (l2 & Hl2 & HP2).
    exists (l2 ++ [EvGet DirListing (listing_request self (lit "docs"))]).
    split; [by rewrite <- app_assoc|].
    apply Forall_app. split; [done|]. apply Forall_singleton.
    by exists (lit "docs"). }
  destruct Hdocs as (l2 & Hl2 & HP2).
  destruct (GitHubIngester._get_docs_directory fuel self _ _)
    as [[ds| |] w2]; simpl in Hl2; subst w2;
    (exists (l2 ++ l1); split;
     [simpl; by rewrite <- app_assoc|by apply Forall_app]).
Qed.
End RepositoryRequests.

(** X14.  The repository fetcher sends its token to the API only.  Every
    request of [get_all_docs] is the readme request or a listing request,
    which go to a url under the API base of the repository and carry the
    headers of the ingester, or a download, which carries no header at all;
    the fetcher sends no other request and never sleeps.  The headers of an
    ingester are the one [Authorization] header when a non-empty token was
    given and none otherwise. *)
Theorem github_token_goes_to_the_api_only `{Env} :
  (forall self fuel w,
     exists later,
       snd (GitHubIngester.get_all_docs fuel self w) = later ++ w /\
       Forall (github_event self) later /\
       Forall (fun e =>
                 match e with
                 | EvGet site rq =>
                     req_headers rq = [] \/
                     (req_headers rq = GitHubIngester.headers self /\
                      exists rest,
                        req_url rq
                        = GitHubIngester.api_base self ++ lit "/" ++ rest)
                 | EvSleep _ => False
                 end) later) /\
  (forall owner name c token,
     GitHubIngester.headers
       (GitHubIngester.__init__ owner name (Some (c :: token)))
     = [(lit "Authorization", lit "token " ++ c :: token)]) /\
  (forall owner name,
     GitHubIngester.headers (GitHubIngester.__init__ owner name None) = [] /\
     GitHubIngester.headers (GitHubIngester.__init__ owner name (Some []))
     = []).
Proof.
  split; [|done].
  intros self fuel w.
  destruct (get_all_docs_github_events fuel self w) as (later & Hl & Hev).
  exists later. split; [done|]. split; [done|].
  eapply Forall_impl; [exact Hev|].
  intros [[] rq|ms]; simpl; try done; try (by left).
  - intros ->. right. split; [done|]. by exists (lit "readme").
  - intros [path ->]. right. split; [done|].
    by exists (lit "contents/" ++ path).
Qed.

Lemma endswith_spec s p : endswith s p = true <-> exists a, s = a ++ p.
Proof.
  unfold endswith. rewrite startswith_spec. split.
  - intros [b Hb]. exists (rev b).
    by rewrite <- (rev_involutive s), Hb, rev_app_distr, rev_involutive.
  - intros [a ->]. exists (rev a). by rewrite rev_app_distr.
Qed.

Section RepositoryDocuments.
Context `{Env}.

Lemma is_docs_file_spec item :
  GitHubIngester.is_docs_file item = true <->
  entry_type item = lit "file" /\
  exists stem suffix,
    suffix ∈ GitHubIngester.doc_suffixes /\ entry_name item = stem ++ suffix.
Proof.
  unfold GitHubIngester.is_docs_file.
  rewrite andb_true_iff, bool_decide_eq_true, existsb_exists.
  split; intros [Ht Hs]; (split; [done|]).
  - destruct Hs as (suffix & Hin & [stem Hs]%endswith_spec).
    exists stem, suffix. by rewrite list_elem_of_In.
  - destruct Hs as (stem & suffix & Hin & Hs). exists suffix.
    rewrite <- list_elem_of_In, endswith_spec. eauto.
Qed.

Lemma get_readme_document self w o w' :
  GitHubIngester._get_readme self w = (Ok o, w') ->
  Forall (readme_document self) (GitHubIngester.optional_to_list o).
Proof.
  unfold GitHubIngester._get_readme. unfold_monad.
  unfold requests_get, raise_for_status, strftime.
  destruct (http_get w _) as [r|]; [|intros [= <- _]; constructor].
  destruct (_ && _); unfold_monad; [intros [= <- _]; constructor|].
  destruct (json_readme (body r)) as [info|];
    [|intros [= <- _]; constructor].
  destruct (http_get _ _) as [r2|]; intros [= <- _]; constructor;
    [|constructor].
  split; [done|]. split; [done|]. split; reflexivity.
Qed.

Lemma for_items_documents recurse self items documents w ds w' :
  (forall path w1 sub w2,
     recurse path w1 = (Ok sub, w2) -> Forall (docs_file_document self) sub) ->
  Forall (docs_file_document self) documents ->
  GitHubIngester.for_items recurse self items documents w = (Ok ds, w') ->
  Forall (docs_file_document self) ds.
Proof.
  intros Hrec. revert documents w.
  induction items as [|item rest IH]; intros documents w Hdocs; simpl.
  - by intros [= <- _].
  - destruct (GitHubIngester.is_docs_file item) eqn:Hfile.
    + apply is_docs_file_spec in Hfile as [_ Hname].
      unfold GitHubIngester.or_return. unfold_monad.
      unfold requests_get, strftime.
      destruct (http_get _ _) as [r|]; [|by intros [= <- _]].
      apply IH. apply Forall_app. split; [done|]. apply Forall_singleton.
      split; [done|]. split; [done|]. split; [reflexivity|].
      split; [reflexivity|]. by eexists.
    + destruct (bool_decide _); [|by apply IH].
      unfold GitHubIngester.or_return.
      destruct (recurse (entry_path item) w) as [[sub| |] w1] eqn:Hsub;
        [|by intros [= <- _]|done].
      apply IH. apply Forall_app. split; [done|]. by eapply Hrec.
Qed.

Lemma get_docs_directory_documents fuel self path w ds w' :
  GitHubIngester._get_docs_directory fuel self path w = (Ok ds, w') ->
  Forall (docs_file_document self) ds.
Proof.
  revert path w ds w'. induction fuel as [|fuel IH]; intros path w ds w';
    [done|].
  rewrite get_docs_directory_unfold. cbv zeta.
  destruct (http_get _ _) as [r|]; [|intros [= <- _]; constructor].
  destruct (bool_decide _); [intros [= <- _]; constructor|].
  destruct (_ && _); [intros [= <- _]; constructor|].
  destruct (json_listing (body r)) as [items|];
    [|intros [= <- _]; constructor].
  apply for_items_documents; [exact IH|constructor].
Qed.

Lemma github_get_all_docs_never_raises fuel self :
  never_raises (GitHubIngester.get_all_docs fuel self).
Proof.
  intros w e w'. unfold GitHubIngester.get_all_docs. unfold_monad.
  destruct (get_readme_total self w) as (o & w1 & ->).
  unfold GitHubIngester._get_wiki_pages. unfold_monad.
  pose proof (get_docs_directory_never_raises fuel self (lit "docs") w1)
    as Hnr.
  destruct (GitHubIngester._get_docs_directory fuel self _ _)
    as [[ds| |] w2] eqn:Hd; [done| |done].
  intros [= -> ->]. by eapply Hnr.
Qed.
End RepositoryDocuments.

(** X15.  The repository fetcher swallows every failure: [get_all_docs]
    never raises, whatever the network answers.  What it returns is at most
    one readme document, titled after the repository, followed by documents
    of docs files only; each docs-file document is titled with the name of
    its file, which ends with [.md], [.markdown] or [.rst] (in lower case),
    and records the repository and the path of the file.  Every document
    has the source [github]. *)
Theorem github_fetch_returns_readme_then_docs_files `{Env} :
  forall fuel self w,
    (forall e w', GitHubIngester.get_all_docs fuel self w <> (Raise e, w')) /\
    (forall ds w',
       GitHubIngester.get_all_docs fuel self w = (Ok ds, w') ->
       exists readme files,
         ds = readme ++ files /\
         (length readme <= 1)%nat /\
         Forall (readme_document self) readme /\
         Forall (docs_file_document self) files /\
         Forall (fun d => source d = lit "github") ds).
Proof.
  intros fuel self w. split; [apply github_get_all_docs_never_raises|].
  intros ds w'. unfold GitHubIngester.get_all_docs. unfold_monad.
  destruct (GitHubIngester._get_readme self w) as [[o| |] w1] eqn:Hreadme;
    [|done..].
  unfold GitHubIngester._get_wiki_pages. unfold_monad.
  destruct (GitHubIngester._get_docs_directory fuel self _ _)
    as [[files| |] w2] eqn:Hd; [|done..].
  intros [= <- <-]. rewrite app_nil_r.
  apply get_readme_document in Hreadme.
  apply get_docs_directory_documents in Hd.
  exists (GitHubIngester.optional_to_list o), files.
  split; [done|]. split; [destruct o; simpl; lia|].
  split; [done|]. split; [done|]. apply Forall_app. split.
  - eapply Forall_impl; [exact Hreadme|]. by intros d [? _].
  - eapply Forall_impl; [exact Hd|]. by intros d [? _].
Qed.

(** X15 at work: the repository of the fixture gives its readme and then
    the three docs files. *)
Lemma github_fetch_returns_readme_then_docs_files_witness :
  exists ds w',
    GitHubIngester.get_all_docs (H := Fixture.all_ok) 5 Fixture.repo []
    = (Ok ds, w') /\
    map title ds
    = [lit "r - README"; lit "guide.md"; lit "deep.markdown"; lit "api.rst"]
    /\
    Forall (fun d => source d = lit "github") ds.
Proof.
  pose (run := GitHubIngester.get_all_docs (H := Fixture.all_ok) 5
                 Fixture.repo []).
  assert (Hrun : exists ds w',
             run = (Ok ds, w') /\
             map title ds
             = [lit "r - README"; lit "guide.md"; lit "deep.markdown";
                lit "api.rst"]).
  { vm_compute. eexists _, _. split; reflexivity. }
  destruct Hrun as (ds & w' & Hrun & Htitles).
  exists ds, w'. split; [exact Hrun|]. split; [exact Htitles|].
  by destruct (proj2 (github_fetch_returns_readme_then_docs_files
                        (H := Fixture.all_ok) 5%nat Fixture.repo [])
                 _ _ Hrun) as (readme & files & _ & _ & _ & _ & Hsrc).
Defined.

Section Downloads.
Context `{Env}.

Lemma get_readme_downloaded self w r info r2 :
  http_get w (readme_request self) = Some r ->
  ~ error_status (status_code r) ->
  json_readme (body r) = Some info ->
  http_get (EvGet ReadmeMeta (readme_request self) :: w)
           (download_request (readme_download_url info)) = Some r2 ->
  exists d,
    GitHubIngester._get_readme self w
    = (Ok (Some d),
       EvGet ReadmeDownload (download_request (readme_download_url info))
       :: EvGet ReadmeMeta (readme_request self) :: w) /\
    content d = response_text (body r2) /\
    url d = readme_html_url info.
Proof.
  intros Hget Hok Hjson Hdl. unfold GitHubIngester._get_readme.
  unfold_monad. unfold requests_get. fold (readme_request self).
  rewrite Hget. rewrite raise_for_status_ok by done. rewrite Hjson.
  fold (download_request (readme_download_url info)). rewrite Hdl.
  unfold strftime. eexists. split; [reflexivity|]. done.
Qed.

Lemma for_items_downloaded recurse self item rest documents w r2 :
  GitHubIngester.is_docs_file item = true ->
  http_get w (download_request (entry_download_url item)) = Some r2 ->
  let w1 := EvGet FileDownload (download_request (entry_download_url item))
            :: w in
  GitHubIngester.for_items recurse self (item :: rest) documents w
  = GitHubIngester.for_items recurse self rest
      (documents ++ [docs_file_of self item (body r2) (clock w1)]) w1.
Proof.
  intros Hfile Hdl w1. cbn [GitHubIngester.for_items]. rewrite Hfile.
  unfold GitHubIngester.or_return. unfold_monad. unfold requests_get.
  fold (download_request (entry_download_url item)). rewrite Hdl.
  reflexivity.
Qed.

(** The entries that follow a docs file whose download fails are not
    looked at. *)
Lemma for_items_download_fails recurse self item rest documents w :
  GitHubIngester.is_docs_file item = true ->
  http_get w (download_request (entry_download_url item)) = None ->
  GitHubIngester.for_items recurse self (item :: rest) documents w
  = (Ok documents,
     EvGet FileDownload (download_request (entry_download_url item)) :: w).
Proof.
  intros Hfile Hdl. cbn [GitHubIngester.for_items]. rewrite Hfile.
  unfold GitHubIngester.or_return. unfold_monad. unfold requests_get.
  fold (download_request (entry_download_url item)). by rewrite Hdl.
Qed.

Lemma for_items_after_failed_download recurse self before item rest rest'
    documents w :
  GitHubIngester.is_docs_file item = true ->
  (forall w1, http_get w1 (download_request (entry_download_url item))
              = None) ->
  GitHubIngester.for_items recurse self (before ++ item :: rest) documents w
  = GitHubIngester.for_items recurse self (before ++ item :: rest')
      documents w.
Proof.
  intros Hfile Hdl. revert documents w.
  induction before as [|b before IH]; intros documents w.
  - simpl app. by rewrite !for_items_download_fails.
  - simpl app. cbn [GitHubIngester.for_items].
    destruct (GitHubIngester.is_docs_file b).
    + unfold GitHubIngester.or_return. unfold_monad.
      unfold requests_get, strftime.
      destruct (http_get _ _); [apply IH|done].
    + destruct (bool_decide _); [|apply IH].
      unfold GitHubIngester.or_return.
      destruct (recurse (entry_path b) w) as [[sub| |] w1]; [apply IH|done..].
Qed.
End Downloads.

(** X16.  The answer to a download is not checked.  When the readme
    request succeeds, the readme document is made of whatever body the
    download request is answered with, whatever the status of that answer;
    and in a directory, a docs file whose download is answered, with any
    status, gives a document with the answer's text as content, and the
    loop goes on with the next entry. *)
Theorem download_status_is_not_checked `{Env} :
  (forall self w r info r2,
     http_get w (readme_request self) = Some r ->
     ~ error_status (status_code r) ->
     json_readme (body r) = Some info ->
     http_get (EvGet ReadmeMeta (readme_request self) :: w)
              (download_request (readme_download_url info)) = Some r2 ->
     exists d,
       GitHubIngester._get_readme self w
       = (Ok (Some d),
          EvGet ReadmeDownload (download_request (readme_download_url info))
          :: EvGet ReadmeMeta (readme_request self) :: w) /\
       content d = response_text (body r2) /\
       url d = readme_html_url info) /\
  (forall recurse self item rest documents w r2,
     GitHubIngester.is_docs_file item = true ->
     http_get w (download_request (entry_download_url item)) = Some r2 ->
     let w1 := EvGet FileDownload
                 (download_request (entry_download_url item)) :: w in
     GitHubIngester.for_items recurse self (item :: rest) documents w
     = GitHubIngester.for_items recurse self rest
         (documents ++ [docs_file_of self item (body r2) (clock w1)]) w1).
Proof.
  split.
  - intros. by eapply get_readme_downloaded.
  - intros. by apply for_items_downloaded.
Qed.

(** X16 at work: with every download answering 404 the fetch of the
    fixture's repository still returns its four documents, whose contents
    are the texts of the 404 answers. *)
Lemma download_status_is_not_checked_witness :
  exists d,
    GitHubIngester._get_readme (H := downloads_missing) Fixture.repo []
    = (Ok (Some d),
       [EvGet ReadmeDownload
          (download_request (lit "https://raw/o/r/README.md"));
        EvGet ReadmeMeta (readme_request Fixture.repo)]) /\
    content d = lit "text of https://raw/o/r/README.md" /\
    url d = lit "https://github.com/o/r/blob/main/README.md".
Proof.
  apply (proj1 (download_status_is_not_checked (H := downloads_missing))
           Fixture.repo []
           {| status_code := 200; body := Fixture.readme_url |}
           Fixture.readme_info
           {| status_code := 404; body := lit "https://raw/o/r/README.md" |}).
  - reflexivity.
  - unfold error_status. simpl. lia.
  - reflexivity.
  - reflexivity.
Defined.

(** X17.  A download that fails cuts the directory short.  When the
    download of a docs file fails at the transport, the loop over the
    directory ends there: the fetch returns the documents gathered so far
    and the entries that follow the file, files and subdirectories alike,
    are never looked at, so that the result does not depend on them. *)
Theorem failed_download_ends_the_directory `{Env} :
  (forall recurse self item rest documents w,
     GitHubIngester.is_docs_file item = true ->
     http_get w (download_request (entry_download_url item)) = None ->
     GitHubIngester.for_items recurse self (item :: rest) documents w
     = (Ok documents,
        EvGet FileDownload (download_request (entry_download_url item))
        :: w)) /\
  (forall recurse self before item rest rest' documents w,
     GitHubIngester.is_docs_file item = true ->
     (forall w1, http_get w1 (download_request (entry_download_url item))
                 = None) ->
     GitHubIngester.for_items recurse self (before ++ item :: rest)
       documents w
     = GitHubIngester.for_items recurse self (before ++ item :: rest')
         documents w).
Proof.
  split.
  - intros. by apply for_items_download_fails.
  - intros. by apply for_items_after_failed_download.
Qed.

(** X17 at work: the docs directory of the fixture with the download of
    its first file failing gives no document, although the files that
    follow could be downloaded. *)
Lemma failed_download_ends_the_directory_witness :
  GitHubIngester.for_items (H := guide_unreachable)
    (GitHubIngester._get_docs_directory (H := guide_unreachable) 4
       Fixture.repo)
    Fixture.repo Fixture.docs_listing []
    [EvGet DirListing (listing_request Fixture.repo (lit "docs"))]
  = (Ok [],
     [EvGet FileDownload
        (download_request (lit "https://raw/o/r/docs/guide.md"));
      EvGet DirListing (listing_request Fixture.repo (lit "docs"))]).
Proof.
  apply (proj1 (failed_download_ends_the_directory (H := guide_unreachable))
           _ Fixture.repo
           {| entry_type := lit "file"; entry_name := lit "guide.md";
              entry_path := lit "docs/guide.md";
              entry_download_url := lit "https://raw/o/r/docs/guide.md";
              entry_html_url :=
                lit "https://github.com/o/r/blob/main/docs/guide.md" |}
           (tail Fixture.docs_listing)); reflexivity.
Defined.

(** ** The source of a document *)

Section Sources.
Context `{Env}.

Lemma rtd_scrape_page_source u w d w' :
  ReadTheDocsIngester._scrape_page u w = (Ok d, w') ->
  source d = lit "readthedocs".
Proof.
  unfold ReadTheDocsIngester._scrape_page. unfold_monad.
  destruct (requests_get_cases ScrapePage u [] (Some 10%Z) w)
    as [(r & _ & ->) | (_ & ->)]; [|discriminate].
  unfold raise_for_status.
  destruct (_ && _); unfold_monad; [discriminate|].
  destruct (ReadTheDocsIngester.main_content _); [|discriminate].
  unfold strftime. by intros [= <- _].
Qed.

Lemma web_scrape_page_source u w d w' :
  WebsiteIngester._scrape_page u w = (Ok d, w') ->
  source d = lit "website".
Proof.
  unfold WebsiteIngester._scrape_page. unfold_monad.
  destruct (requests_get_cases ScrapePage u [] (Some 10%Z) w)
    as [(r & _ & ->) | (_ & ->)]; [|discriminate].
  unfold raise_for_status.
  destruct (_ && _); unfold_monad; [discriminate|].
  unfold strftime. by intros [= <- _].
Qed.

(** What holds of every page the extractor returns holds of every document
    of a crawl. *)
Lemma rtd_loop_body_documents (P : Document -> Prop) f w f' w' :
  (forall u w1 d w2,
     ReadTheDocsIngester._scrape_page u w1 = (Ok d, w2) -> P d) ->
  ReadTheDocsIngester.loop_body f w = (Ok f', w') ->
  Forall P (ReadTheDocsIngester.documents f) ->
  Forall P (ReadTheDocsIngester.documents f').
Proof.
  intros HP. unfold ReadTheDocsIngester.loop_body.
  destruct (ReadTheDocsIngester.to_visit f) as [|u rest]; [done|].
  destruct (decide _); [by intros [= <- _]|]. unfold_monad.
  destruct (ReadTheDocsIngester._scrape_page u w) as [[d| |] w1] eqn:Hs.
  - destruct (rtd_find_doc_links_total
                (ReadTheDocsIngester.mark_visited
                   (ReadTheDocsIngester.inst f) u) u w1) as [l ->].
    unfold sleep. intros [= <- _] Hall. simpl.
    apply Forall_app. split; [done|]. apply Forall_singleton.
    by eapply HP.
  - by intros [= <- _].
  - done.
Qed.

Lemma web_loop_body_documents (P : Document -> Prop) f w f' w' :
  (forall u w1 d w2,
     WebsiteIngester._scrape_page u w1 = (Ok d, w2) -> P d) ->
  WebsiteIngester.loop_body f w = (Ok f', w') ->
  Forall P (WebsiteIngester.documents f) ->
  Forall P (WebsiteIngester.documents f').
Proof.
  intros HP. unfold WebsiteIngester.loop_body.
  destruct (WebsiteIngester.to_visit f) as [|u rest]; [done|].
  destruct (decide _); [by intros [= <- _]|].
  destruct (negb _); [by intros [= <- _]|]. unfold_monad.
  destruct (WebsiteIngester._scrape_page u w) as [[d| |] w1] eqn:Hs.
  - destruct (web_find_links_total
                (WebsiteIngester.mark_visited (WebsiteIngester.inst f) u)
                u w1) as [l ->].
    unfold sleep. intros [= <- _] Hall. simpl.
    apply Forall_app. split; [done|]. apply Forall_singleton.
    by eapply HP.
  - by intros [= <- _].
  - done.
Qed.

Lemma rtd_crawl_documents (P : Document -> Prop) fuel self w ds self' w' :
  (forall u w1 d w2,
     ReadTheDocsIngester._scrape_page u w1 = (Ok d, w2) -> P d) ->
  ReadTheDocsIngester.get_all_docs fuel self w = (Ok (ds, self'), w') ->
  Forall P ds.
Proof.
  intros HP Hrun.
  apply rtd_get_all_docs_inv in Hrun as (f & Hr & _ & <- & _).
  apply (loop_reaches_invariant _ _
           (fun fw => Forall P (ReadTheDocsIngester.documents (fst fw))))
    in Hr; [done| |constructor].
  intros s1 w1 s2 w2 HI _ Hb. by eapply rtd_loop_body_documents.
Qed.

Lemma web_crawl_documents (P : Document -> Prop) fuel self w ds self' w' :
  (forall u w1 d w2,
     WebsiteIngester._scrape_page u w1 = (Ok d, w2) -> P d) ->
  WebsiteIngester.get_all_docs fuel self w = (Ok (ds, self'), w') ->
  Forall P ds.
Proof.
  intros HP Hrun.
  apply web_get_all_docs_inv in Hrun as (f & Hr & _ & <- & _).
  apply (loop_reaches_invariant _ _
           (fun fw => Forall P (WebsiteIngester.documents (fst fw))))
    in Hr; [done| |constructor].
  intros s1 w1 s2 w2 HI _ Hb. by eapply web_loop_body_documents.
Qed.

Lemma rtd_crawl_sources fuel self w ds self' w' :
  ReadTheDocsIngester.get_all_docs fuel self w = (Ok (ds, self'), w') ->
  Forall (fun d => source d = lit "readthedocs") ds.
Proof. apply rtd_crawl_documents, rtd_scrape_page_source. Qed.

Lemma web_crawl_sources fuel self w ds self' w' :
  WebsiteIngester.get_all_docs fuel self w = (Ok (ds, self'), w') ->
  Forall (fun d => source d = lit "website") ds.
Proof. apply web_crawl_documents, web_scrape_page_source. Qed.

Lemma github_crawl_sources fuel self w ds w' :
  GitHubIngester.get_all_docs fuel self w = (Ok ds, w') ->
  Forall (fun d => source d = lit "github") ds.
Proof.
  unfold GitHubIngester.get_all_docs. unfold_monad.
  destruct (GitHubIngester._get_readme self w) as [[o| |] w1] eqn:Hreadme;
    [|done..].
  unfold GitHubIngester._get_wiki_pages. unfold_monad.
  destruct (GitHubIngester._get_docs_directory fuel self _ _)
    as [[files| |] w2] eqn:Hd; [|done..].
  intros [= <- <-]. rewrite app_nil_r.
  apply get_readme_document in Hreadme.
  apply get_docs_directory_documents in Hd.
  apply Forall_app. split.
  - eapply Forall_impl; [exact Hreadme|]. by intros d [? _].
  - eapply Forall_impl; [exact Hd|]. by intros d [? _].
Qed.
End Sources.

Lemma from_source_all s docs :
  Forall (fun d => source d = s) docs -> from_source s docs = docs.
Proof.
  induction 1 as [|d docs Hd _ IH]; [done|].
  unfold from_source in *. by rewrite filter_cons_True, IH.
Qed.

Lemma from_source_none s t docs :
  s <> t -> Forall (fun d => source d = t) docs -> from_source s docs = [].
Proof.
  intros Hne. induction 1 as [|d docs Hd _ IH]; [done|].
  unfold from_source in *. rewrite filter_cons_False; [done|]. congruence.
Qed.

Lemma from_source_app s l1 l2 :
  from_source s (l1 ++ l2) = from_source s l1 ++ from_source s l2.
Proof. apply filter_app. Qed.

(** ** The content is trimmed *)

Lemma lstrip_head s c : head (lstrip s) = Some c -> isspace c = false.
Proof.
  induction s as [|x s IH]; simpl; [done|].
  destruct (isspace x) eqn:E; [done|]. simpl. by intros [= <-].
Qed.

Lemma lstrip_suffix s : exists sp, s = sp ++ lstrip s.
Proof.
  induction s as [|x s [sp IH]]; simpl; [by exists []|].
  destruct (isspace x); [|by exists []].
  exists (x :: sp). simpl. by f_equal.
Qed.

Lemma lstrip_fixed s :
  (forall c, head s = Some c -> isspace c = false) -> lstrip s = s.
Proof.
  destruct s as [|x s]; simpl; [done|]. intros Hx.
  by rewrite (Hx x eq_refl).
Qed.

Lemma head_rev_last {A} (l : list A) : head (rev l) = last l.
Proof. by rewrite <- (rev_involutive l) at 2; rewrite last_rev_head. Qed.

Lemma strip_trimmed s : trimmed (strip s).
Proof.
  unfold strip, trimmed. rewrite head_rev_last, last_rev_head.
  split; [|apply lstrip_head].
  intros c Hc. destruct (lstrip_suffix (rev (lstrip s))) as [sp Hsp].
  assert (Hlast : last (rev (lstrip s)) = Some c).
  { rewrite Hsp, last_app. by rewrite Hc. }
  rewrite last_rev_head in Hlast. by eapply lstrip_head.
Qed.

Lemma trimmed_strip t : trimmed t -> strip t = t.
Proof.
  intros [Hh Hl]. unfold strip. rewrite (lstrip_fixed t Hh).
  rewrite lstrip_fixed; [apply rev_involutive|].
  intros c. rewrite head_rev_last. apply Hl.
Qed.

Lemma stripped_strings_trimmed n :
  Forall (fun t => t <> [] /\ trimmed t) (stripped_strings n).
Proof.
  unfold stripped_strings. induction (descendants n) as [|d l IH];
    [constructor|].
  simpl. destruct d as [s|nm attrs cs]; [|done].
  destruct (strip s) as [|c t] eqn:Hs; [done|]. simpl. constructor; [|done].
  split; [done|]. rewrite <- Hs. apply strip_trimmed.
Qed.

Lemma join_trimmed sep pieces :
  Forall (fun t => t <> [] /\ trimmed t) pieces -> trimmed (join sep pieces).
Proof.
  induction 1 as [|p ps [Hne [Hh Hl]] Hps IH]; [by split|].
  destruct ps as [|q ps]; [by split|].
  change (join sep (p :: q :: ps)) with (p ++ sep ++ join sep (q :: ps)).
  destruct IH as [_ IHl]. split.
  - intros c. destruct p as [|x p]; [done|]. apply Hh.
  - intros c. rewrite !last_app.
    apply Forall_cons in Hps as [[Hq _] _].
    destruct (last (join sep (q :: ps))) as [y|] eqn:Hy; [apply IHl|].
    exfalso. apply last_None in Hy. revert Hy. simpl.
    destruct ps; [done|]. by destruct q.
Qed.

Lemma re_sub_nl3_head s : head (re_sub_nl3 s) = head s.
Proof.
  destruct s as [|c r]; [by simp re_sub_nl3|]. rewrite re_sub_nl3_cons.
  destruct (3 <=? count_nl (c :: r))%nat eqn:E; [|done].
  apply Nat.leb_le in E. by destruct (count_nl_three _ E) as (b & [= -> _]).
Qed.

Lemma re_sub_nl3_nil s : re_sub_nl3 s = [] -> s = [].
Proof.
  intros Hs. pose proof (re_sub_nl3_head s) as Hh. rewrite Hs in Hh.
  by destruct s.
Qed.

Lemma last_drop_nl s :
  last (NL :: s) = last (NL :: drop_nl s).
Proof.
  induction s as [|c s IH]; simpl; [done|].
  destruct (c =? NL) eqn:E; [|done].
  apply N.eqb_eq in E. subst c. rewrite <- IH. by destruct s.
Qed.

Lemma re_sub_nl3_last s : last (re_sub_nl3 s) = last s.
Proof.
  induction s as [s IH] using str_length_ind.
  destruct s as [|c r]; [by simp re_sub_nl3|]. rewrite re_sub_nl3_cons.
  destruct (3 <=? count_nl (c :: r))%nat eqn:E.
  - apply Nat.leb_le in E.
    destruct (count_nl_three _ E) as (b & [= -> ->]).
    change (drop_nl (NL :: NL :: b)) with (drop_nl b).
    assert (Hb : last (NL :: re_sub_nl3 (drop_nl b))
                 = last (NL :: drop_nl b)).
    { destruct (re_sub_nl3 (drop_nl b)) as [|x t] eqn:Hx.
      - apply re_sub_nl3_nil in Hx. by rewrite Hx.
      - rewrite last_cons_cons, <- Hx, IH
          by (pose proof (drop_nl_length b); simpl; lia).
        destruct (drop_nl b) eqn:Hd; [by simp re_sub_nl3 in Hx|done]. }
    rewrite last_cons_cons, Hb, <- last_drop_nl. done.
  - destruct (re_sub_nl3 r) as [|x t] eqn:Hx.
    + apply re_sub_nl3_nil in Hx. by subst r.
    + rewrite last_cons_cons, <- Hx, IH by (simpl; lia).
      destruct r; [by simp re_sub_nl3 in Hx|done].
Qed.

Lemma re_sub_nl3_trimmed s : trimmed s -> trimmed (re_sub_nl3 s).
Proof.
  intros [Hh Hl]. split; intros c.
  - rewrite re_sub_nl3_head. apply Hh.
  - rewrite re_sub_nl3_last. apply Hl.
Qed.

Section Trimmed.
Context `{Env}.

Lemma rtd_scrape_page_trimmed u w d w' :
  ReadTheDocsIngester._scrape_page u w = (Ok d, w') -> trimmed (content d).
Proof.
  unfold ReadTheDocsIngester._scrape_page. unfold_monad.
  destruct (requests_get_cases ScrapePage u [] (Some 10%Z) w)
    as [(r & _ & ->) | (_ & ->)]; [|discriminate].
  unfold raise_for_status.
  destruct (_ && _); unfold_monad; [discriminate|].
  destruct (ReadTheDocsIngester.main_content _); [|discriminate].
  unfold strftime. intros [= <- _]. simpl.
  apply re_sub_nl3_trimmed, join_trimmed, stripped_strings_trimmed.
Qed.

Lemma web_scrape_page_trimmed u w d w' :
  WebsiteIngester._scrape_page u w = (Ok d, w') -> trimmed (content d).
Proof.
  unfold WebsiteIngester._scrape_page. unfold_monad.
  destruct (requests_get_cases ScrapePage u [] (Some 10%Z) w)
    as [(r & _ & ->) | (_ & ->)]; [|discriminate].
  unfold raise_for_status.
  destruct (_ && _); unfold_monad; [discriminate|].
  unfold strftime. intros [= <- _]. simpl.
  apply re_sub_nl3_trimmed.
  destruct (WebsiteIngester.main_content _); [|by split].
  apply join_trimmed, stripped_strings_trimmed.
Qed.
End Trimmed.

(** X18.  The content of a page is trimmed: the content of every document
    the extractor of either variant produces, and so of every document a
    crawl returns, neither starts nor ends with white space, so stripping
    it changes nothing.  Cleaning the newlines keeps the first and the last
    character of the text. *)
Theorem content_is_trimmed `{Env} :
  (forall u w d w',
     ReadTheDocsIngester._scrape_page u w = (Ok d, w') ->
     trimmed (content d) /\ strip (content d) = content d) /\
  (forall u w d w',
     WebsiteIngester._scrape_page u w = (Ok d, w') ->
     trimmed (content d) /\ strip (content d) = content d) /\
  (forall fuel self w ds self' w',
     ReadTheDocsIngester.get_all_docs fuel self w = (Ok (ds, self'), w') ->
     Forall (fun d => strip (content d) = content d) ds) /\
  (forall fuel self w ds self' w',
     WebsiteIngester.get_all_docs fuel self w = (Ok (ds, self'), w') ->
     Forall (fun d => strip (content d) = content d) ds) /\
  (forall raw,
     head (re_sub_nl3 raw) = head raw /\ last (re_sub_nl3 raw) = last raw).
Proof.
  split; [|split; [|split; [|split]]].
  - intros u w d w' Hrun. apply rtd_scrape_page_trimmed in Hrun.
    split; [done|by apply trimmed_strip].
  - intros u w d w' Hrun. apply web_scrape_page_trimmed in Hrun.
    split; [done|by apply trimmed_strip].
  - intros fuel self w ds self' w'. apply rtd_crawl_documents.
    intros u w1 d w2 Hrun. by eapply trimmed_strip, rtd_scrape_page_trimmed.
  - intros fuel self w ds self' w'. apply web_crawl_documents.
    intros u w1 d w2 Hrun. by eapply trimmed_strip, web_scrape_page_trimmed.
  - intros raw. split; [apply re_sub_nl3_head|apply re_sub_nl3_last].
Qed.

(** X18 at work: the leaf page of the fixture, whose text is [ leaf ]. *)
Lemma content_is_trimmed_witness :
  exists d w',
    WebsiteIngester._scrape_page (H := Fixture.all_ok) (lit "http://d/a") []
    = (Ok d, w') /\
    content d = lit "leaf" /\
    strip (content d) = content d.
Proof.
  pose (run := WebsiteIngester._scrape_page (H := Fixture.all_ok)
                 (lit "http://d/a") []).
  assert (Hrun : exists d w', run = (Ok d, w') /\ content d = lit "leaf").
  { vm_compute. eexists _, _. split; reflexivity. }
  destruct Hrun as (d & w' & Hrun & Hc).
  exists d, w'. split; [exact Hrun|]. split; [exact Hc|].
  exact (proj2 (proj1 (proj2 (content_is_trimmed (H := Fixture.all_ok)))
                  _ _ _ _ Hrun)).
Defined.

(** ** The artifact determines the documents *)

Lemma json_dumps_inj v1 v2 : json_dumps v1 = json_dumps v2 -> v1 = v2.
Proof.
  intros Heq. apply (f_equal json_loads) in Heq.
  rewrite !json_loads_dumps in Heq. by injection Heq.
Qed.

Lemma meta_to_json_inj v1 v2 : meta_to_json v1 = meta_to_json v2 -> v1 = v2.
Proof. destruct v1, v2; simpl; congruence. Qed.

Lemma to_dict_inj d1 d2 : to_dict d1 = to_dict d2 -> d1 = d2.
Proof.
  destruct d1 as [s1 u1 t1 c1 m1], d2 as [s2 u2 t2 c2 m2].
  unfold to_dict. simpl. intros [= -> -> -> -> Hm]. f_equal.
  revert m2 Hm. induction m1 as [|[k1 v1] m1 IH]; intros [|[k2 v2] m2];
    simpl; try done.
  intros [= -> Hv Hm]. apply meta_to_json_inj in Hv as ->.
  f_equal. by apply IH.
Qed.

Lemma map_to_dict_inj ds1 ds2 :
  map to_dict ds1 = map to_dict ds2 -> ds1 = ds2.
Proof.
  revert ds2. induction ds1 as [|d1 ds1 IH]; intros [|d2 ds2]; simpl;
    try done.
  intros Heq. apply (f_equal head) in Heq as Hd.
  apply (f_equal tail) in Heq as Hds. simpl in Hd, Hds.
  apply (inj Some), to_dict_inj in Hd as ->. f_equal. by apply IH.
Qed.

Lemma save_documents_ok documents output_file fs fs' :
  save_documents documents output_file fs = Ok fs' ->
  fs' !! output_file = Some (json_dumps (JArr (map to_dict documents))).
Proof.
  unfold save_documents. destruct (forallb _ _); [|done].
  intros [= <-]. apply lookup_insert_eq.
Qed.

(** X19.  Nothing of the documents is lost in the artifact: two lists of
    documents whose artifacts hold the same text are the same list, with
    the same order, fields and metadata. *)
Theorem saved_artifact_determines_documents :
  forall (ds1 ds2 : list Document) (file1 file2 : str)
         (fs1 fs2 fs1' fs2' : filesystem),
    save_documents ds1 file1 fs1 = Ok fs1' ->
    save_documents ds2 file2 fs2 = Ok fs2' ->
    fs1' !! file1 = fs2' !! file2 ->
    ds1 = ds2.
Proof.
  intros ds1 ds2 file1 file2 fs1 fs2 fs1' fs2' H1 H2 Heq.
  apply save_documents_ok in H1, H2. rewrite H1, H2 in Heq.
  injection Heq as Heq. apply json_dumps_inj in Heq.
  injection Heq as Heq. by apply map_to_dict_inj.
Qed.

(** X19 at work: the artifacts of two different documents differ. *)
Lemma saved_artifact_determines_documents_witness :
  save_documents [Fixture.cafe_doc] (lit "a.json") ∅
  = Ok {[ lit "a.json" := json_dumps (JArr (map to_dict [Fixture.cafe_doc])) ]} /\
  save_documents [Fixture.plain_doc] (lit "b.json") ∅
  = Ok {[ lit "b.json" := json_dumps (JArr (map to_dict [Fixture.plain_doc])) ]} /\
  json_dumps (JArr (map to_dict [Fixture.cafe_doc]))
  <> json_dumps (JArr (map to_dict [Fixture.plain_doc])).
Proof.
  assert (H1 : save_documents [Fixture.cafe_doc] (lit "a.json") ∅
               = Ok {[ lit "a.json"
                       := json_dumps (JArr (map to_dict [Fixture.cafe_doc])) ]}).
  { unfold save_documents.
    destruct (forallb _ _) eqn:E; [reflexivity|].
    vm_compute in E. discriminate. }
  assert (H2 : save_documents [Fixture.plain_doc] (lit "b.json") ∅
               = Ok {[ lit "b.json"
                       := json_dumps (JArr (map to_dict [Fixture.plain_doc])) ]}).
  { unfold save_documents.
    destruct (forallb _ _) eqn:E; [reflexivity|].
    vm_compute in E. discriminate. }
  split; [exact H1|]. split; [exact H2|]. intros Heq.
  assert (Hds : [Fixture.cafe_doc] = [Fixture.plain_doc]).
  { apply (saved_artifact_determines_documents _ _ _ _ _ _ _ _ H1 H2).
    rewrite !lookup_singleton_eq. by f_equal. }
  vm_compute in Hds. discriminate.
Defined.

(** ** The tally by source *)

Lemma by_source_snoc docs d :
  by_source (docs ++ [d])
  = <[source d := (default 0 (by_source docs !! source d) + 1)%Z]>
      (by_source docs).
Proof. unfold by_source. by rewrite foldl_snoc. Qed.

Lemma from_source_snoc s docs d :
  from_source s (docs ++ [d])
  = from_source s docs ++ (if decide (source d = s) then [d] else []).
Proof.
  unfold from_source. by rewrite filter_app.
Qed.

Lemma by_source_lookup docs s :
  by_source docs !! s
  = match from_source s docs with
    | [] => None
    | l => Some (Z.of_nat (length l))
    end.
Proof.
  induction docs as [|d docs IH] using rev_ind; [done|].
  rewrite by_source_snoc, from_source_snoc.
  destruct (decide (source d = s)) as [<-|Hne].
  - rewrite lookup_insert_eq, IH.
    destruct (from_source (source d) docs) as [|d' l]; [done|].
    simpl. rewrite length_app. simpl. f_equal. lia.
  - rewrite lookup_insert_ne by done. by rewrite app_nil_r.
Qed.

Lemma tally_total_insert (m : gmap str Z) k v :
  tally_total (<[k := v]> m)
  = (tally_total m - default 0 (m !! k) + v)%Z.
Proof.
  assert (Hfresh : forall m' : gmap str Z,
             m' !! k = None ->
             forall x, tally_total (<[k := x]> m') = (x + tally_total m')%Z).
  { intros m' Hk x. unfold tally_total.
    rewrite map_fold_insert_L; [done| |done]. intros. lia. }
  destruct (m !! k) as [n|] eqn:Hk; simpl.
  - rewrite <- (insert_delete_eq m), (Hfresh _ (lookup_delete_eq m k)).
    rewrite <- (insert_delete_id m k n Hk) at 2.
    rewrite (Hfresh _ (lookup_delete_eq m k)). lia.
  - rewrite (Hfresh _ Hk). lia.
Qed.

Lemma tally_total_by_source docs :
  tally_total (by_source docs) = Z.of_nat (length docs).
Proof.
  induction docs as [|d docs IH] using rev_ind; [done|].
  rewrite by_source_snoc, tally_total_insert, IH, length_app. simpl. lia.
Qed.

(** X20.  The tally of the multi-source example counts the documents by
    source: the count it holds for a source is the number of documents with
    that source, a source has an entry exactly when some document has it
    (so no entry holds zero), and the counts add up to the number of
    documents. *)
Theorem tally_counts_documents_by_source :
  forall (all_docs : list Document),
    (forall s,
       default 0%Z (by_source all_docs !! s)
       = Z.of_nat (length (from_source s all_docs))) /\
    (forall s,
       is_Some (by_source all_docs !! s) <->
       exists d, d ∈ all_docs /\ source d = s) /\
    (forall s n, by_source all_docs !! s = Some n -> (0 < n)%Z) /\
    tally_total (by_source all_docs) = Z.of_nat (length all_docs).
Proof.
  intros all_docs. split; [|split; [|split]].
  - intros s. rewrite by_source_lookup.
    by destruct (from_source s all_docs).
  - intros s. rewrite by_source_lookup. unfold from_source.
    destruct (filter _ all_docs) as [|d l] eqn:Hf.
    + split; [by intros [? ?]|]. intros (d & Hd & Hs).
      assert (Hin : d ∈ filter (fun d => source d = s) all_docs)
        by (by apply list_elem_of_filter).
      rewrite Hf in Hin. by apply elem_of_nil in Hin.
    + split; [|by eauto]. intros _. exists d.
      assert (Hin : d ∈ filter (fun d => source d = s) all_docs)
        by (rewrite Hf; by left).
      apply list_elem_of_filter in Hin as [? ?]. done.
  - intros s n. rewrite by_source_lookup.
    destruct (from_source s all_docs); [done|]. intros [= <-]. simpl. lia.
  - apply tally_total_by_source.
Qed.

(** X20 at work: two website documents and one of a repository. *)
Lemma tally_counts_documents_by_source_witness :
  default 0%Z (by_source [Fixture.cafe_doc; Fixture.plain_doc;
                          Fixture.cafe_doc] !! lit "website") = 2%Z /\
  default 0%Z (by_source [Fixture.cafe_doc; Fixture.plain_doc;
                          Fixture.cafe_doc] !! lit "github") = 1%Z.
Proof.
  split.
  - by rewrite (proj1 (tally_counts_documents_by_source
                         [Fixture.cafe_doc; Fixture.plain_doc;
                          Fixture.cafe_doc])).
  - by rewrite (proj1 (tally_counts_documents_by_source
                         [Fixture.cafe_doc; Fixture.plain_doc;
                          Fixture.cafe_doc])).
Defined.

(** ** The pipelines *)

Section PipelineFacts.
Context `{Env}.

Lemma rtd_crawl_budget fuel self w ds self' w' :
  ReadTheDocsIngester.get_all_docs fuel self w = (Ok (ds, self'), w') ->
  (Z.of_nat (length ds) <= Z.max 0 (ReadTheDocsIngester.max_pages self))%Z.
Proof.
  intros Hrun. apply rtd_get_all_docs_inv in Hrun as (f & Hr & _ & <- & _).
  by eapply rtd_reaches_budget.
Qed.

Lemma web_crawl_budget fuel self w ds self' w' :
  WebsiteIngester.get_all_docs fuel self w = (Ok (ds, self'), w') ->
  (Z.of_nat (length ds) <= Z.max 0 (WebsiteIngester.max_pages self))%Z.
Proof.
  intros Hrun. apply web_get_all_docs_inv in Hrun as (f & Hr & _ & <- & _).
  by eapply web_reaches_budget.
Qed.

Lemma web_crawl_domains fuel self w ds self' w' :
  WebsiteIngester.get_all_docs fuel self w = (Ok (ds, self'), w') ->
  Forall (fun d => netloc (url d) ∈ WebsiteIngester.allowed_domains self) ds.
Proof.
  intros Hrun. apply web_get_all_docs_inv in Hrun as (f & Hr & _ & <- & _).
  by apply web_allowed_docs in Hr as [? _].
Qed.

Lemma save_documents_cases documents output_file fs :
  save_documents documents output_file fs
  = Ok (<[output_file := json_dumps (JArr (map to_dict documents))]> fs) \/
  save_documents documents output_file fs = Raise UnicodeEncodeError.
Proof. unfold save_documents. destruct (forallb _ _); auto. Qed.
End PipelineFacts.

(** X21.  [main] saves what its three ingesters return.  A failure of the
    network never stops it: the one exception it can end with is the
    encoding error of the save.  When it ends normally it has written one
    file, [documents.json], which holds the dump of at most 30 doc-site
    documents, then the documents of the repository, then at most 10
    website documents, all of the last on [docs.python.org]; every other
    file is as it was. *)
Theorem main_saves_what_the_ingesters_return `{Env} :
  forall fuel fs w,
    (forall e w', main fuel fs w = (Raise e, w') -> e = UnicodeEncodeError) /\
    (forall fs' w',
       main fuel fs w = (Ok fs', w') ->
       exists rtd_docs github_docs website_docs,
         fs' = <[lit "documents.json" :=
                   json_dumps
                     (JArr (map to_dict
                              (rtd_docs ++ github_docs ++ website_docs)))]>
                 fs /\
         (length rtd_docs <= 30)%nat /\
         (length website_docs <= 10)%nat /\
         Forall (fun d => source d = lit "readthedocs") rtd_docs /\
         Forall (fun d => source d = lit "github") github_docs /\
         Forall (fun d => source d = lit "website" /\
                          netloc (url d) = lit "docs.python.org")
                website_docs).
Proof.
  intros fuel fs w. unfold main. cbv zeta. unfold_monad.
  destruct (ReadTheDocsIngester.get_all_docs fuel _ w)
    as [[[rtd_docs self1]| |] w1] eqn:Hrtd.
  2:{ by destruct (rtd_get_all_docs_no_raise _ _ _ _ _ Hrtd). }
  2:{ split; intros; discriminate. }
  destruct (GitHubIngester.get_all_docs fuel _ w1)
    as [[github_docs| |] w2] eqn:Hgh.
  2:{ by destruct (github_get_all_docs_never_raises _ _ _ _ _ Hgh). }
  2:{ split; intros; discriminate. }
  destruct (WebsiteIngester.get_all_docs fuel _ w2)
    as [[[website_docs self3]| |] w3] eqn:Hweb.
  2:{ by destruct (web_get_all_docs_no_raise _ _ _ _ _ Hweb). }
  2:{ split; intros; discriminate. }
  unfold lift_result. simpl fst.
  destruct (save_documents_cases
              (rtd_docs ++ github_docs ++ website_docs)
              (lit "documents.json") fs) as [-> | ->].
  2:{ split; [by intros e w' [= <- _]|intros; discriminate]. }
  split; [intros; discriminate|]. intros fs' w' [= <- _].
  exists rtd_docs, github_docs, website_docs. split; [done|].
  apply rtd_crawl_budget in Hrtd as Hb1.
  apply web_crawl_budget in Hweb as Hb3. simpl in Hb1, Hb3.
  split; [lia|]. split; [lia|].
  split; [by eapply rtd_crawl_sources|].
  split; [by eapply github_crawl_sources|].
  apply web_crawl_sources in Hweb as Hs. apply web_crawl_domains in Hweb.
  simpl in Hweb. rewrite Forall_forall in Hs, Hweb.
  apply Forall_forall. intros d Hd. split; [by apply Hs|].
  by apply list_elem_of_singleton, Hweb.
Qed.

(** X22.  The multi-source example saves the documents of its two
    doc-site crawls, at most 10 each, followed by those of the repository,
    and its tally has at most two entries: under [readthedocs] the number
    of documents of the two crawls together, under [github] the number of
    documents of the repository.  The one exception it can end with is the
    encoding error of the save. *)
Theorem example_3_tallies_its_sources `{Env} :
  forall fuel fs w,
    (forall e w',
       example_3_multiple_sources fuel fs w = (Raise e, w') ->
       e = UnicodeEncodeError) /\
    (forall all_docs tally fs' w',
       example_3_multiple_sources fuel fs w
       = (Ok (all_docs, tally, fs'), w') ->
       exists fastapi requests github,
         all_docs = fastapi ++ requests ++ github /\
         (length fastapi <= 10)%nat /\
         (length requests <= 10)%nat /\
         default 0%Z (tally !! lit "readthedocs")
         = Z.of_nat (length fastapi + length requests) /\
         default 0%Z (tally !! lit "github") = Z.of_nat (length github) /\
         (forall s, is_Some (tally !! s) ->
                    s = lit "readthedocs" \/ s = lit "github") /\
         fs' = <[lit "example3_multi_source.json" :=
                   json_dumps (JArr (map to_dict all_docs))]> fs).
Proof.
  intros fuel fs w. unfold example_3_multiple_sources. cbv zeta.
  unfold_monad.
  destruct (ReadTheDocsIngester.get_all_docs fuel _ w)
    as [[[fastapi self1]| |] w1] eqn:H1.
  2:{ by destruct (rtd_get_all_docs_no_raise _ _ _ _ _ H1). }
  2:{ split; intros; discriminate. }
  destruct (ReadTheDocsIngester.get_all_docs fuel _ w1)
    as [[[requests self2]| |] w2] eqn:H2.
  2:{ by destruct (rtd_get_all_docs_no_raise _ _ _ _ _ H2). }
  2:{ split; intros; discriminate. }
  destruct (GitHubIngester.get_all_docs fuel _ w2)
    as [[github| |] w3] eqn:H3.
  2:{ by destruct (github_get_all_docs_never_raises _ _ _ _ _ H3). }
  2:{ split; intros; discriminate. }
  unfold lift_result. simpl fst.
  destruct (save_documents_cases (fastapi ++ requests ++ github)
              (lit "example3_multi_source.json") fs) as [-> | ->].
  2:{ split; [by intros e w' [= <- _]|intros; discriminate]. }
  split; [intros; discriminate|].
  intros all_docs tally fs' w' [= <- <- <- _].
  exists fastapi, requests, github. split; [done|].
  apply rtd_crawl_budget in H1 as Hb1. apply rtd_crawl_budget in H2 as Hb2.
  simpl in Hb1, Hb2. split; [lia|]. split; [lia|].
  apply rtd_crawl_sources in H1. apply rtd_crawl_sources in H2.
  apply github_crawl_sources in H3.
  assert (Hrtd : from_source (lit "readthedocs")
                   (fastapi ++ requests ++ github) = fastapi ++ requests).
  { rewrite !from_source_app, !from_source_all by done.
    rewrite (from_source_none _ (lit "github")) by done.
    by rewrite app_nil_r. }
  assert (Hgh : from_source (lit "github")
                  (fastapi ++ requests ++ github) = github).
  { rewrite !from_source_app, (from_source_all _ github) by done.
    by rewrite !(from_source_none _ (lit "readthedocs")) by done. }
  split; [|split; [|split; [|done]]].
  - rewrite by_source_lookup, Hrtd.
    destruct (fastapi ++ requests) eqn:E; rewrite <- length_app, E; done.
  - rewrite by_source_lookup, Hgh. by destruct github.
  - intros s [n Hs]. rewrite by_source_lookup in Hs.
    destruct (from_source s _) as [|d l] eqn:Hf; [done|].
    assert (Hin : d ∈ from_source s (fastapi ++ requests ++ github))
      by (rewrite Hf; by left).
    apply list_elem_of_filter in Hin as [<- Hin].
    rewrite Forall_forall in H1, H2, H3.
    apply elem_of_app in Hin as [Hin | [Hin | Hin]%elem_of_app].
    + left. by apply H1.
    + left. by apply H2.
    + right. by apply H3.
Qed.

(** X22 at work: in the world of the fixture every url answers with the
    leaf page and the repository of the example has no readme and no docs
    directory; the example ends normally. *)
Lemma example_3_tallies_its_sources_witness :
  exists all_docs tally fs' w',
    example_3_multiple_sources (H := Fixture.all_ok) 5 ∅ []
    = (Ok (all_docs, tally, fs'), w') /\
    (default 0 (tally !! lit "readthedocs")
     + default 0 (tally !! lit "github")
     = Z.of_nat (length all_docs))%Z.
Proof.
  assert (Hok : returned (fst (example_3_multiple_sources
                                 (H := Fixture.all_ok) 5 ∅ [])) = true)
    by (vm_compute; reflexivity).
  destruct (example_3_multiple_sources (H := Fixture.all_ok) 5 ∅ [])
    as [[[[all_docs tally] fs']|e|] w'] eqn:Hrun.
  - exists all_docs, tally, fs', w'. split; [reflexivity|].
    destruct (proj2 (example_3_tallies_its_sources (H := Fixture.all_ok)
                       5%nat ∅ []) _ _ _ _ Hrun)
      as (fastapi & requests & github & Hall & _ & _ & Hrtd & Hgh & _).
    rewrite Hrtd, Hgh, Hall, !length_app. lia.
  - discriminate Hok.
  - discriminate Hok.
Defined.

(** X21 at work: [main] in the world of the fixture ends normally and
    leaves the artifact. *)
Lemma main_saves_what_the_ingesters_return_witness :
  exists fs' w' text,
    main (H := Fixture.all_ok) 5 ∅ [] = (Ok fs', w') /\
    fs' !! lit "documents.json" = Some text.
Proof.
  assert (Hok : returned (fst (main (H := Fixture.all_ok) 5 ∅ [])) = true)
    by (vm_compute; reflexivity).
  destruct (main (H := Fixture.all_ok) 5 ∅ []) as [[fs'|e|] w'] eqn:Hrun.
  - destruct (proj2 (main_saves_what_the_ingesters_return
                       (H := Fixture.all_ok) 5%nat ∅ []) _ _ Hrun)
      as (rtd_docs & github_docs & website_docs & Hfs & _).
    exists fs', w'. eexists. split; [reflexivity|].
    rewrite Hfs. apply lookup_insert_eq.
  - discriminate Hok.
  - discriminate Hok.
Defined.

(** ** When the save fails *)

Lemma forallb_encodable_inv s :
  forallb utf8_encodable s = true -> str_encodable s.
Proof.
  induction s as [|c s IH]; simpl; [constructor|].
  intros [Hc Hs]%andb_true_iff. constructor; [done|by apply IH].
Qed.

Lemma unencodable_is_literal c :
  utf8_encodable c = false -> escape_char c = [c].
Proof.
  intros Hc. apply escape_char_literal.
  unfold utf8_encodable in Hc. apply orb_false_iff in Hc as [Hc _].
  apply N.ltb_ge in Hc. lia.
Qed.

Lemma flat_map_escape_encodable_inv s :
  str_encodable (flat_map escape_char s) -> str_encodable s.
Proof.
  induction s as [|c s IH]; simpl; [constructor|].
  intros [Hc Hs]%Forall_app. constructor; [|by apply IH].
  destruct (utf8_encodable c) eqn:E; [done|].
  rewrite (unencodable_is_literal c E) in Hc.
  apply Forall_cons in Hc as [Hc _]. congruence.
Qed.

Lemma encode_basestring_encodable_inv s :
  str_encodable (encode_basestring s) -> str_encodable s.
Proof.
  unfold encode_basestring. intros [_ Hs]%Forall_cons.
  apply Forall_app in Hs as [Hs _]. by apply flat_map_escape_encodable_inv.
Qed.

(** A value whose text has no surrogate holds no surrogate. *)
Lemma encode_encodable_inv v :
  forall level, str_encodable (encode level v) -> json_encodable v.
Proof.
  induction v as [|b|z|s|xs IH|ms IH] using json_induction;
    intros level Hv; try done.
  - by apply encode_basestring_encodable_inv.
  - destruct IH as [|x xs Hx Hxs]; [done|].
    rewrite encode_arr in Hv.
    apply Forall_app in Hv as [_ Hv]. apply Forall_app in Hv as [_ Hv].
    apply Forall_app in Hv as [Hvx Hv]. apply Forall_app in Hv as [Hvxs _].
    split; [by eapply Hx|]. clear Hx Hvx.
    induction Hxs as [|y ys Hy _ IHys]; [done|].
    cbn [encode_more_items] in Hvxs.
    apply Forall_app in Hvxs as [_ Hvxs].
    apply Forall_app in Hvxs as [Hvy Hvys].
    split; [by eapply Hy|by apply IHys].
  - destruct IH as [|[k x] ms Hx Hms]; [done|].
    rewrite encode_obj in Hv.
    apply Forall_app in Hv as [_ Hv]. apply Forall_app in Hv as [_ Hv].
    apply Forall_app in Hv as [Hk Hv]. apply Forall_app in Hv as [_ Hv].
    apply Forall_app in Hv as [Hvx Hv]. apply Forall_app in Hv as [Hvms _].
    split; [by apply encode_basestring_encodable_inv|].
    split; [by eapply Hx|]. clear Hx Hvx Hk.
    induction Hms as [|[k' y] ys Hy _ IHys]; [done|].
    cbn [encode_more_members] in Hvms.
    apply Forall_app in Hvms as [_ Hvms].
    apply Forall_app in Hvms as [Hk' Hvms].
    apply Forall_app in Hvms as [_ Hvms].
    apply Forall_app in Hvms as [Hvy Hvys].
    split; [by apply encode_basestring_encodable_inv|].
    split; [by eapply Hy|by apply IHys].
Qed.

Lemma to_dict_encodable_inv d :
  json_encodable (to_dict d) -> document_encodable d.
Proof.
  simpl. intros (_ & Hs & _ & Hu & _ & Ht & _ & Hc & _ & Hm & _).
  do 4 (split; [done|]). clear -Hm.
  induction (metadata d) as [|[k v] ms IH]; [constructor|].
  simpl in Hm. destruct Hm as (Hk & Hv & Hms).
  constructor; [|by apply IH]. split; [done|]. by destruct v.
Qed.

Lemma documents_encodable_inv ds :
  json_encodable (JArr (map to_dict ds)) -> Forall document_encodable ds.
Proof.
  induction ds as [|d ds IH]; [constructor|].
  intros [Hd Hds]. constructor; [by apply to_dict_encodable_inv|].
  by apply IH.
Qed.

Lemma save_documents_encodable documents output_file fs :
  Forall document_encodable documents <->
  save_documents documents output_file fs
  = Ok (<[output_file := json_dumps (JArr (map to_dict documents))]> fs).
Proof.
  unfold save_documents. split.
  - intros Hdocs. rewrite forallb_encodable; [done|].
    apply encode_encodable. by apply documents_encodable.
  - destruct (forallb _ _) eqn:E; [|done]. intros _.
    apply forallb_encodable_inv in E.
    by apply documents_encodable_inv, (encode_encodable_inv _ O).
Qed.

(** X23.  The save fails exactly when some text cannot go into the file.
    [save_documents] ends normally, with the dump written, if and only if
    no string of the documents (a source, a url, a title, a content, a key
    or a string value of the metadata) holds a surrogate code point; when
    one does, it raises the encoding error.  (Failures of the file system
    itself are outside the model.) *)
Theorem save_fails_exactly_on_surrogates :
  forall (documents : list Document) (output_file : str) (fs : filesystem),
    (Forall document_encodable documents <->
     save_documents documents output_file fs
     = Ok (<[output_file := json_dumps (JArr (map to_dict documents))]> fs))
    /\
    (~ Forall document_encodable documents <->
     save_documents documents output_file fs = Raise UnicodeEncodeError) /\
    (save_documents documents output_file fs
     = Ok (<[output_file := json_dumps (JArr (map to_dict documents))]> fs)
     \/ save_documents documents output_file fs = Raise UnicodeEncodeError).
Proof.
  intros documents output_file fs.
  pose proof (save_documents_encodable documents output_file fs) as Hiff.
  split; [exact Hiff|]. split.
  - rewrite Hiff. unfold save_documents.
    destruct (forallb _ _); split; done.
  - unfold save_documents. destruct (forallb _ _); auto.
Qed.

(** X23 at work: a document whose title ends with a lone surrogate. *)
Lemma save_fails_exactly_on_surrogates_witness :
  save_documents
    [{| source := lit "website"; url := lit "http://d"; title := [97; 56320];
        content := lit "text"; metadata := [] |}]
    (lit "documents.json") ∅
  = Raise UnicodeEncodeError.
Proof.
  apply (proj1 (proj2 (save_fails_exactly_on_surrogates _ _ _))).
  intros Hall. apply Forall_cons in Hall as [(_ & _ & Ht & _) _].
  apply Forall_cons in Ht as [_ Ht]. apply Forall_cons in Ht as [Ht _].
  vm_compute in Ht. discriminate.
Defined.

(** ** The docs directory of a repository that answers *)

Section StaticRepository.
Context `{Env} (self : GitHubIngester.t).
Context (listing : str -> option (list Entry)).
Context (download : str -> Response).
Hypothesis listing_static :
  forall w path, listing_seen self w path = listing path.
Hypothesis downloads_answered :
  forall w u, http_get w (download_request u) = Some (download u).

Lemma get_docs_directory_seen fuel path w :
  GitHubIngester._get_docs_directory (S fuel) self path w
  = let w1 := EvGet DirListing (listing_request self path) :: w in
    match listing path with
    | None => (Ok [], w1)
    | Some items =>
        GitHubIngester.for_items
          (GitHubIngester._get_docs_directory fuel self) self items [] w1
    end.
Proof.
  rewrite get_docs_directory_unfold, <- (listing_static w path).
  unfold listing_seen. cbv zeta.
  destruct (http_get w (listing_request self path)) as [r|]; [|done].
  destruct (bool_decide _); [done|]. destruct (_ && _); [done|].
  by destruct (json_listing (body r)).
Qed.

Lemma for_items_in_order recurse depth items documents w ds w' :
  (forall path, never_raises (recurse path)) ->
  (forall path w1 sub w2,
     recurse path w1 = (Ok sub, w2) ->
     Forall2 (document_of_entry self download) sub
       (docs_files listing depth path)) ->
  GitHubIngester.for_items recurse self items documents w = (Ok ds, w') ->
  exists new,
    ds = documents ++ new /\
    Forall2 (document_of_entry self download) new
      (flat_map (fun item =>
                   if GitHubIngester.is_docs_file item then [item]
                   else if bool_decide (entry_type item = lit "dir")
                        then docs_files listing depth (entry_path item)
                        else [])
                items).
Proof.
  intros Hnr Hrec. revert documents w.
  induction items as [|item rest IH]; intros documents w;
    cbn [GitHubIngester.for_items flat_map].
  - intros [= <- _]. exists []. by rewrite app_nil_r.
  - destruct (GitHubIngester.is_docs_file item) eqn:Hfile.
    + unfold GitHubIngester.or_return. unfold_monad.
      unfold requests_get, strftime.
      fold (download_request (entry_download_url item)).
      rewrite downloads_answered.
      intros Hrun. apply IH in Hrun as (new & -> & Hnew).
      eexists (_ :: new). split; [by rewrite <- app_assoc|].
      constructor; [|done]. eexists. reflexivity.
    + destruct (bool_decide (entry_type item = lit "dir")).
      * unfold GitHubIngester.or_return.
        destruct (recurse (entry_path item) w) as [[sub| |] w1] eqn:Hsub;
          [|by destruct (Hnr _ _ _ _ Hsub)|done].
        intros Hrun. apply IH in Hrun as (new & -> & Hnew).
        exists (sub ++ new). split; [by rewrite <- app_assoc|].
        apply Forall2_app; [by eapply Hrec|done].
      * intros Hrun. apply IH in Hrun as (new & -> & Hnew). by exists new.
Qed.

Lemma get_docs_directory_in_order fuel path w ds w' :
  GitHubIngester._get_docs_directory fuel self path w = (Ok ds, w') ->
  Forall2 (document_of_entry self download) ds
    (docs_files listing fuel path).
Proof.
  revert path w ds w'. induction fuel as [|fuel IH]; intros path w ds w';
    [done|].
  rewrite get_docs_directory_seen. cbv zeta. cbn [docs_files].
  destruct (listing path) as [items|]; [|intros [= <- _]; constructor].
  intros Hrun.
  destruct (for_items_in_order _ fuel _ _ _ _ _
              (fun p => get_docs_directory_never_raises fuel self p)
              IH Hrun) as (new & -> & Hnew).
  done.
Qed.

(** With fuel above the depth of the tree the walk returns. *)
Lemma for_items_returns recurse depth items documents w :
  (forall path w1,
     within_depth listing depth path = true ->
     exists sub w2, recurse path w1 = (Ok sub, w2)) ->
  forallb (fun item =>
             if GitHubIngester.is_docs_file item then true
             else if bool_decide (entry_type item = lit "dir")
                  then within_depth listing depth (entry_path item)
                  else true)
          items = true ->
  exists ds w',
    GitHubIngester.for_items recurse self items documents w = (Ok ds, w').
Proof.
  intros Hrec. revert documents w.
  induction items as [|item rest IH]; intros documents w;
    cbn [GitHubIngester.for_items forallb].
  - intros _. by eexists _, _.
  - intros [Hitem Hrest]%andb_true_iff.
    destruct (GitHubIngester.is_docs_file item) eqn:Hfile.
    + unfold GitHubIngester.or_return. unfold_monad.
      unfold requests_get, strftime.
      fold (download_request (entry_download_url item)).
      rewrite downloads_answered. by apply IH.
    + destruct (bool_decide (entry_type item = lit "dir")).
      * unfold GitHubIngester.or_return.
        destruct (Hrec (entry_path item) w Hitem) as (sub & w1 & ->).
        by apply IH.
      * by apply IH.
Qed.

Lemma get_docs_directory_returns fuel path w :
  within_depth listing fuel path = true ->
  exists ds w',
    GitHubIngester._get_docs_directory fuel self path w = (Ok ds, w').
Proof.
  revert path w. induction fuel as [|fuel IH]; intros path w; [done|].
  rewrite get_docs_directory_seen. cbv zeta. cbn [within_depth].
  destruct (listing path) as [items|]; [|by eexists _, _].
  by apply for_items_returns.
Qed.

(** More fuel than the depth of the tree changes nothing. *)
Lemma within_depth_more depth more path :
  within_depth listing depth path = true ->
  within_depth listing (depth + more) path = true.
Proof.
  revert path. induction depth as [|depth IH]; intros path; [done|].
  cbn [within_depth Nat.add].
  destruct (listing path) as [items|]; [|done].
  rewrite !forallb_forall. intros Hall item Hin. specialize (Hall item Hin).
  destruct (GitHubIngester.is_docs_file item); [done|].
  destruct (bool_decide _); [by apply IH|done].
Qed.

Lemma docs_files_more depth more path :
  within_depth listing depth path = true ->
  docs_files listing (depth + more) path = docs_files listing depth path.
Proof.
  revert path. induction depth as [|depth IH]; intros path; [done|].
  cbn [within_depth docs_files Nat.add].
  destruct (listing path) as [items|]; [|done].
  induction items as [|item rest IHr]; [done|].
  cbn [forallb flat_map]. intros [Hitem Hrest]%andb_true_iff.
  rewrite (IHr Hrest). f_equal.
  destruct (GitHubIngester.is_docs_file item); [done|].
  destruct (bool_decide _); [by apply IH|done].
Qed.

Lemma for_items_same_recursion recurse1 recurse2 depth items documents w :
  (forall path w1,
     within_depth listing depth path = true ->
     recurse1 path w1 = recurse2 path w1) ->
  forallb (fun item =>
             if GitHubIngester.is_docs_file item then true
             else if bool_decide (entry_type item = lit "dir")
                  then within_depth listing depth (entry_path item)
                  else true)
          items = true ->
  GitHubIngester.for_items recurse1 self items documents w
  = GitHubIngester.for_items recurse2 self items documents w.
Proof.
  intros Hrec. revert documents w.
  induction items as [|item rest IH]; intros documents w;
    cbn [GitHubIngester.for_items forallb]; [done|].
  intros [Hitem Hrest]%andb_true_iff.
  destruct (GitHubIngester.is_docs_file item) eqn:Hfile.
  - unfold GitHubIngester.or_return. unfold_monad.
    destruct (requests_get _ _ _ _ w) as [[r| |] w1]; [|done..].
    unfold strftime. by apply IH.
  - destruct (bool_decide (entry_type item = lit "dir")); [|by apply IH].
    unfold GitHubIngester.or_return. rewrite (Hrec _ _ Hitem).
    destruct (recurse2 (entry_path item) w) as [[sub| |] w1]; [|done..].
    by apply IH.
Qed.

Lemma get_docs_directory_more fuel more path w :
  within_depth listing fuel path = true ->
  GitHubIngester._get_docs_directory (fuel + more) self path w
  = GitHubIngester._get_docs_directory fuel self path w.
Proof.
  revert path w. induction fuel as [|fuel IH]; intros path w; [done|].
  cbn [Nat.add]. rewrite !get_docs_directory_seen. cbv zeta.
  cbn [within_depth].
  destruct (listing path) as [items|]; [|done].
  apply for_items_same_recursion. intros p w1. apply IH.
Qed.
End StaticRepository.

Lemma documents_of_entries `{Env} self download ds items :
  Forall2 (document_of_entry self download) ds items ->
  map title ds = map entry_name items /\
  map url ds = map entry_html_url items /\
  map content ds
  = map (fun item =>
           response_text (body (download (entry_download_url item)))) items.
Proof.
  induction 1 as [|d item ds items [now ->] _ (IH1 & IH2 & IH3)]; [done|].
  simpl. by rewrite IH1, IH2, IH3.
Qed.

(** X24.  The docs files of a repository that answers, in order.  Suppose
    the listing of each directory is the same whenever it is asked for (its
    entries, or nothing when the request fails, is answered with an error
    status or does not decode) and the download of each url is answered,
    the same each time.  Then with more calls allowed than the tree is
    deep, [_get_docs_directory] returns, and what it returns are the
    documents of the docs files of the tree, a file being an entry of type
    [file] whose name ends with [.md], [.markdown] or [.rst]: one document
    per file, in the order of the listings, the files of a subdirectory in
    the place of its entry (depth first); each is the document of its
    entry, with the url, the name and the path of the entry, and its
    content is the text of the download of the entry's download url.
    Entries of another type and files with another suffix give nothing.
    Allowing still more calls changes neither the files nor the run. *)
Theorem docs_directory_is_walked_depth_first `{Env} :
  forall (self : GitHubIngester.t) (listing : str -> option (list Entry))
         (download : str -> Response),
    (forall w path, listing_seen self w path = listing path) ->
    (forall w u, http_get w (download_request u) = Some (download u)) ->
    forall fuel path w,
      within_depth listing fuel path = true ->
      (exists ds w',
         GitHubIngester._get_docs_directory fuel self path w = (Ok ds, w') /\
         Forall2 (document_of_entry self download) ds
           (docs_files listing fuel path) /\
         map title ds = map entry_name (docs_files listing fuel path) /\
         map url ds = map entry_html_url (docs_files listing fuel path) /\
         map content ds
         = map (fun item =>
                  response_text
                    (body (download (entry_download_url item))))
               (docs_files listing fuel path)) /\
      (forall more,
         docs_files listing (fuel + more) path
         = docs_files listing fuel path /\
         GitHubIngester._get_docs_directory (fuel + more) self path w
         = GitHubIngester._get_docs_directory fuel self path w).
Proof.
  intros self listing download Hstatic Hdl fuel path w Hdepth. split.
  - destruct (get_docs_directory_returns self listing download Hstatic Hdl
                fuel path w Hdepth) as (ds & w' & Hrun).
    exists ds, w'. split; [exact Hrun|].
    pose proof (get_docs_directory_in_order self listing download Hstatic
                  Hdl _ _ _ _ _ Hrun) as Hall.
    split; [exact Hall|]. by apply documents_of_entries in Hall.
  - intros more. split.
    + by apply docs_files_more.
    + by eapply get_docs_directory_more.
Qed.

(** X24 at work: the docs directory of the fixture, whose subdirectory
    comes second: its file comes second in the result.  Two nested calls
    are enough. *)
Lemma docs_directory_is_walked_depth_first_witness :
  exists ds w',
    GitHubIngester._get_docs_directory (H := Fixture.all_ok) 2 Fixture.repo
      (lit "docs") [] = (Ok ds, w') /\
    map title ds = [lit "guide.md"; lit "deep.markdown"; lit "api.rst"] /\
    map content ds
    = [lit "text of https://raw/o/r/docs/guide.md";
       lit "text of https://raw/o/r/docs/sub/deep.markdown";
       lit "text of https://raw/o/r/docs/api.rst"].
Proof.
  pose (listing := fun path =>
          @json_listing Fixture.all_ok
            (req_url (listing_request Fixture.repo path))).
  pose (download := fun u => {| status_code := 200%Z; body := u |}).
  destruct (docs_directory_is_walked_depth_first (H := Fixture.all_ok)
              Fixture.repo listing download
              (fun w path => eq_refl) (fun w u => eq_refl)
              2%nat (lit "docs") [] ltac:(vm_compute; reflexivity))
    as [(ds & w' & Hrun & _ & Ht & _ & Hc) _].
  exists ds, w'. split; [exact Hrun|]. split.
  - rewrite Ht. vm_compute. reflexivity.
  - rewrite Hc. vm_compute. reflexivity.
Defined.

(** * C6: the content of an extracted page *)

Section CollapsedContent.
Context `{Env}.

Lemma rtd_scrape_page_collapses u w d w' :
  ReadTheDocsIngester._scrape_page u w = (Ok d, w') ->
  url d = u /\
  exists r n,
    http_get w (page_request u) = Some r /\
    ReadTheDocsIngester.main_content
      (decompose_all ReadTheDocsIngester.removed_tags (html_parser (body r)))
    = Some n /\
    content d = re_sub_nl3 (get_text [NL] n).
Proof.
  rewrite rtd_scrape_page_outcome. cbv zeta.
  destruct (http_get w (page_request u)) as [r|]; [|discriminate].
  destruct (_ && _); [discriminate|].
  destruct (ReadTheDocsIngester.main_content _) as [n|] eqn:Hn;
    [|discriminate].
  intros [= <- _]. split; [done|]. by exists r, n.
Qed.

Lemma web_scrape_page_collapses u w d w' :
  WebsiteIngester._scrape_page u w = (Ok d, w') ->
  url d = u /\
  exists r,
    http_get w (page_request u) = Some r /\
    content d
    = re_sub_nl3
        match WebsiteIngester.main_content
                (decompose_all WebsiteIngester.removed_tags
                               (html_parser (body r))) with
        | Some n => get_text [NL] n
        | None => []
        end.
Proof.
  rewrite web_scrape_page_outcome. cbv zeta.
  destruct (http_get w (page_request u)) as [r|]; [|discriminate].
  destruct (_ && _); [discriminate|].
  intros [= <- _]. split; [done|]. by exists r.
Qed.
End CollapsedContent.

(** C6.  The content of every document the extractor produces, in either
    variant, is the raw text of the page's content root with its newlines
    collapsed: the page was answered, and the content is
    [re.sub(r'\n{3,}', '\n\n', .)] of what [get_text] gave for the root of
    the answer without its chrome (of the empty text, in the website
    variant, when the page has no root).  The same holds for every document
    a crawl returns, for the answer its url gave at some point of the
    crawl.  Conversely a page answered with a status outside 400 to 599
    (and, in the doc-site variant, with a root) gives a document with that
    content.  The collapsed text holds no three consecutive newlines, and
    every run of three or more newlines of the raw text becomes exactly two:
    a run taken whole (the text before it does not end with a newline, the
    text after it does not start with one) becomes two newlines between the
    collapsed neighbours, in the text as in the content of the document
    extracted from it.  In particular five newlines become two. *)
Theorem content_has_no_three_newlines `{Env} :
  (forall u w d w',
     ReadTheDocsIngester._scrape_page u w = (Ok d, w') ->
     no_triple_newline (content d)) /\
  (forall u w d w',
     WebsiteIngester._scrape_page u w = (Ok d, w') ->
     no_triple_newline (content d)) /\
  (forall fuel self w ds self' w',
     ReadTheDocsIngester.get_all_docs fuel self w = (Ok (ds, self'), w') ->
     Forall (fun d => no_triple_newline (content d)) ds) /\
  (forall fuel self w ds self' w',
     WebsiteIngester.get_all_docs fuel self w = (Ok (ds, self'), w') ->
     Forall (fun d => no_triple_newline (content d)) ds) /\
  (forall raw, no_triple_newline (re_sub_nl3 raw)) /\
  (forall a k b,
     no_final_newline a -> count_nl b = O -> (3 <= k)%nat ->
     re_sub_nl3 (a ++ repeat NL k ++ b)
     = re_sub_nl3 a ++ [NL; NL] ++ re_sub_nl3 b) /\
  re_sub_nl3 (repeat NL 5) = [NL; NL] /\
  re_sub_nl3 (lit "Hello" ++ repeat NL 5 ++ lit "World")
  = lit "Hello" ++ [NL; NL] ++ lit "World" /\
  (forall u w d w',
     ReadTheDocsIngester._scrape_page u w = (Ok d, w') ->
     exists r n,
       http_get w (page_request u) = Some r /\
       ReadTheDocsIngester.main_content
         (decompose_all ReadTheDocsIngester.removed_tags
                        (html_parser (body r)))
       = Some n /\
       content d = re_sub_nl3 (get_text [NL] n)) /\
  (forall u w d w',
     WebsiteIngester._scrape_page u w = (Ok d, w') ->
     exists r,
       http_get w (page_request u) = Some r /\
       content d
       = re_sub_nl3
           match WebsiteIngester.main_content
                   (decompose_all WebsiteIngester.removed_tags
                                  (html_parser (body r))) with
           | Some n => get_text [NL] n
           | None => []
           end) /\
  (forall fuel self w ds self' w',
     ReadTheDocsIngester.get_all_docs fuel self w = (Ok (ds, self'), w') ->
     Forall (fun d =>
               exists w1 r n,
                 http_get w1 (page_request (url d)) = Some r /\
                 ReadTheDocsIngester.main_content
                   (decompose_all ReadTheDocsIngester.removed_tags
                                  (html_parser (body r)))
                 = Some n /\
                 content d = re_sub_nl3 (get_text [NL] n)) ds) /\
  (forall fuel self w ds self' w',
     WebsiteIngester.get_all_docs fuel self w = (Ok (ds, self'), w') ->
     Forall (fun d =>
               exists w1 r,
                 http_get w1 (page_request (url d)) = Some r /\
                 content d
                 = re_sub_nl3
                     match WebsiteIngester.main_content
                             (decompose_all WebsiteIngester.removed_tags
                                            (html_parser (body r))) with
                     | Some n => get_text [NL] n
                     | None => []
                     end) ds) /\
  (forall u w r n,
     http_get w (page_request u) = Some r ->
     ~ error_status (status_code r) ->
     ReadTheDocsIngester.main_content
       (decompose_all ReadTheDocsIngester.removed_tags (html_parser (body r)))
     = Some n ->
     exists d,
       ReadTheDocsIngester._scrape_page u w
       = (Ok d, EvGet ScrapePage (page_request u) :: w) /\
       content d = re_sub_nl3 (get_text [NL] n)) /\
  (forall u w r,
     http_get w (page_request u) = Some r ->
     ~ error_status (status_code r) ->
     exists d,
       WebsiteIngester._scrape_page u w
       = (Ok d, EvGet ScrapePage (page_request u) :: w) /\
       content d
       = re_sub_nl3
           match WebsiteIngester.main_content
                   (decompose_all WebsiteIngester.removed_tags
                                  (html_parser (body r))) with
           | Some n => get_text [NL] n
           | None => []
           end) /\
  (forall u w d w' r n a k b,
     ReadTheDocsIngester._scrape_page u w = (Ok d, w') ->
     http_get w (page_request u) = Some r ->
     ReadTheDocsIngester.main_content
       (decompose_all ReadTheDocsIngester.removed_tags (html_parser (body r)))
     = Some n ->
     get_text [NL] n = a ++ repeat NL k ++ b ->
     no_final_newline a -> count_nl b = O -> (3 <= k)%nat ->
     content d = re_sub_nl3 a ++ [NL; NL] ++ re_sub_nl3 b) /\
  (forall u w d w' r n a k b,
     WebsiteIngester._scrape_page u w = (Ok d, w') ->
     http_get w (page_request u) = Some r ->
     WebsiteIngester.main_content
       (decompose_all WebsiteIngester.removed_tags (html_parser (body r)))
     = Some n ->
     get_text [NL] n = a ++ repeat NL k ++ b ->
     no_final_newline a -> count_nl b = O -> (3 <= k)%nat ->
     content d = re_sub_nl3 a ++ [NL; NL] ++ re_sub_nl3 b).
Proof.
  split; [intros u w d w' Hrun; by apply rtd_scrape_page_ok in Hrun as (_ & ? & _)|].
  split; [intros u w d w' Hrun; by apply web_scrape_page_ok in Hrun as (_ & ? & _)|].
  split.
  { intros fuel self w ds self' w' Hrun. apply rtd_crawl_docs in Hrun.
    eapply Forall_impl; [exact Hrun|]. by intros d [_ ?]. }
  split.
  { intros fuel self w ds self' w' Hrun. apply web_crawl_docs in Hrun.
    eapply Forall_impl; [exact Hrun|]. by intros d [_ ?]. }
  split; [apply re_sub_nl3_no_triple|].
  split; [apply re_sub_nl3_run|]. split; [reflexivity|].
  split; [reflexivity|].
  split; [intros u w d w' Hrun; by apply rtd_scrape_page_collapses in Hrun as [_ ?]|].
  split; [intros u w d w' Hrun; by apply web_scrape_page_collapses in Hrun as [_ ?]|].
  split.
  { intros fuel self w ds self' w'. apply rtd_crawl_documents.
    intros u w1 d w2 Hrun.
    apply rtd_scrape_page_collapses in Hrun as (-> & r & n & ? & ? & ?).
    by exists w1, r, n. }
  split.
  { intros fuel self w ds self' w'. apply web_crawl_documents.
    intros u w1 d w2 Hrun.
    apply web_scrape_page_collapses in Hrun as (-> & r & ? & ?).
    by exists w1, r. }
  split; [exact rtd_scrape_page_content|].
  split.
  { intros u w r Hget Hok.
    destruct (web_scrape_page_content u w r Hget Hok) as (d & Hrun & _).
    exists d. split; [exact Hrun|].
    apply web_scrape_page_collapses in Hrun as (_ & r' & Hget' & ->).
    rewrite Hget in Hget'. by injection Hget' as <-. }
  split.
  - intros u w d w' r n a k b Hrun Hget Hn Hraw Ha Hb Hk.
    apply rtd_scrape_page_collapses in Hrun as (_ & r' & n' & Hget' & Hn' & ->).
    rewrite Hget in Hget'. injection Hget' as <-.
    rewrite Hn in Hn'. injection Hn' as <-.
    rewrite Hraw. by apply re_sub_nl3_run.
  - intros u w d w' r n a k b Hrun Hget Hn Hraw Ha Hb Hk.
    apply web_scrape_page_collapses in Hrun as (_ & r' & Hget' & ->).
    rewrite Hget in Hget'. injection Hget' as <-.
    rewrite Hn, Hraw. by apply re_sub_nl3_run.
Qed.

(** C6 at work: the home page of the fixture is answered and holds "Hello",
    four newlines and "World" in its main element; the extracted content is
    the collapsed text of that element: "Hello", two newlines and
    "World". *)
Lemma content_has_no_three_newlines_witness :
  exists d w' r n,
    WebsiteIngester._scrape_page (H := Fixture.all_ok) (lit "http://d") []
    = (Ok d, w') /\
    http_get (Env := Fixture.all_ok) [] (page_request (lit "http://d"))
    = Some r /\
    WebsiteIngester.main_content
      (decompose_all WebsiteIngester.removed_tags
                     (html_parser (Env := Fixture.all_ok) (body r)))
    = Some n /\
    get_text [NL] n = lit "Hello" ++ repeat NL 4 ++ lit "World" /\
    content d = re_sub_nl3 (get_text [NL] n) /\
    content d = lit "Hello" ++ [NL; NL] ++ lit "World" /\
    no_triple_newline (content d).
Proof.
  pose (run := WebsiteIngester._scrape_page (H := Fixture.all_ok)
                 (lit "http://d") []).
  assert (Hrun : exists d w', run = (Ok d, w')).
  { vm_compute. eexists _, _. reflexivity. }
  destruct Hrun as (d & w' & Hrun).
  pose proof (content_has_no_three_newlines (H := Fixture.all_ok))
    as (_ & Hno & _ & _ & _ & _ & _ & _ & _ & Hweb & _ & _ & _ & _ & _ & Hcol).
  destruct (Hweb _ _ _ _ Hrun) as (r & Hget & Hcontent).
  assert (Hroot : exists n,
             WebsiteIngester.main_content
               (decompose_all WebsiteIngester.removed_tags
                  (html_parser (Env := Fixture.all_ok) (body r))) = Some n /\
             get_text [NL] n = lit "Hello" ++ repeat NL 4 ++ lit "World").
  { vm_compute in Hget. injection Hget as <-.
    vm_compute. eexists. split; reflexivity. }
  destruct Hroot as (n & Hn & Hraw).
  exists d, w', r, n. split; [exact Hrun|]. split; [exact Hget|].
  split; [exact Hn|]. split; [exact Hraw|].
  split; [by rewrite Hcontent, Hn|]. split.
  - apply (Hcol _ _ _ _ r n (lit "Hello") 4%nat (lit "World") Hrun Hget Hn Hraw).
    + vm_compute. discriminate.
    + reflexivity.
    + lia.
  - exact (Hno _ _ _ _ Hrun).
Defined.
